(** * SceneManager: scene composition and shading-state management

    A shallow embedding of [SceneManager.cpp] / [SceneManager.h].

    Every method of the class becomes a computation in a small state and
    error monad over the fields of the object.  Calls into the external
    collaborators (the image decoder, the OpenGL driver, the shader
    manager, the mesh provider and the console) are recorded, in program
    order, in a trace; what those collaborators answer (the decoded image,
    the name of a new texture, the arithmetic of the glm library) is a
    parameter of the development. *)

From Stdlib Require Import ZArith QArith List Lia.
From stdpp Require Import base list strings gmap.

Open Scope string_scope.
Open Scope list_scope.
Open Scope Z_scope.

(** ** The glm library

    The source computes with [float], [glm::vec2/3/4] and [glm::mat4].
    Floating-point arithmetic is not modelled: the scalar type, the literal
    conversion and every glm operation used by the source are fields of an
    interface, and nothing is assumed about them.  Vectors are records of
    scalars, as in glm. *)

Record vec2 (F : Type) := Vec2 { v2_x : F; v2_y : F }.
Record vec3 (F : Type) := Vec3 { v3_x : F; v3_y : F; v3_z : F }.
Record vec4 (F : Type) := Vec4 { v4_r : F; v4_g : F; v4_b : F; v4_a : F }.
Arguments Vec2 {F} _ _.
Arguments Vec3 {F} _ _ _.
Arguments Vec4 {F} _ _ _ _.
Arguments v3_x {F} _.
Arguments v3_y {F} _.
Arguments v3_z {F} _.

Class Glm := {
  float : Type;
  (** the [float] denoted by a decimal literal of the source *)
  flit : Q -> float;
  (** [float + float] *)
  fadd : float -> float -> float;
  mat4 : Type;
  (** [glm::mat4 * glm::mat4] *)
  mat4_mul : mat4 -> mat4 -> mat4;
  glm_radians : float -> float;
  glm_cos : float -> float;
  (** [glm::scale(v)], [glm::rotate(angle, axis)], [glm::translate(v)]
      of <glm/gtx/transform.hpp> *)
  glm_scale : vec3 float -> mat4;
  glm_rotate : float -> vec3 float -> mat4;
  glm_translate : vec3 float -> mat4
}.

(** [glm::vec3 + glm::vec3] is componentwise. *)
Definition vec3_add `{Glm} (a b : vec3 float) : vec3 float :=
  Vec3 (fadd (v3_x a) (v3_x b)) (fadd (v3_y a) (v3_y b)) (fadd (v3_z a) (v3_z b)).

(** ** Data of SceneManager.h *)

Definition MAX_TEXTURES : Z := 16.

(** [GL_TEXTURE0] of the OpenGL headers. *)
Definition GL_TEXTURE0 : Z := 0x84C0.

(** [struct TEXTURE_INFO]; [ID] is a [uint32_t]. *)
Record TEXTURE_INFO := mkTexture { tex_tag : string; tex_ID : Z }.

Section Data.
Context `{Glm}.

(** [struct OBJECT_MATERIAL] *)
Record OBJECT_MATERIAL := mkMaterial {
  diffuseColor : vec3 float;
  specularColor : vec3 float;
  shininess : float;
  mat_tag : string
}.

(** Conversion of a [uint32_t] to [int], as in [textureID = ....ID]. *)
Definition int_of_uint32 (u : Z) : Z :=
  if u <? 2 ^ 31 then u else u - 2 ^ 32.

(** ** Calls to the collaborators *)

Inductive primitive := Plane | Box | Cone | Sphere | Cylinder.

(** What [stbi_load] hands back for a readable file; the pixels are opaque. *)
Record stbi_image := mkImage { width : Z; height : Z; colorChannels : Z }.

(** The lines written to [std::cout]. *)
Inductive log_line :=
| LoadedImage (filename : string) (w h channels : Z)
| UnsupportedChannels (channels : Z)
| MaxTexturesLoaded (filename : string)
| CouldNotLoad (filename : string)
| TextureNotFound (tag : string)
| MaterialNotFound (tag : string).

Inductive tex_format := RGB8 | RGBA8.
Inductive tex_param := WRAP_S_REPEAT | WRAP_T_REPEAT | MIN_FILTER_LINEAR | MAG_FILTER_LINEAR.

(** Values accepted by the shader manager's setters. *)
Inductive uniform :=
| UMat4 (m : mat4)
| UInt (i : Z)
| UBool (b : bool)
| UFloat (f : float)
| UVec2 (v : vec2 float)
| UVec3 (v : vec3 float)
| UVec4 (v : vec4 float)
| USampler2D (slot : Z).

Inductive event :=
| stbi_set_flip_vertically_on_load (flag : bool)
| stbi_load_call (filename : string)
| stbi_image_free
| cout (l : log_line)
| glGenTextures_call (id : Z)
| glBindTexture (id : Z)
| glTexParameteri (p : tex_param)
| glTexImage2D (fmt : tex_format) (w h : Z)
| glGenerateMipmap
| glDeleteTextures (id : Z)
| glActiveTexture (unit : Z)
| shader_set (name : string) (v : uniform)
| LoadMesh (p : primitive)
| DrawMesh (p : primitive).

(** What the platform answers: the image decoder, the OpenGL driver, and the
    content of an object that is declared without an initialiser.  The
    texture name produced by [glGenTextures] and the content of an
    uninitialised [OBJECT_MATERIAL] may depend on everything that happened
    before; nothing is assumed about them. *)
Class World := {
  stbi_load : string -> option stbi_image;
  glGenTextures : list event -> Z;
  indeterminate : list event -> vec3 float * vec3 float * float
}.

(** ** The object state *)

Record SceneManager := mkScene {
  (** [ShaderManager* m_pShaderManager]; [None] is [NULL] *)
  m_pShaderManager : option positive;
  m_loadedTextures : Z;
  (** [TEXTURE_INFO m_textureIDs[MAX_TEXTURES]] *)
  m_textureIDs : list TEXTURE_INFO;
  m_objectMaterials : list OBJECT_MATERIAL;
  (** calls to the collaborators so far, oldest first *)
  calls : list event;
  (** ghost: indices of [m_textureIDs] read or written so far, oldest first *)
  touched : list Z
}.

Inductive crash := NullDereference | OutOfBounds.

Inductive result (A : Type) :=
| Ok (a : A) (s : SceneManager)
| Crash (c : crash).
#[global] Arguments Ok {A} a s.
#[global] Arguments Crash {A} c.

Definition M (A : Type) : Type := SceneManager -> result A.

Definition ret {A} (a : A) : M A := fun s => Ok a s.

Definition bind {A B} (m : M A) (k : A -> M B) : M B :=
  fun s => match m s with
           | Ok a s' => k a s'
           | Crash c => Crash c
           end.

End Data.

Declare Scope scene_scope.
Delimit Scope scene_scope with scene.
Notation "x <- m ;; k" := (bind m (fun x => k))
  (at level 100, m at next level, right associativity) : scene_scope.
Notation "m ;; k" := (bind m (fun _ => k))
  (at level 100, right associativity) : scene_scope.
Open Scope scene_scope.

Section Primitives.
Context `{Glm}.

Definition get {A} (f : SceneManager -> A) : M A := fun s => Ok (f s) s.

Definition emit (e : event) : M unit := fun s =>
  Ok tt (mkScene (m_pShaderManager s) (m_loadedTextures s) (m_textureIDs s)
                 (m_objectMaterials s) (calls s ++ [e]) (touched s)).

Definition set_loadedTextures (n : Z) : M unit := fun s =>
  Ok tt (mkScene (m_pShaderManager s) n (m_textureIDs s)
                 (m_objectMaterials s) (calls s) (touched s)).

Definition set_objectMaterials (l : list OBJECT_MATERIAL) : M unit := fun s =>
  Ok tt (mkScene (m_pShaderManager s) (m_loadedTextures s) (m_textureIDs s)
                 l (calls s) (touched s)).

(** [m_textureIDs[i]] as an rvalue; outside the array the behaviour is
    undefined, which the model reports as a crash. *)
Definition texture_at (i : Z) : M TEXTURE_INFO := fun s =>
  if (0 <=? i) && (i <? MAX_TEXTURES) then
    match m_textureIDs s !! Z.to_nat i with
    | Some t => Ok t (mkScene (m_pShaderManager s) (m_loadedTextures s) (m_textureIDs s)
                              (m_objectMaterials s) (calls s) (touched s ++ [i]))
    | None => Crash OutOfBounds
    end
  else Crash OutOfBounds.

(** [m_textureIDs[i].ID = id; m_textureIDs[i].tag = tag;] *)
Definition store_texture (i : Z) (t : TEXTURE_INFO) : M unit := fun s =>
  if (0 <=? i) && (i <? MAX_TEXTURES) && (Z.to_nat i <? length (m_textureIDs s))%nat then
    Ok tt (mkScene (m_pShaderManager s) (m_loadedTextures s)
                   (<[Z.to_nat i := t]> (m_textureIDs s))
                   (m_objectMaterials s) (calls s) (touched s ++ [i]))
  else Crash OutOfBounds.

(** A call [m_pShaderManager->set...Value(name, v)]. *)
Definition shader_call (name : string) (v : uniform) : M unit := fun s =>
  match m_pShaderManager s with
  | Some _ => emit (shader_set name v) s
  | None => Crash NullDereference
  end.

(** [for (int i = 0; i < n; i++) body(i)] *)
Fixpoint for_loop (steps : nat) (i : Z) (body : Z -> M unit) : M unit :=
  match steps with
  | O => ret tt
  | S steps' => body i ;; for_loop steps' (i + 1) body
  end.

Definition for_upto (n : Z) (body : Z -> M unit) : M unit :=
  for_loop (Z.to_nat n) 0 body.

(** [m_pShaderManager = p;] *)
Definition set_pShaderManager (p : option positive) : M unit := fun s =>
  Ok tt (mkScene p (m_loadedTextures s) (m_textureIDs s)
                 (m_objectMaterials s) (calls s) (touched s)).
End Primitives.

(** ** The methods of SceneManager.cpp *)

Section Methods.
Context `{Glm} `{!World}.

Definition g_ModelName := "model".
Definition g_ColorValueName := "objectColor".
Definition g_TextureValueName := "objectTexture".
Definition g_UseTextureName := "bUseTexture".
Definition g_UseLightingName := "bUseLighting".

(** [SceneManager::SceneManager(pShaderManager)].  The array member is
    default-initialised: every tag is the empty string and every [ID] holds
    whatever was in memory, given here by [junk]. *)
Definition SceneManager_new (pShaderManager : option positive) (junk : Z -> Z) : SceneManager :=
  mkScene pShaderManager 0
          (map (fun i => mkTexture "" (junk i)) (seqZ 0 MAX_TEXTURES))
          [] [] [].

Definition CreateGLTexture (filename tag : string) : M bool :=
  emit (stbi_set_flip_vertically_on_load true) ;;
  emit (stbi_load_call filename) ;;
  match stbi_load filename with
  | Some image =>
      emit (cout (LoadedImage filename (width image) (height image) (colorChannels image))) ;;
      history <- get calls ;;
      let textureID := glGenTextures history in
      emit (glGenTextures_call textureID) ;;
      emit (glBindTexture textureID) ;;
      emit (glTexParameteri WRAP_S_REPEAT) ;;
      emit (glTexParameteri WRAP_T_REPEAT) ;;
      emit (glTexParameteri MIN_FILTER_LINEAR) ;;
      emit (glTexParameteri MAG_FILTER_LINEAR) ;;
      let registration : M bool :=
        emit glGenerateMipmap ;;
        emit stbi_image_free ;;
        emit (glBindTexture 0) ;;
        n <- get m_loadedTextures ;;
        if n <? MAX_TEXTURES then
          store_texture n (mkTexture tag textureID) ;;
          set_loadedTextures (n + 1) ;;
          ret true
        else
          emit (cout (MaxTexturesLoaded filename)) ;;
          emit (glDeleteTextures textureID) ;;
          ret false
      in
      if colorChannels image =? 3 then
        emit (glTexImage2D RGB8 (width image) (height image)) ;; registration
      else if colorChannels image =? 4 then
        emit (glTexImage2D RGBA8 (width image) (height image)) ;; registration
      else
        emit (cout (UnsupportedChannels (colorChannels image))) ;;
        emit stbi_image_free ;;
        ret false
  | None =>
      emit (cout (CouldNotLoad filename)) ;;
      ret false
  end.

Definition BindGLTextures : M unit :=
  n <- get m_loadedTextures ;;
  for_upto n (fun i =>
    emit (glActiveTexture (GL_TEXTURE0 + i)) ;;
    t <- texture_at i ;;
    emit (glBindTexture (tex_ID t))).

Definition DestroyGLTextures : M unit :=
  n <- get m_loadedTextures ;;
  for_upto n (fun i =>
    t <- texture_at i ;;
    emit (glDeleteTextures (tex_ID t))) ;;
  set_loadedTextures 0.

(** The scan [while ((index < m_loadedTextures) && (bFound == false))]:
    [remaining] is [m_loadedTextures - index], the number of entries not
    yet compared; the loop ends when it reaches zero or on the first entry
    whose tag compares equal. *)
Fixpoint FindTextureID_loop (remaining : nat) (index : Z) (tag : string) : M Z :=
  match remaining with
  | O => ret (-1)
  | S remaining' =>
      t <- texture_at index ;;
      if String.eqb (tex_tag t) tag then
        t' <- texture_at index ;;
        ret (int_of_uint32 (tex_ID t'))
      else FindTextureID_loop remaining' (index + 1) tag
  end.

Definition FindTextureID (tag : string) : M Z :=
  n <- get m_loadedTextures ;;
  FindTextureID_loop (Z.to_nat n) 0 tag.

Fixpoint FindTextureSlot_loop (remaining : nat) (index : Z) (tag : string) : M Z :=
  match remaining with
  | O => ret (-1)
  | S remaining' =>
      t <- texture_at index ;;
      if String.eqb (tex_tag t) tag then ret index
      else FindTextureSlot_loop remaining' (index + 1) tag
  end.

Definition FindTextureSlot (tag : string) : M Z :=
  n <- get m_loadedTextures ;;
  FindTextureSlot_loop (Z.to_nat n) 0 tag.

(** The scan of [FindMaterial] over the vector, from [index] on; [rest] is
    the part of the vector not yet compared.  On a match the three value
    fields of the output parameter are assigned, not its tag. *)
Fixpoint FindMaterial_loop (rest : list OBJECT_MATERIAL) (tag : string)
         (material : OBJECT_MATERIAL) : OBJECT_MATERIAL :=
  match rest with
  | [] => material
  | m :: rest' =>
      if String.eqb (mat_tag m) tag then
        mkMaterial (diffuseColor m) (specularColor m) (shininess m) (mat_tag material)
      else FindMaterial_loop rest' tag material
  end.

(** [bool FindMaterial(tag, OBJECT_MATERIAL& material)]: the result pairs
    the returned flag with the final content of the output parameter. *)
Definition FindMaterial (tag : string) (material : OBJECT_MATERIAL)
  : M (bool * OBJECT_MATERIAL) :=
  materials <- get m_objectMaterials ;;
  if (length materials =? 0)%nat then ret (false, material)
  else ret (true, FindMaterial_loop materials tag material).

Definition SetTransformations (scaleXYZ : vec3 float)
           (XrotationDegrees YrotationDegrees ZrotationDegrees : float)
           (positionXYZ offset : vec3 float) : M unit :=
  let scale := glm_scale scaleXYZ in
  let rotationX := glm_rotate (glm_radians XrotationDegrees)
                              (Vec3 (flit 1.0) (flit 0.0) (flit 0.0)) in
  let rotationY := glm_rotate (glm_radians YrotationDegrees)
                              (Vec3 (flit 0.0) (flit 1.0) (flit 0.0)) in
  let rotationZ := glm_rotate (glm_radians ZrotationDegrees)
                              (Vec3 (flit 0.0) (flit 0.0) (flit 1.0)) in
  let translation := glm_translate (vec3_add positionXYZ offset) in
  let modelView :=
    mat4_mul (mat4_mul (mat4_mul (mat4_mul translation rotationZ) rotationY) rotationX) scale in
  p <- get m_pShaderManager ;;
  if p is Some _ then shader_call g_ModelName (UMat4 modelView) else ret tt.

Definition SetShaderColor (redColorValue greenColorValue blueColorValue alphaValue : float)
  : M unit :=
  let currentColor := Vec4 redColorValue greenColorValue blueColorValue alphaValue in
  p <- get m_pShaderManager ;;
  if p is Some _ then
    shader_call g_UseTextureName (UInt 0) ;;
    shader_call g_ColorValueName (UVec4 currentColor)
  else ret tt.

Definition SetShaderTexture (textureTag : string) : M unit :=
  p <- get m_pShaderManager ;;
  if p is Some _ then
    shader_call g_UseTextureName (UInt 1) ;;
    textureID <- FindTextureSlot textureTag ;;
    if negb (textureID =? -1) then
      shader_call g_TextureValueName (USampler2D textureID)
    else
      emit (cout (TextureNotFound textureTag)) ;;
      shader_call g_UseTextureName (UInt 0)
  else ret tt.

Definition SetTextureUVScale (u v : float) : M unit :=
  p <- get m_pShaderManager ;;
  if p is Some _ then shader_call "UVscale" (UVec2 (Vec2 u v)) else ret tt.

(** The local [OBJECT_MATERIAL material;] has no initialiser: its tag is
    the empty string and its value fields are indeterminate. *)
Definition SetShaderMaterial (materialTag : string) : M unit :=
  materials <- get m_objectMaterials ;;
  if (0 <? length materials)%nat then
    history <- get calls ;;
    let material := mkMaterial (indeterminate history).1.1 (indeterminate history).1.2
                               (indeterminate history).2 "" in
    r <- FindMaterial materialTag material ;;
    if r.1 then
      shader_call "material.diffuseColor" (UVec3 (diffuseColor r.2)) ;;
      shader_call "material.specularColor" (UVec3 (specularColor r.2)) ;;
      shader_call "material.shininess" (UFloat (shininess r.2))
    else
      emit (cout (MaterialNotFound materialTag))
  else ret tt.

(** [SceneManager::~SceneManager()].  The mesh provider is not part of the
    state, so its [delete] leaves no mark. *)
Definition SceneManager_delete : M unit :=
  set_pShaderManager None ;;
  DestroyGLTextures.
End Methods.

(** ** The scene: materials, textures, lights and the frame *)

Section Scene.
Context `{Glm} `{!World}.

(** [glm::vec3(x, y, z)] on literals. *)
Definition glm_vec3 (x y z : Q) : vec3 float := Vec3 (flit x) (flit y) (flit z).

(** [m_objectMaterials.push_back(m)] *)
Definition push_back (m : OBJECT_MATERIAL) : M unit :=
  materials <- get m_objectMaterials ;;
  set_objectMaterials (materials ++ [m]).

Definition DefineObjectMaterials : M unit :=
  set_objectMaterials [] ;;
  push_back (mkMaterial (glm_vec3 0.8 0.4 0.8) (glm_vec3 0.2 0.2 0.2) (flit 1.0) "plastic") ;;
  push_back (mkMaterial (glm_vec3 0.6 0.5 0.2) (glm_vec3 0.1 0.2 0.2) (flit 1.0) "wood") ;;
  push_back (mkMaterial (glm_vec3 0.3 0.3 0.2) (glm_vec3 0.7 0.7 0.8) (flit 8.0) "metal") ;;
  push_back (mkMaterial (glm_vec3 0.3 0.3 0.2) (glm_vec3 0.9 0.9 0.8) (flit 10.0) "glass") ;;
  push_back (mkMaterial (glm_vec3 0.5 0.5 0.5) (glm_vec3 0.7 0.7 0.7) (flit 6.0) "tile") ;;
  push_back (mkMaterial (glm_vec3 0.5 0.5 0.5) (glm_vec3 0.73 0.3 0.3) (flit 6.0) "stone") ;;
  push_back (mkMaterial (glm_vec3 1.0 0.98 0.88) (glm_vec3 0.1 0.1 0.1) (flit 0.5) "lampshade") ;;
  push_back (mkMaterial (glm_vec3 0.25 0.15 0.05) (glm_vec3 0.2 0.2 0.1) (flit 3.0) "lampbase") ;;
  push_back (mkMaterial (glm_vec3 0.4 0.05 0.05) (glm_vec3 0.05 0.05 0.05) (flit 0.8) "bookcover") ;;
  push_back (mkMaterial (glm_vec3 0.7 0.7 0.9) (glm_vec3 0.3 0.3 0.4) (flit 3.0) "jar") ;;
  push_back (mkMaterial (glm_vec3 0.4 0.3 0.2) (glm_vec3 0.8 0.8 0.8) (flit 30.0) "tableSurface") ;;
  push_back (mkMaterial (glm_vec3 0.9 0.9 0.9) (glm_vec3 0.1 0.1 0.1) (flit 1.0) "windowFrame").

Definition LoadSceneTextures : M unit :=
  CreateGLTexture "textures/wooden.jpg" "wooden" ;;
  CreateGLTexture "textures/vase.jpg" "vase" ;;
  CreateGLTexture "textures/table.jpg" "table" ;;
  CreateGLTexture "textures/stand.jpg" "stand" ;;
  CreateGLTexture "textures/neck.jpg" "neck" ;;
  CreateGLTexture "textures/book_cover.jpg" "bookcover_tex" ;;
  CreateGLTexture "textures/window_frame_tex.jpg" "window_frame_tex" ;;
  BindGLTextures.

(** The three-float overload [setVec3Value(name, x, y, z)]. *)
Definition setVec3Value (name : string) (x y z : Q) : M unit :=
  shader_call name (UVec3 (glm_vec3 x y z)).
Definition setFloatValue (name : string) (f : float) : M unit :=
  shader_call name (UFloat f).
Definition setBoolValue (name : string) (b : bool) : M unit :=
  shader_call name (UBool b).

Definition SetupSceneLights : M unit :=
  setBoolValue g_UseLightingName true ;;
  setVec3Value "directionalLight.direction" 0.8 (-0.6) (-0.4) ;;
  setVec3Value "directionalLight.ambient" 0.1 0.1 0.1 ;;
  setVec3Value "directionalLight.diffuse" 0.9 0.9 0.8 ;;
  setVec3Value "directionalLight.specular" 1.0 1.0 1.0 ;;
  setBoolValue "directionalLight.bActive" true ;;
  setVec3Value "spotLight.direction" 0.0 (-1.0) (-0.2) ;;
  setVec3Value "spotLight.ambient" 0.5 0.5 0.5 ;;
  setVec3Value "spotLight.diffuse" 0.9 0.9 0.9 ;;
  setVec3Value "spotLight.specular" 0.6 0.6 0.6 ;;
  setFloatValue "spotLight.constant" (flit 1.0) ;;
  setFloatValue "spotLight.linear" (flit 0.07) ;;
  setFloatValue "spotLight.quadratic" (flit 0.017) ;;
  setFloatValue "spotLight.cutOff" (glm_cos (glm_radians (flit 12.0))) ;;
  setFloatValue "spotLight.outerCutOff" (glm_cos (glm_radians (flit 15.0))) ;;
  setBoolValue "spotLight.bActive" true ;;
  setVec3Value "pointLights[0].position" (-4.0) 1.5 2.5 ;;
  setVec3Value "pointLights[0].ambient" 0.05 0.05 0.05 ;;
  setVec3Value "pointLights[0].diffuse" 0.6 0.6 0.6 ;;
  setVec3Value "pointLights[0].specular" 0.8 0.8 0.8 ;;
  setFloatValue "pointLights[0].constant" (flit 1.0) ;;
  setFloatValue "pointLights[0].linear" (flit 0.09) ;;
  setFloatValue "pointLights[0].quadratic" (flit 0.032) ;;
  setBoolValue "pointLights[0].bActive" true ;;
  setVec3Value "pointLights[1].position" 4.0 1.0 (-2.0) ;;
  setVec3Value "pointLights[1].ambient" 0.02 0.01 0.01 ;;
  setVec3Value "pointLights[1].diffuse" 0.5 0.2 0.2 ;;
  setVec3Value "pointLights[1].specular" 0.6 0.3 0.3 ;;
  setFloatValue "pointLights[1].constant" (flit 1.0) ;;
  setFloatValue "pointLights[1].linear" (flit 0.1) ;;
  setFloatValue "pointLights[1].quadratic" (flit 0.05) ;;
  setBoolValue "pointLights[1].bActive" true.

Definition PrepareScene : M unit :=
  LoadSceneTextures ;;
  DefineObjectMaterials ;;
  SetupSceneLights ;;
  emit (LoadMesh Plane) ;;
  emit (LoadMesh Box) ;;
  emit (LoadMesh Cone) ;;
  emit (LoadMesh Sphere) ;;
  emit (LoadMesh Cylinder).

Definition DrawPlaneMesh : M unit := emit (DrawMesh Plane).
Definition DrawBoxMesh : M unit := emit (DrawMesh Box).
Definition DrawConeMesh : M unit := emit (DrawMesh Cone).
Definition DrawSphereMesh : M unit := emit (DrawMesh Sphere).
Definition DrawCylinderMesh : M unit := emit (DrawMesh Cylinder).

(** The default argument [offset = glm::vec3(0.0f, 0.0f, 0.0f)]. *)
Definition default_offset : vec3 float := glm_vec3 0.0 0.0 0.0.

(** The two lamp blocks of [RenderScene] have the same text and differ in
    [basePos] only. *)
Definition RenderLamp (basePos : vec3 float) : M unit :=
  (* base bottom (box) *)
  let scaleXYZ := glm_vec3 1.8 0.3 1.8 in
  SetTransformations scaleXYZ (flit 0.0) (flit 45.0) (flit 0.0) basePos default_offset ;;
  SetShaderTexture "stand" ;;
  SetShaderMaterial "lampbase" ;;
  DrawBoxMesh ;;
  (* base mid (cylinder) *)
  let scaleXYZ := glm_vec3 1.3 0.4 1.3 in
  let positionXYZ := vec3_add basePos (glm_vec3 0.0 0.3 0.0) in
  SetTransformations scaleXYZ (flit 0.0) (flit 0.0) (flit 0.0) positionXYZ default_offset ;;
  SetShaderMaterial "lampbase" ;;
  DrawCylinderMesh ;;
  (* base top (inverted cone) *)
  let scaleXYZ := glm_vec3 1.5 0.5 1.5 in
  let positionXYZ := vec3_add basePos (glm_vec3 0.0 0.7 0.0) in
  SetTransformations scaleXYZ (flit 0.0) (flit 0.0) (flit 180.0) positionXYZ default_offset ;;
  SetShaderMaterial "lampbase" ;;
  DrawConeMesh ;;
  (* lower body *)
  let lowerBodyPos := vec3_add basePos (glm_vec3 0.0 1.3 0.0) in
  let scaleXYZ := glm_vec3 1.1 1.0 1.1 in
  SetTransformations scaleXYZ (flit 0.0) (flit 0.0) (flit 0.0) lowerBodyPos default_offset ;;
  SetShaderTexture "neck" ;;
  SetShaderMaterial "lampbase" ;;
  DrawCylinderMesh ;;
  let curvePos1 := vec3_add basePos (glm_vec3 0.0 2.3 0.0) in
  let scaleXYZ := glm_vec3 1.0 0.5 1.0 in
  SetTransformations scaleXYZ (flit 0.0) (flit 0.0) (flit 0.0) curvePos1 default_offset ;;
  SetShaderMaterial "lampbase" ;;
  DrawSphereMesh ;;
  let scaleXYZ := glm_vec3 0.9 1.2 0.9 in
  let lowerBodyPos := vec3_add basePos (glm_vec3 0.0 3.0 0.0) in
  SetTransformations scaleXYZ (flit 0.0) (flit 0.0) (flit 0.0) lowerBodyPos default_offset ;;
  SetShaderMaterial "lampbase" ;;
  DrawCylinderMesh ;;
  let curvePos2 := vec3_add basePos (glm_vec3 0.0 4.2 0.0) in
  let scaleXYZ := glm_vec3 0.8 0.4 0.8 in
  SetTransformations scaleXYZ (flit 0.0) (flit 0.0) (flit 0.0) curvePos2 default_offset ;;
  SetShaderMaterial "lampbase" ;;
  DrawSphereMesh ;;
  (* upper body (thinner cylinder) *)
  let upperBodyPos := vec3_add basePos (glm_vec3 0.0 5.0 0.0) in
  let scaleXYZ := glm_vec3 0.4 3.0 0.4 in
  SetTransformations scaleXYZ (flit 0.0) (flit 0.0) (flit 0.0) upperBodyPos default_offset ;;
  SetShaderTexture "wooden" ;;
  SetShaderMaterial "wood" ;;
  DrawCylinderMesh ;;
  (* shade (cone) *)
  let shadePos := vec3_add basePos (glm_vec3 0.0 8.0 0.0) in
  let scaleXYZ := glm_vec3 2.5 2.5 2.5 in
  SetTransformations scaleXYZ (flit 0.0) (flit 0.0) (flit 0.0) shadePos default_offset ;;
  SetShaderMaterial "lampshade" ;;
  DrawConeMesh ;;
  (* finial (small sphere) *)
  let finialPos := vec3_add basePos (glm_vec3 0.0 10.5 0.0) in
  let scaleXYZ := glm_vec3 0.3 0.3 0.3 in
  SetTransformations scaleXYZ (flit 0.0) (flit 0.0) (flit 0.0) finialPos default_offset ;;
  SetShaderMaterial "metal" ;;
  DrawSphereMesh.

Definition RenderScene : M unit :=
  (* floor plane (table surface) *)
  let scaleXYZ := glm_vec3 10.0 0.1 5.0 in
  let positionXYZ := glm_vec3 0.0 0.0 0.0 in
  SetTransformations scaleXYZ (flit 0.0) (flit 0.0) (flit 0.0) positionXYZ default_offset ;;
  SetShaderTexture "table" ;;
  SetShaderMaterial "tableSurface" ;;
  SetTextureUVScale (flit 2.0) (flit 1.0) ;;
  DrawPlaneMesh ;;
  (* lamp 1 *)
  RenderLamp (glm_vec3 (-3.0) 0.05 0.0) ;;
  (* lamp 2 *)
  RenderLamp (glm_vec3 3.0 0.05 0.0) ;;
  (* book 1 *)
  let book1Pos := glm_vec3 0.0 0.05 0.0 in
  let scaleXYZ := glm_vec3 2.8 0.15 2.0 in
  SetTransformations scaleXYZ (flit 0.0) (flit 0.0) (flit 0.0) book1Pos default_offset ;;
  SetShaderTexture "bookcover_tex" ;;
  SetShaderMaterial "bookcover" ;;
  SetTextureUVScale (flit 1.0) (flit 1.0) ;;
  DrawBoxMesh ;;
  (* book 2 *)
  let book2Pos := glm_vec3 0.0 0.21 0.0 in
  let scaleXYZ := glm_vec3 2.6 0.12 1.9 in
  SetTransformations scaleXYZ (flit 0.0) (flit 5.0) (flit 0.0) book2Pos default_offset ;;
  SetShaderTexture "bookcover_tex" ;;
  SetShaderMaterial "bookcover" ;;
  SetTextureUVScale (flit 1.0) (flit 1.0) ;;
  DrawBoxMesh ;;
  (* jar base *)
  let jarPos := glm_vec3 0.0 0.36 0.0 in
  let scaleXYZ := glm_vec3 0.8 0.6 0.8 in
  SetTransformations scaleXYZ (flit 0.0) (flit 0.0) (flit 0.0) jarPos default_offset ;;
  SetShaderTexture "vase" ;;
  SetShaderMaterial "jar" ;;
  SetTextureUVScale (flit 1.0) (flit 1.0) ;;
  DrawCylinderMesh ;;
  (* jar body *)
  let jarBodyPos := vec3_add jarPos (glm_vec3 0.0 0.6 0.0) in
  let scaleXYZ := glm_vec3 0.9 0.9 0.9 in
  SetTransformations scaleXYZ (flit 0.0) (flit 0.0) (flit 0.0) jarBodyPos default_offset ;;
  SetShaderTexture "vase" ;;
  SetShaderMaterial "jar" ;;
  SetTextureUVScale (flit 1.0) (flit 1.0) ;;
  DrawSphereMesh ;;
  (* jar neck *)
  let jarNeckPos := vec3_add jarPos (glm_vec3 0.0 1.5 0.0) in
  let scaleXYZ := glm_vec3 0.5 0.4 0.5 in
  SetTransformations scaleXYZ (flit 0.0) (flit 0.0) (flit 0.0) jarNeckPos default_offset ;;
  SetShaderMaterial "jar" ;;
  DrawCylinderMesh ;;
  (* jar lid *)
  let lidPos := vec3_add jarPos (glm_vec3 0.0 1.9 0.0) in
  let scaleXYZ := glm_vec3 0.7 0.3 0.7 in
  SetTransformations scaleXYZ (flit 0.0) (flit 0.0) (flit 0.0) lidPos default_offset ;;
  SetShaderMaterial "jar" ;;
  DrawSphereMesh ;;
  (* jar handle *)
  let handlePos := vec3_add jarPos (glm_vec3 0.0 2.1 0.0) in
  let scaleXYZ := glm_vec3 0.2 0.2 0.2 in
  SetTransformations scaleXYZ (flit 0.0) (flit 0.0) (flit 0.0) handlePos default_offset ;;
  SetShaderMaterial "jar" ;;
  DrawSphereMesh ;;
  (* outside view (large plane) *)
  let outsidePos := glm_vec3 0.0 5.0 (-5.0) in
  let scaleXYZ := glm_vec3 15.0 10.0 0.1 in
  SetTransformations scaleXYZ (flit 0.0) (flit 0.0) (flit 0.0) outsidePos default_offset ;;
  SetShaderMaterial "tile" ;;
  SetTextureUVScale (flit 1.0) (flit 1.0) ;;
  DrawPlaneMesh ;;
  (* window frame *)
  let windowFramePos := glm_vec3 0.0 5.0 (-4.9) in
  SetShaderMaterial "windowFrame" ;;
  (* top horizontal frame *)
  let scaleXYZ := glm_vec3 7.5 0.3 0.1 in
  let positionXYZ := vec3_add windowFramePos (glm_vec3 0.0 4.15 0.0) in
  SetTransformations scaleXYZ (flit 0.0) (flit 0.0) (flit 0.0) positionXYZ default_offset ;;
  SetShaderTexture "window_frame_tex" ;;
  SetTextureUVScale (flit 1.0) (flit 1.0) ;;
  DrawBoxMesh ;;
  (* bottom horizontal frame *)
  let scaleXYZ := glm_vec3 7.5 0.3 0.1 in
  let positionXYZ := vec3_add windowFramePos (glm_vec3 0.0 (-4.15) 0.0) in
  SetTransformations scaleXYZ (flit 0.0) (flit 0.0) (flit 0.0) positionXYZ default_offset ;;
  SetShaderTexture "window_frame_tex" ;;
  SetTextureUVScale (flit 1.0) (flit 1.0) ;;
  DrawBoxMesh ;;
  (* left vertical frame *)
  let scaleXYZ := glm_vec3 0.3 8.5 0.1 in
  let positionXYZ := vec3_add windowFramePos (glm_vec3 (-3.6) 0.0 0.0) in
  SetTransformations scaleXYZ (flit 0.0) (flit 0.0) (flit 0.0) positionXYZ default_offset ;;
  SetShaderTexture "window_frame_tex" ;;
  SetTextureUVScale (flit 1.0) (flit 1.0) ;;
  DrawBoxMesh ;;
  (* right vertical frame *)
  let scaleXYZ := glm_vec3 0.3 8.5 0.1 in
  let positionXYZ := vec3_add windowFramePos (glm_vec3 3.6 0.0 0.0) in
  SetTransformations scaleXYZ (flit 0.0) (flit 0.0) (flit 0.0) positionXYZ default_offset ;;
  SetTextureUVScale (flit 1.0) (flit 1.0) ;;
  DrawBoxMesh ;;
  (* centre vertical divider *)
  let scaleXYZ := glm_vec3 0.15 8.3 0.1 in
  let positionXYZ := vec3_add windowFramePos (glm_vec3 0.0 0.0 0.0) in
  SetTransformations scaleXYZ (flit 0.0) (flit 0.0) (flit 0.0) positionXYZ default_offset ;;
  SetTextureUVScale (flit 1.0) (flit 1.0) ;;
  DrawBoxMesh ;;
  (* window panes *)
  let windowPanePos := glm_vec3 0.0 5.0 (-4.8) in
  SetTextureUVScale (flit 1.0) (flit 1.0) ;;
  (* left pane *)
  let scaleXYZ := glm_vec3 100.4 100.2 0.05 in
  let positionXYZ := vec3_add windowPanePos (glm_vec3 (-1.8) 0.0 0.0) in
  SetTransformations scaleXYZ (flit 0.0) (flit 0.0) (flit 0.0) positionXYZ default_offset ;;
  SetTextureUVScale (flit 1.0) (flit 1.0) ;;
  DrawPlaneMesh ;;
  (* right pane *)
  let scaleXYZ := glm_vec3 100.4 100.2 0.05 in
  let positionXYZ := vec3_add windowPanePos (glm_vec3 1.8 0.0 0.0) in
  SetTransformations scaleXYZ (flit 0.0) (flit 0.0) (flit 0.0) positionXYZ default_offset ;;
  SetTextureUVScale (flit 1.0) (flit 1.0) ;;
  DrawPlaneMesh.
End Scene.

(** * Vocabulary of the properties

    Views of a state and of a trace, the invariants, and the expected
    results in the words of the specification. *)

Section Vocabulary.
Context `{Glm} `{!World}.

(* Views of a state and of a trace *)

(** The primitives drawn by a sequence of calls, in order. *)
Fixpoint draws (tr : list event) : list primitive :=
  match tr with
  | [] => []
  | DrawMesh p :: tr' => p :: draws tr'
  | _ :: tr' => draws tr'
  end.

(** The value last written to the uniform [name], if any. *)
Fixpoint published (tr : list event) (name : string) : option uniform :=
  match tr with
  | [] => None
  | e :: tr' =>
      match published tr' name with
      | Some v => Some v
      | None =>
          match e with
          | shader_set n v => if String.eqb n name then Some v else None
          | _ => None
          end
      end
  end.

(** The registered entries: the first [m_loadedTextures] slots of the array. *)
Definition registered (s : SceneManager) : list TEXTURE_INFO :=
  take (Z.to_nat (m_loadedTextures s)) (m_textureIDs s).

(** The state [s] after further calls [evs] and further array accesses
    [idx], all fields of the object unchanged. *)
Definition with_effects (s : SceneManager) (evs : list event) (idx : list Z) : SceneManager :=
  mkScene (m_pShaderManager s) (m_loadedTextures s) (m_textureIDs s)
          (m_objectMaterials s) (calls s ++ evs) (touched s ++ idx).

(** The value a computation returns, when it does not crash. *)
Definition value {A} (r : result A) : option A :=
  match r with Ok a _ => Some a | Crash _ => None end.

(** The invariant of the texture registry: the array has its declared
    size and the count of loaded textures lies within it. *)
Definition registry_inv (s : SceneManager) : Prop :=
  0 <= m_loadedTextures s <= MAX_TEXTURES /\
  length (m_textureIDs s) = Z.to_nat MAX_TEXTURES.

(* Material Catalog *)

(** The records the source hands to [push_back], as (tag, diffuse,
    specular, shininess). *)
Definition defined_materials : list (string * vec3 float * vec3 float * float) :=
  [ ("plastic", glm_vec3 0.8 0.4 0.8, glm_vec3 0.2 0.2 0.2, flit 1.0);
    ("wood", glm_vec3 0.6 0.5 0.2, glm_vec3 0.1 0.2 0.2, flit 1.0);
    ("metal", glm_vec3 0.3 0.3 0.2, glm_vec3 0.7 0.7 0.8, flit 8.0);
    ("glass", glm_vec3 0.3 0.3 0.2, glm_vec3 0.9 0.9 0.8, flit 10.0);
    ("tile", glm_vec3 0.5 0.5 0.5, glm_vec3 0.7 0.7 0.7, flit 6.0);
    ("stone", glm_vec3 0.5 0.5 0.5, glm_vec3 0.73 0.3 0.3, flit 6.0);
    ("lampshade", glm_vec3 1.0 0.98 0.88, glm_vec3 0.1 0.1 0.1, flit 0.5);
    ("lampbase", glm_vec3 0.25 0.15 0.05, glm_vec3 0.2 0.2 0.1, flit 3.0);
    ("bookcover", glm_vec3 0.4 0.05 0.05, glm_vec3 0.05 0.05 0.05, flit 0.8);
    ("jar", glm_vec3 0.7 0.7 0.9, glm_vec3 0.3 0.3 0.4, flit 3.0);
    ("tableSurface", glm_vec3 0.4 0.3 0.2, glm_vec3 0.8 0.8 0.8, flit 30.0);
    ("windowFrame", glm_vec3 0.9 0.9 0.9, glm_vec3 0.1 0.1 0.1, flit 1.0) ].

Definition catalog_of (rows : list (string * vec3 float * vec3 float * float))
  : list OBJECT_MATERIAL :=
  map (fun r => mkMaterial r.1.1.2 r.1.2 r.2 r.1.1.1) rows.

(* Transform Builder and Shading State Publisher *)

(** The rotations and the product named by the specification. *)
Definition RotateX (degrees : float) : mat4 :=
  glm_rotate (glm_radians degrees) (glm_vec3 1.0 0.0 0.0).

Definition RotateY (degrees : float) : mat4 :=
  glm_rotate (glm_radians degrees) (glm_vec3 0.0 1.0 0.0).

Definition RotateZ (degrees : float) : mat4 :=
  glm_rotate (glm_radians degrees) (glm_vec3 0.0 0.0 1.0).

Definition compose (ms : list mat4) (first : mat4) : mat4 :=
  fold_left mat4_mul ms first.

(** [Translate(position + offset) * RotateZ * RotateY * RotateX * Scale],
    the product taken from left to right as C++ does. *)
Definition model_matrix (scaleXYZ : vec3 float) (rx ry rz : float)
           (positionXYZ offset : vec3 float) : mat4 :=
  compose [RotateZ rz; RotateY ry; RotateX rx; glm_scale scaleXYZ]
          (glm_translate (vec3_add positionXYZ offset)).

(* Texture Registry *)

(** [l] is the part of the array that starts at index [i]. *)
Definition slice_at (s : SceneManager) (i : Z) (l : list TEXTURE_INFO) : Prop :=
  forall j t, l !! j = Some t -> m_textureIDs s !! (Z.to_nat i + j)%nat = Some t.

(** The calls made by a loop that visits the entries [l] from index [i]
    on and makes the calls [ev j t] at entry [t] of index [j]. *)
Fixpoint slot_events (ev : Z -> TEXTURE_INFO -> list event) (i : Z)
         (l : list TEXTURE_INFO) : list event :=
  match l with
  | [] => []
  | t :: l' => ev i t ++ slot_events ev (i + 1) l'
  end.

Definition bind_calls (i : Z) (t : TEXTURE_INFO) : list event :=
  [glActiveTexture (GL_TEXTURE0 + i); glBindTexture (tex_ID t)].

Definition delete_calls (i : Z) (t : TEXTURE_INFO) : list event :=
  [glDeleteTextures (tex_ID t)].

(** What the two scans compute, stated on the registered entries: the
    position of the first entry carrying [tag], or its [ID] converted to
    [int]; [-1] when no entry carries it. *)
Definition slot_of (tag : string) (l : list TEXTURE_INFO) : Z :=
  match list_find (fun t => tex_tag t = tag) l with
  | Some (k, _) => Z.of_nat k
  | None => -1
  end.

Definition handle_of (tag : string) (l : list TEXTURE_INFO) : Z :=
  match list_find (fun t => tex_tag t = tag) l with
  | Some (_, t) => int_of_uint32 (tex_ID t)
  | None => -1
  end.

(** The calls of [CreateGLTexture], by phase. *)
Definition decode_calls (filename : string) (image : stbi_image) : list event :=
  [stbi_set_flip_vertically_on_load true; stbi_load_call filename;
   cout (LoadedImage filename (width image) (height image) (colorChannels image))].

(** The name the driver gives to the texture generated by a load that
    starts in state [s]. *)
Definition new_texture (s : SceneManager) (filename : string) (image : stbi_image) : Z :=
  glGenTextures (calls s ++ decode_calls filename image).

Definition setup_calls (id : Z) : list event :=
  [glGenTextures_call id; glBindTexture id;
   glTexParameteri WRAP_S_REPEAT; glTexParameteri WRAP_T_REPEAT;
   glTexParameteri MIN_FILTER_LINEAR; glTexParameteri MAG_FILTER_LINEAR].

Definition upload_calls (image : stbi_image) : list event :=
  [glTexImage2D (if colorChannels image =? 3 then RGB8 else RGBA8)
                (width image) (height image);
   glGenerateMipmap; stbi_image_free; glBindTexture 0].

(** Loading the given (file, tag) pairs one after the other; the result
    lists what each [CreateGLTexture] returned. *)
Fixpoint load_all (regs : list (string * string)) : M (list bool) :=
  match regs with
  | [] => ret []
  | reg :: regs' =>
      ok <- CreateGLTexture reg.1 reg.2 ;;
      oks <- load_all regs' ;;
      ret (ok :: oks)
  end.

(** The texture names handed out by the driver, in order. *)
Fixpoint generated (tr : list event) : list Z :=
  match tr with
  | [] => []
  | glGenTextures_call id :: tr' => id :: generated tr'
  | _ :: tr' => generated tr'
  end.

(** The operations of the registry, and sequences of them. *)
Inductive registry_op :=
| OpCreate (filename tag : string)
| OpBind
| OpDestroy
| OpFindID (tag : string)
| OpFindSlot (tag : string).

Definition run_op (o : registry_op) : M unit :=
  match o with
  | OpCreate filename tag => CreateGLTexture filename tag ;; ret tt
  | OpBind => BindGLTextures
  | OpDestroy => DestroyGLTextures
  | OpFindID tag => FindTextureID tag ;; ret tt
  | OpFindSlot tag => FindTextureSlot tag ;; ret tt
  end.

Fixpoint run_ops (ops : list registry_op) : M unit :=
  match ops with
  | [] => ret tt
  | o :: ops' => run_op o ;; run_ops ops'
  end.

Definition in_array (i : Z) : Prop := 0 <= i < MAX_TEXTURES.

(** From [s] to [s'] the array was only read, and only at indices below
    the count of [s]. *)
Definition reads_below_count (s s' : SceneManager) : Prop :=
  m_textureIDs s' = m_textureIDs s /\
  exists idx,
    touched s' = touched s ++ idx /\
    Forall (fun i => 0 <= i < m_loadedTextures s) idx.

(* Scene Composer *)

(** There is a shader manager and the texture registry is consistent. *)
Definition shading_ready (s : SceneManager) : Prop :=
  (exists p, m_pShaderManager s = Some p) /\ registry_inv s.

(** From a ready state, [m] completes, changes no field of the object and
    draws exactly the primitives [ds], in order. *)
Definition issues (m : M unit) (ds : list primitive) : Prop :=
  forall s, shading_ready s ->
            exists evs idx, m s = Ok tt (with_effects s evs idx) /\ draws evs = ds.

(** The ten primitives of one lamp, in drawing order. *)
Definition lamp_draws : list primitive :=
  [Box; Cylinder; Cone; Cylinder; Sphere; Cylinder; Sphere; Cylinder; Cone; Sphere].

Definition floor_draws : list primitive := [Plane].

Definition book_draws : list primitive := [Box; Box].

Definition jar_draws : list primitive := [Cylinder; Sphere; Cylinder; Sphere; Sphere].

Definition window_draws : list primitive := [Plane; Box; Box; Box; Box; Box; Plane; Plane].

(** The draw commands of one frame. *)
Definition frame_draws : list primitive :=
  floor_draws ++ lamp_draws ++ lamp_draws ++ book_draws ++ jar_draws ++ window_draws.

(** From a ready state, [m] completes in a ready state. *)
Definition keeps_ready {A} (m : M A) : Prop :=
  forall s, shading_ready s -> exists a s', m s = Ok a s' /\ shading_ready s'.

(** The draw commands of a frame as the specification counts them: the
    floor plane, two lamps of nine primitives each, two book boxes, five
    jar parts and eight window parts. *)
Definition documented_frame (ds : list primitive) : Prop :=
  exists lamp1 lamp2 jar window,
    length lamp1 = 9%nat /\ length lamp2 = 9%nat /\
    length jar = 5%nat /\ length window = 8%nat /\
    ds = [Plane] ++ lamp1 ++ lamp2 ++ [Box; Box] ++ jar ++ window.

(* Resources of the texture registry *)

(** The texture names passed to [glDeleteTextures], in order. *)
Fixpoint deleted (tr : list event) : list Z :=
  match tr with
  | [] => []
  | glDeleteTextures id :: tr' => id :: deleted tr'
  | _ :: tr' => deleted tr'
  end.

(** The number of [stbi_image_free] calls. *)
Fixpoint frees (tr : list event) : nat :=
  match tr with
  | [] => O
  | stbi_image_free :: tr' => S (frees tr')
  | _ :: tr' => frees tr'
  end.

(** [e] is a call into OpenGL. *)
Definition is_gl_call (e : event) : bool :=
  match e with
  | glGenTextures_call _ | glBindTexture _ | glTexParameteri _ | glTexImage2D _ _ _
  | glGenerateMipmap | glDeleteTextures _ | glActiveTexture _ => true
  | _ => false
  end.

(** [e] is a line written to [std::cout]. *)
Definition is_cout (e : event) : bool :=
  match e with cout _ => true | _ => false end.

(** The image that [filename] decodes to is one the loader uploads. *)
Definition uploads (filename : string) : Prop :=
  exists image, stbi_load filename = Some image /\
                (colorChannels image = 3 \/ colorChannels image = 4).

(** Every image that decodes has three or four channels. *)
Definition decodes_uploadable : Prop :=
  forall filename image,
    stbi_load filename = Some image ->
    colorChannels image = 3 \/ colorChannels image = 4.

(** The textures generated so far are those deleted so far and those
    registered now. *)
Definition balanced (s : SceneManager) : Prop :=
  generated (calls s) ≡ₚ deleted (calls s) ++ map tex_ID (registered s).

(* Lookups in the catalog and published state *)

(** The first record of a catalog that carries [tag]. *)
Definition catalog_find (tag : string) (mats : list OBJECT_MATERIAL) : option OBJECT_MATERIAL :=
  List.find (fun m => String.eqb (mat_tag m) tag) mats.

(** The three uniform writes that publish the record [m]. *)
Definition material_calls (m : OBJECT_MATERIAL) : list event :=
  [shader_set "material.diffuseColor" (UVec3 (diffuseColor m));
   shader_set "material.specularColor" (UVec3 (specularColor m));
   shader_set "material.shininess" (UFloat (shininess m))].

(** The position of the first occurrence of [tag] in a list of tags. *)
Fixpoint tag_index (tag : string) (tags : list string) : option Z :=
  match tags with
  | [] => None
  | t :: tags' =>
      if String.eqb t tag then Some 0
      else match tag_index tag tags' with
           | Some k => Some (k + 1)
           | None => None
           end
  end.

(** The calls of [SetShaderTexture] when the registered tags are [tags]. *)
Definition texture_calls (tags : list string) (tag : string) : list event :=
  match tag_index tag tags with
  | Some k => [shader_set "bUseTexture" (UInt 1); shader_set "objectTexture" (USampler2D k)]
  | None => [shader_set "bUseTexture" (UInt 1); cout (TextureNotFound tag);
             shader_set "bUseTexture" (UInt 0)]
  end.

(** The object has a shader manager. *)
Definition has_shader (s : SceneManager) : Prop :=
  exists p, m_pShaderManager s = Some p.

(* Preparation and shading of the scene *)

(** From a state with a shader manager, [m] completes, makes exactly the
    calls [evs] and changes no field of the object. *)
Definition emits (m : M unit) (evs : list event) : Prop :=
  forall s, has_shader s -> m s = Ok tt (with_effects s evs []).

(** The image files of the scene and the tags they are registered under,
    in the order of [LoadSceneTextures]. *)
Definition scene_files : list string :=
  ["textures/wooden.jpg"; "textures/vase.jpg"; "textures/table.jpg"; "textures/stand.jpg";
   "textures/neck.jpg"; "textures/book_cover.jpg"; "textures/window_frame_tex.jpg"].

Definition scene_textures : list string :=
  ["wooden"; "vase"; "table"; "stand"; "neck"; "bookcover_tex"; "window_frame_tex"].

(** A state ready for a frame: there is a shader manager, the registry is
    consistent and holds the tags [tags] in this order, and the catalog is
    the one [DefineObjectMaterials] builds. *)
Definition scene_with (tags : list string) (s : SceneManager) : Prop :=
  has_shader s /\ registry_inv s /\
  map tex_tag (registered s) = tags /\
  m_objectMaterials s = catalog_of defined_materials.

(** From a state ready for a frame with the tags [tags], [m] completes,
    makes exactly the calls [evs] and changes no field of the object. *)
Definition renders (tags : list string) (m : M unit) (evs : list event) : Prop :=
  forall s, scene_with tags s -> exists idx, m s = Ok tt (with_effects s evs idx).

(** The uniforms that decide how a primitive is shaded. *)
Definition shading_names : list string :=
  ["bUseTexture"; "objectTexture"; "UVscale";
   "material.diffuseColor"; "material.specularColor"; "material.shininess"].

(** For each draw command of [rest], the primitive and the values of the
    shading uniforms published when it is issued; [past] are the calls made
    before [rest]. *)
Fixpoint shading_at_draws (past rest : list event)
  : list (primitive * list (option uniform)) :=
  match rest with
  | [] => []
  | e :: rest' =>
      match e with
      | DrawMesh p => [(p, map (published past) shading_names)]
      | _ => []
      end ++ shading_at_draws (past ++ [e]) rest'
  end.

(** The same, computed in one pass from the values [current] published
    before [rest]. *)
Fixpoint shading_run (current : list (option uniform)) (rest : list event)
  : list (primitive * list (option uniform)) :=
  match rest with
  | [] => []
  | DrawMesh p :: rest' => (p, current) :: shading_run current rest'
  | shader_set n v :: rest' =>
      shading_run (zip_with (fun name old => if String.eqb n name then Some v else old)
                            shading_names current) rest'
  | _ :: rest' => shading_run current rest'
  end.

(** A primitive drawn textured from slot [slot] with UV scale [(u, v)] and
    material [m]. *)
Definition textured (p : primitive) (slot : Z) (u v : Q) (m : OBJECT_MATERIAL)
  : primitive * list (option uniform) :=
  (p, [Some (UInt 1); Some (USampler2D slot); Some (UVec2 (Vec2 (flit u) (flit v)));
       Some (UVec3 (diffuseColor m)); Some (UVec3 (specularColor m));
       Some (UFloat (shininess m))]).

(** A primitive drawn with texturing off; [sampler] is whatever the sampler
    uniform held before the frame. *)
Definition untextured (sampler : option uniform) (p : primitive) (u v : Q)
           (m : OBJECT_MATERIAL) : primitive * list (option uniform) :=
  (p, [Some (UInt 0); sampler; Some (UVec2 (Vec2 (flit u) (flit v)));
       Some (UVec3 (diffuseColor m)); Some (UVec3 (specularColor m));
       Some (UFloat (shininess m))]).

(** The records of the catalog, by tag. *)
Definition material_named (tag : string) : OBJECT_MATERIAL :=
  match catalog_find tag (catalog_of defined_materials) with
  | Some m => m
  | None => mkMaterial (glm_vec3 0 0 0) (glm_vec3 0 0 0) (flit 0) ""
  end.

(** How one frame shades its 36 primitives: the slot of the texture, the UV
    scale and the material in force at each draw. *)
Definition lamp_shading (draw : primitive -> Z -> Q -> Q -> OBJECT_MATERIAL ->
                                primitive * list (option uniform))
  : list (primitive * list (option uniform)) :=
  [draw Box 3 2.0%Q 1.0%Q (material_named "lampbase");
   draw Cylinder 3 2.0%Q 1.0%Q (material_named "lampbase");
   draw Cone 3 2.0%Q 1.0%Q (material_named "lampbase");
   draw Cylinder 4 2.0%Q 1.0%Q (material_named "lampbase");
   draw Sphere 4 2.0%Q 1.0%Q (material_named "lampbase");
   draw Cylinder 4 2.0%Q 1.0%Q (material_named "lampbase");
   draw Sphere 4 2.0%Q 1.0%Q (material_named "lampbase");
   draw Cylinder 0 2.0%Q 1.0%Q (material_named "wood");
   draw Cone 0 2.0%Q 1.0%Q (material_named "lampshade");
   draw Sphere 0 2.0%Q 1.0%Q (material_named "metal")].

Definition frame_shading (draw : primitive -> Z -> Q -> Q -> OBJECT_MATERIAL ->
                                 primitive * list (option uniform))
  : list (primitive * list (option uniform)) :=
  [draw Plane 2 2.0%Q 1.0%Q (material_named "tableSurface")]
  ++ lamp_shading draw ++ lamp_shading draw
  ++ [draw Box 5 1.0%Q 1.0%Q (material_named "bookcover");
      draw Box 5 1.0%Q 1.0%Q (material_named "bookcover");
      draw Cylinder 1 1.0%Q 1.0%Q (material_named "jar");
      draw Sphere 1 1.0%Q 1.0%Q (material_named "jar");
      draw Cylinder 1 1.0%Q 1.0%Q (material_named "jar");
      draw Sphere 1 1.0%Q 1.0%Q (material_named "jar");
      draw Sphere 1 1.0%Q 1.0%Q (material_named "jar");
      draw Plane 1 1.0%Q 1.0%Q (material_named "tile");
      draw Box 6 1.0%Q 1.0%Q (material_named "windowFrame");
      draw Box 6 1.0%Q 1.0%Q (material_named "windowFrame");
      draw Box 6 1.0%Q 1.0%Q (material_named "windowFrame");
      draw Box 6 1.0%Q 1.0%Q (material_named "windowFrame");
      draw Box 6 1.0%Q 1.0%Q (material_named "windowFrame");
      draw Plane 6 1.0%Q 1.0%Q (material_named "windowFrame");
      draw Plane 6 1.0%Q 1.0%Q (material_named "windowFrame")].

(** Without a shader manager and with an empty catalog, [m] completes,
    draws the primitives [ds] and does nothing else. *)
Definition draws_without_shader (m : M unit) (ds : list primitive) : Prop :=
  forall n texs tr idx,
    m (mkScene None n texs [] tr idx)
    = Ok tt (mkScene None n texs [] (tr ++ map DrawMesh ds) idx).

(** [filename] decodes to an image that the loader uploads. *)
Definition uploadsb (filename : string) : bool :=
  match stbi_load filename with
  | Some image => (colorChannels image =? 3) || (colorChannels image =? 4)
  | None => false
  end.

(** The loads of [LoadSceneTextures], as (file, tag) pairs. *)
Definition scene_loads : list (string * string) := zip scene_files scene_textures.

(** The loads [regs] one after the other, then [k]. *)
Definition loads_then (regs : list (string * string)) (k : M unit) : M unit :=
  fold_right (fun reg rest => CreateGLTexture reg.1 reg.2 ;; rest) k regs.

(** The tags of the loads of [regs] whose file can be uploaded. *)
Definition uploaded_tags (regs : list (string * string)) : list string :=
  map snd (List.filter (fun reg => uploadsb reg.1) regs).

(* The life of a scene manager *)

(** [n] frames, one after the other. *)
Fixpoint render_frames (n : nat) : M unit :=
  match n with
  | O => ret tt
  | S n' => RenderScene ;; render_frames n'
  end.

(** [e] is a uniform write, a line on the console or a draw command. *)
Definition is_frame_call (e : event) : bool :=
  match e with
  | shader_set _ _ | cout _ | DrawMesh _ => true
  | _ => false
  end.

(** From a ready state, [m] completes, changes no field of the object and
    only writes uniforms, prints and draws. *)
Definition frame_calls (m : M unit) : Prop :=
  forall s, shading_ready s ->
            exists evs idx, m s = Ok tt (with_effects s evs idx) /\
                            Forall (fun e => is_frame_call e = true) evs.

End Vocabulary.

(** * A concrete platform

    An instance of the interfaces on which the methods can be run: glm
    values are kept as the expressions that build them, every image file
    decodes to the same 1024 x 1024 image with [channels] channels, the
    driver numbers textures 1, 2, 3, ... and an uninitialised material
    holds zeros. *)

Module Symbolic.

Inductive sfloat :=
| SLit (q : Q)
| SAdd (a b : sfloat)
| SRadians (a : sfloat)
| SCos (a : sfloat).

Inductive smat4 :=
| SScale (v : vec3 sfloat)
| SRotate (angle : sfloat) (axis : vec3 sfloat)
| STranslate (v : vec3 sfloat)
| SMul (a b : smat4).

#[export] Instance glm : Glm := {|
  float := sfloat;
  flit := SLit;
  fadd := SAdd;
  mat4 := smat4;
  mat4_mul := SMul;
  glm_radians := SRadians;
  glm_cos := SCos;
  glm_scale := SScale;
  glm_rotate := SRotate;
  glm_translate := STranslate
|}.

Definition is_gen (e : event) : bool :=
  match e with glGenTextures_call _ => true | _ => false end.

Definition world (channels : Z) : World := {|
  stbi_load := fun _ => Some (mkImage 1024 1024 channels);
  glGenTextures := fun history => 1 + Z.of_nat (length (filter is_gen history));
  indeterminate := fun _ => (Vec3 (SLit 0) (SLit 0) (SLit 0), Vec3 (SLit 0) (SLit 0) (SLit 0), SLit 0)
|}.

(** *** Scenes on this platform *)

(** Every image file decodes to three channels. *)
Definition rgb : World := world 3.
#[local] Existing Instance rgb.

(** Every image file decodes to three channels, except
    ["textures/extra.jpg"], a greyscale image that decodes to one. *)
Definition grey_extra : World := {|
  stbi_load := fun filename =>
    Some (mkImage 1024 1024 (if String.eqb filename "textures/extra.jpg" then 1 else 3));
  glGenTextures := fun history => 1 + Z.of_nat (length (filter is_gen history));
  indeterminate := fun _ => (Vec3 (SLit 0) (SLit 0) (SLit 0), Vec3 (SLit 0) (SLit 0) (SLit 0), SLit 0)
|}.

(** The state a computation leaves. *)
Definition after {A} (m : M A) (s : SceneManager) : SceneManager :=
  match m s with
  | Ok _ s' => s'
  | Crash _ => s
  end.

Definition new_scene : SceneManager := SceneManager_new (Some 1%positive) (fun _ => 0).

(** The reference scene: a new object after [PrepareScene]. *)
Definition reference_scene : SceneManager := after PrepareScene new_scene.

(** The catalog alone: a new object after [DefineObjectMaterials]. *)
Definition catalog_scene : SceneManager := after DefineObjectMaterials new_scene.

(** Three registrations. *)
Definition abc : list (string * string) :=
  [("a.png", "a"); ("b.png", "b"); ("c.png", "c")].

Definition abc_scene : SceneManager := after (load_all abc) new_scene.

(** Sixteen registrations, which fill the registry. *)
Definition sixteen : list (string * string) :=
  map (fun t => ("textures/" ++ t ++ ".jpg", t))%string
      ["t0"; "t1"; "t2"; "t3"; "t4"; "t5"; "t6"; "t7";
       "t8"; "t9"; "t10"; "t11"; "t12"; "t13"; "t14"; "t15"].

Definition full_scene : SceneManager := after (load_all sixteen) new_scene.
End Symbolic.

(** * ViewManager: camera, projection and input

    A shallow embedding of [ViewManager.cpp].  The file keeps its camera,
    the mouse position, the frame times and the projection mode in
    variables of an anonymous namespace and in two function-local
    statics; together with the two members of the class they form the
    state below.  What GLFW reports (the keys, the clock, the window it
    creates) is an input; the [Camera] class of camera.h, the arithmetic
    on [float] and [double] and the glm projections are parameters, and
    nothing is assumed about them. *)

Module View.

Definition WINDOW_WIDTH : Z := 1000.
Definition WINDOW_HEIGHT : Z := 800.
Definition g_ViewName := "view".
Definition g_ProjectionName := "projection".

(** The values [glfwGetKey] compares against. *)
Definition GLFW_RELEASE : Z := 0.
Definition GLFW_PRESS : Z := 1.

(** The keys the source asks for. *)
Inductive key :=
| GLFW_KEY_ESCAPE | GLFW_KEY_W | GLFW_KEY_S | GLFW_KEY_A | GLFW_KEY_D
| GLFW_KEY_Q | GLFW_KEY_E | GLFW_KEY_P | GLFW_KEY_O.

Inductive Camera_Movement := FORWARD | BACKWARD | LEFT | RIGHT | UP | DOWN.

(** [class Camera], as far as the source names its members; [camera_other]
    stands for the members it does not name. *)
Record Camera (F R : Type) := mkCamera {
  Position : vec3 F;
  Front : vec3 F;
  Up : vec3 F;
  Zoom : F;
  MovementSpeed : F;
  camera_other : R
}.
Arguments mkCamera {F R} _ _ _ _ _ _.
Arguments Position {F R} _.
Arguments Front {F R} _.
Arguments Up {F R} _.
Arguments Zoom {F R} _.
Arguments MovementSpeed {F R} _.
Arguments camera_other {F R} _.

Class ViewLib `{Glm} := {
  double : Type;
  (** the conversions [double] to [float], [float] to [double] and [int]
      to [float] *)
  float_of_double : double -> float;
  double_of_float : float -> double;
  float_of_int : Z -> float;
  (** [double - double] *)
  dsub : double -> double -> double;
  (** [float - float], [float * float], [float / float], [- float] *)
  fsub : float -> float -> float;
  fmul : float -> float -> float;
  fdiv : float -> float -> float;
  fneg : float -> float;
  (** [glm::ortho(left, right, bottom, top, zNear, zFar)] and
      [glm::perspective(fovy, aspect, zNear, zFar)] *)
  glm_ortho : float -> float -> float -> float -> float -> float -> mat4;
  glm_perspective : float -> float -> float -> float -> mat4;
  camera_private : Type;
  (** [new Camera()] and the methods of [Camera] that the source calls *)
  Camera_new : Camera float camera_private;
  ProcessKeyboard : Camera_Movement -> float ->
                    Camera float camera_private -> Camera float camera_private;
  ProcessMouseMovement : float -> float ->
                         Camera float camera_private -> Camera float camera_private;
  ProcessMouseScroll : double -> Camera float camera_private -> Camera float camera_private;
  GetViewMatrix : Camera float camera_private -> mat4;
  (** what [glfwCreateWindow(width, height, title, NULL, NULL)] returns;
      [None] is [NULL] *)
  glfwCreateWindow : Z -> Z -> string -> option positive
}.

Section State.
Context `{ViewLib}.

(** What GLFW reports during one frame: the state of each key, as
    [glfwGetKey] returns it, and the value of [glfwGetTime]. *)
Record frame_input := mkInput {
  key_state : key -> Z;
  clock : double
}.

Inductive event :=
| cout_failed_to_create_window
| glfwTerminate
| glfwMakeContextCurrent (window : positive)
| glfwSetInputMode_cursor_disabled (window : positive)
| glfwSetCursorPosCallback (window : positive)
| glfwSetScrollCallback (window : positive)
| glEnable_blend
| glBlendFunc_src_alpha_one_minus_src_alpha
| glfwSetWindowShouldClose (window : positive) (value : bool)
| shader_set (name : string) (v : uniform).

Record ViewManager := mkView {
  (** the members of the class; [None] is [NULL] *)
  m_pShaderManager : option positive;
  m_pWindow : option positive;
  (** the variables of the anonymous namespace *)
  g_pCamera : option (Camera float camera_private);
  gLastX : float;
  gLastY : float;
  gFirstMouse : bool;
  gDeltaTime : float;
  gLastFrame : float;
  bOrthographicProjection : bool;
  (** the statics of [ProcessKeyboardEvents] *)
  p_pressed : bool;
  o_pressed : bool;
  (** calls to the collaborators so far, oldest first *)
  calls : list event
}.

Inductive result (A : Type) :=
| Ok (a : A) (v : ViewManager)
| Crash (c : crash).
#[global] Arguments Ok {A} a v.
#[global] Arguments Crash {A} c.

Definition M (A : Type) : Type := ViewManager -> result A.

Definition ret {A} (a : A) : M A := fun v => Ok a v.

Definition bind {A B} (m : M A) (k : A -> M B) : M B :=
  fun v => match m v with
           | Ok a v' => k a v'
           | Crash c => Crash c
           end.

End State.

Declare Scope view_scope.
Delimit Scope view_scope with view.
Notation "x <- m ;; k" := (bind m (fun x => k))
  (at level 100, m at next level, right associativity) : view_scope.
Notation "m ;; k" := (bind m (fun _ => k))
  (at level 100, right associativity) : view_scope.
Open Scope view_scope.

Section Methods.
Context `{ViewLib}.

Definition get {A} (f : ViewManager -> A) : M A := fun v => Ok (f v) v.

Definition emit (e : event) : M unit := fun v =>
  Ok tt (mkView (m_pShaderManager v) (m_pWindow v) (g_pCamera v) (gLastX v) (gLastY v)
                (gFirstMouse v) (gDeltaTime v) (gLastFrame v) (bOrthographicProjection v)
                (p_pressed v) (o_pressed v) (calls v ++ [e])).

Definition set_pWindow (w : option positive) : M unit := fun v =>
  Ok tt (mkView (m_pShaderManager v) w (g_pCamera v) (gLastX v) (gLastY v)
                (gFirstMouse v) (gDeltaTime v) (gLastFrame v) (bOrthographicProjection v)
                (p_pressed v) (o_pressed v) (calls v)).

Definition set_pCamera (c : option (Camera float camera_private)) : M unit := fun v =>
  Ok tt (mkView (m_pShaderManager v) (m_pWindow v) c (gLastX v) (gLastY v)
                (gFirstMouse v) (gDeltaTime v) (gLastFrame v) (bOrthographicProjection v)
                (p_pressed v) (o_pressed v) (calls v)).

Definition set_gLast (x y : float) : M unit := fun v =>
  Ok tt (mkView (m_pShaderManager v) (m_pWindow v) (g_pCamera v) x y
                (gFirstMouse v) (gDeltaTime v) (gLastFrame v) (bOrthographicProjection v)
                (p_pressed v) (o_pressed v) (calls v)).

Definition set_gFirstMouse (b : bool) : M unit := fun v =>
  Ok tt (mkView (m_pShaderManager v) (m_pWindow v) (g_pCamera v) (gLastX v) (gLastY v)
                b (gDeltaTime v) (gLastFrame v) (bOrthographicProjection v)
                (p_pressed v) (o_pressed v) (calls v)).

Definition set_gDeltaTime (t : float) : M unit := fun v =>
  Ok tt (mkView (m_pShaderManager v) (m_pWindow v) (g_pCamera v) (gLastX v) (gLastY v)
                (gFirstMouse v) t (gLastFrame v) (bOrthographicProjection v)
                (p_pressed v) (o_pressed v) (calls v)).

Definition set_gLastFrame (t : float) : M unit := fun v =>
  Ok tt (mkView (m_pShaderManager v) (m_pWindow v) (g_pCamera v) (gLastX v) (gLastY v)
                (gFirstMouse v) (gDeltaTime v) t (bOrthographicProjection v)
                (p_pressed v) (o_pressed v) (calls v)).

Definition set_bOrthographicProjection (b : bool) : M unit := fun v =>
  Ok tt (mkView (m_pShaderManager v) (m_pWindow v) (g_pCamera v) (gLastX v) (gLastY v)
                (gFirstMouse v) (gDeltaTime v) (gLastFrame v) b
                (p_pressed v) (o_pressed v) (calls v)).

Definition set_p_pressed (b : bool) : M unit := fun v =>
  Ok tt (mkView (m_pShaderManager v) (m_pWindow v) (g_pCamera v) (gLastX v) (gLastY v)
                (gFirstMouse v) (gDeltaTime v) (gLastFrame v) (bOrthographicProjection v)
                b (o_pressed v) (calls v)).

Definition set_o_pressed (b : bool) : M unit := fun v =>
  Ok tt (mkView (m_pShaderManager v) (m_pWindow v) (g_pCamera v) (gLastX v) (gLastY v)
                (gFirstMouse v) (gDeltaTime v) (gLastFrame v) (bOrthographicProjection v)
                (p_pressed v) b (calls v)).

(** [*g_pCamera]; through a null pointer the behaviour is undefined, which
    the model reports as a crash. *)
Definition camera : M (Camera float camera_private) := fun v =>
  match g_pCamera v with
  | Some c => Ok c v
  | None => Crash NullDereference
  end.

(** A call [g_pCamera->method(...)] that updates the camera. *)
Definition camera_call (method : Camera float camera_private -> Camera float camera_private)
  : M unit :=
  c <- camera ;; set_pCamera (Some (method c)).

(** [m_pWindow] as the argument of a GLFW function that needs a window:
    GLFW reads through the handle, so [NULL] is reported as a crash. *)
Definition window : M positive := fun v =>
  match m_pWindow v with
  | Some w => Ok w v
  | None => Crash NullDereference
  end.

(** [glfwGetKey(m_pWindow, k)] *)
Definition glfwGetKey (input : frame_input) (k : key) : M Z :=
  window ;; ret (key_state input k).

(** The state when the program starts: the initialisers of the anonymous
    namespace and of the two statics; no object has been constructed. *)
Definition program_start : ViewManager :=
  mkView None None None
         (fdiv (float_of_int WINDOW_WIDTH) (flit 2.0))
         (fdiv (float_of_int WINDOW_HEIGHT) (flit 2.0))
         true (flit 0.0) (flit 0.0) false false false [].

(** [ViewManager::ViewManager(pShaderManager)] *)
Definition ViewManager_new (pShaderManager : option positive) (v : ViewManager)
  : ViewManager :=
  mkView pShaderManager None
         (Some (mkCamera (glm_vec3 0.0 5.0 12.0)
                         (Vec3 (flit 0.0) (fneg (flit 0.5)) (fneg (flit 2.0)))
                         (glm_vec3 0.0 1.0 0.0) (float_of_int 80) (float_of_int 20)
                         (camera_other Camera_new)))
         (gLastX v) (gLastY v) (gFirstMouse v) (gDeltaTime v) (gLastFrame v)
         (bOrthographicProjection v) (p_pressed v) (o_pressed v) (calls v).

(** [ViewManager::~ViewManager()] *)
Definition ViewManager_delete (v : ViewManager) : ViewManager :=
  mkView None None None
         (gLastX v) (gLastY v) (gFirstMouse v) (gDeltaTime v) (gLastFrame v)
         (bOrthographicProjection v) (p_pressed v) (o_pressed v) (calls v).

Definition CreateDisplayWindow (windowTitle : string) : M (option positive) :=
  match glfwCreateWindow WINDOW_WIDTH WINDOW_HEIGHT windowTitle with
  | None =>
      emit cout_failed_to_create_window ;;
      emit glfwTerminate ;;
      ret None
  | Some w =>
      emit (glfwMakeContextCurrent w) ;;
      emit (glfwSetInputMode_cursor_disabled w) ;;
      emit (glfwSetCursorPosCallback w) ;;
      emit (glfwSetScrollCallback w) ;;
      emit glEnable_blend ;;
      emit glBlendFunc_src_alpha_one_minus_src_alpha ;;
      set_pWindow (Some w) ;;
      ret (Some w)
  end.

Definition Mouse_Position_Callback (xMousePos yMousePos : double) : M unit :=
  first <- get gFirstMouse ;;
  (if first then
     set_gLast (float_of_double xMousePos) (float_of_double yMousePos) ;;
     set_gFirstMouse false
   else ret tt) ;;
  lastX <- get gLastX ;;
  lastY <- get gLastY ;;
  let xOffset := float_of_double (dsub xMousePos (double_of_float lastX)) in
  let yOffset := float_of_double (dsub (double_of_float lastY) yMousePos) in
  set_gLast (float_of_double xMousePos) (float_of_double yMousePos) ;;
  camera_call (ProcessMouseMovement xOffset yOffset).

Definition Mouse_Wheel_Callback (x yScrollDistance : double) : M unit :=
  camera_call (ProcessMouseScroll yScrollDistance).

(** [if (glfwGetKey(m_pWindow, k) == GLFW_PRESS)
    g_pCamera->ProcessKeyboard(direction, gDeltaTime);] *)
Definition move_on (input : frame_input) (k : key) (direction : Camera_Movement) : M unit :=
  state <- glfwGetKey input k ;;
  if state =? GLFW_PRESS then
    dt <- get gDeltaTime ;;
    camera_call (ProcessKeyboard direction dt)
  else ret tt.

Definition ProcessKeyboardEvents (input : frame_input) : M unit :=
  esc <- glfwGetKey input GLFW_KEY_ESCAPE ;;
  (if esc =? GLFW_PRESS then
     w <- window ;; emit (glfwSetWindowShouldClose w true)
   else ret tt) ;;
  move_on input GLFW_KEY_W FORWARD ;;
  move_on input GLFW_KEY_S BACKWARD ;;
  move_on input GLFW_KEY_A LEFT ;;
  move_on input GLFW_KEY_D RIGHT ;;
  move_on input GLFW_KEY_Q UP ;;
  move_on input GLFW_KEY_E DOWN ;;
  p <- glfwGetKey input GLFW_KEY_P ;;
  latch <- get p_pressed ;;
  (if (p =? GLFW_PRESS) && negb latch then
     set_bOrthographicProjection false ;;
     set_p_pressed true
   else
     p' <- glfwGetKey input GLFW_KEY_P ;;
     if p' =? GLFW_RELEASE then set_p_pressed false else ret tt) ;;
  o <- glfwGetKey input GLFW_KEY_O ;;
  latch <- get o_pressed ;;
  (if (o =? GLFW_PRESS) && negb latch then
     set_bOrthographicProjection true ;;
     set_o_pressed true
   else
     o' <- glfwGetKey input GLFW_KEY_O ;;
     if o' =? GLFW_RELEASE then set_o_pressed false else ret tt).

(** The two projection matrices of [PrepareSceneView]. *)
Definition aspect_ratio : float :=
  fdiv (float_of_int WINDOW_WIDTH) (float_of_int WINDOW_HEIGHT).

Definition orthographic : mat4 :=
  let scale := flit 6.0 in
  let aspectRatio := aspect_ratio in
  glm_ortho (fmul (fneg scale) aspectRatio) (fmul scale aspectRatio)
            (fneg scale) scale (flit 0.1) (flit 100.0).

Definition perspective (zoom : float) : mat4 :=
  glm_perspective (glm_radians zoom) aspect_ratio (flit 0.1) (flit 100.0).

Definition PrepareSceneView (input : frame_input) : M unit :=
  let currentFrame := float_of_double (clock input) in
  lastFrame <- get gLastFrame ;;
  set_gDeltaTime (fsub currentFrame lastFrame) ;;
  set_gLastFrame currentFrame ;;
  ProcessKeyboardEvents input ;;
  c <- camera ;;
  let view := GetViewMatrix c in
  ortho <- get bOrthographicProjection ;;
  projection <- (if ortho then ret orthographic
                 else c' <- camera ;; ret (perspective (Zoom c'))) ;;
  pShaderManager <- get m_pShaderManager ;;
  match pShaderManager with
  | Some _ =>
      emit (shader_set g_ViewName (UMat4 view)) ;;
      emit (shader_set g_ProjectionName (UMat4 projection)) ;;
      c'' <- camera ;;
      emit (shader_set "viewPosition" (UVec3 (Position c'')))
  | None => ret tt
  end.

End Methods.

(** ** Vocabulary of the statements about the view *)

Section Vocabulary.
Context `{ViewLib}.

(** The window has been created and the camera exists. *)
Definition ready (v : ViewManager) : Prop :=
  (exists w, m_pWindow v = Some w) /\ (exists c, g_pCamera v = Some c).

(** [glfwGetKey] reports [GLFW_PRESS] for [k]. *)
Definition pressed (input : frame_input) (k : key) : bool :=
  key_state input k =? GLFW_PRESS.

(** [k] is pressed and its latch is not set. *)
Definition fresh_press (input : frame_input) (k : key) (latch : bool) : bool :=
  pressed input k && negb latch.

(** The latch of a key after a frame. *)
Definition latch_after (input : frame_input) (k : key) (latch : bool) : bool :=
  if key_state input k =? GLFW_PRESS then true
  else if key_state input k =? GLFW_RELEASE then false
  else latch.

(** The projection mode after a frame. *)
Definition mode_after (input : frame_input) (v : ViewManager) : bool :=
  if fresh_press input GLFW_KEY_O (o_pressed v) then true
  else if fresh_press input GLFW_KEY_P (p_pressed v) then false
  else bOrthographicProjection v.

(** The movement keys with their directions, in the order in which the
    source asks for them. *)
Definition movement_keys : list (key * Camera_Movement) :=
  [(GLFW_KEY_W, FORWARD); (GLFW_KEY_S, BACKWARD); (GLFW_KEY_A, LEFT);
   (GLFW_KEY_D, RIGHT); (GLFW_KEY_Q, UP); (GLFW_KEY_E, DOWN)].

(** The camera after the movements of one frame. *)
Definition moved (input : frame_input) (dt : float) (c : Camera float camera_private)
  : Camera float camera_private :=
  fold_left (fun c km => if pressed input km.1 then ProcessKeyboard km.2 dt c else c)
            movement_keys c.

(** The request to close the window, when escape is pressed. *)
Definition close_request (input : frame_input) (w : positive) : list event :=
  if pressed input GLFW_KEY_ESCAPE then [glfwSetWindowShouldClose w true] else [].

(** The three uniforms of a frame, for the camera [c] and the mode
    [ortho]. *)
Definition published_view (c : Camera float camera_private) (ortho : bool) : list event :=
  [shader_set "view" (UMat4 (GetViewMatrix c));
   shader_set "projection" (UMat4 (if ortho then orthographic else perspective (Zoom c)));
   shader_set "viewPosition" (UVec3 (Position c))].

(** The uniform writes of a trace. *)
Definition is_shader_set (e : event) : bool :=
  match e with shader_set _ _ => true | _ => false end.

(** What reaches a view manager from the main loop and from GLFW. *)
Inductive ui_event :=
| Frame (input : frame_input)
| MouseMove (x y : double)
| MouseWheel (x y : double).

Definition run_event (e : ui_event) : M unit :=
  match e with
  | Frame input => PrepareSceneView input
  | MouseMove x y => Mouse_Position_Callback x y
  | MouseWheel x y => Mouse_Wheel_Callback x y
  end.

Fixpoint run_events (es : list ui_event) : M unit :=
  match es with
  | [] => ret tt
  | e :: es' => run_event e ;; run_events es'
  end.

End Vocabulary.

End View.

(** ** A concrete platform for the view

    Scalars of both widths and matrices are terms; the camera keeps, as
    its unnamed part, the list of the calls it received. *)

Module Desk.

Import View.

Inductive scalar :=
| Lit (q : Q)
| OfInt (z : Z)
| Plus (a b : scalar)
| Minus (a b : scalar)
| Times (a b : scalar)
| Over (a b : scalar)
| Negate (a : scalar)
| Radians (a : scalar)
| Cosine (a : scalar)
| Narrow (a : scalar)
| Widen (a : scalar).

Inductive matrix :=
| Scale (v : vec3 scalar)
| Rotate (angle : scalar) (axis : vec3 scalar)
| Translate (v : vec3 scalar)
| Product (a b : matrix)
| Ortho (left right bottom top zNear zFar : scalar)
| Perspective (fovy aspect zNear zFar : scalar)
| LookAt (eye front up : vec3 scalar).

Inductive motion :=
| Key (direction : Camera_Movement) (dt : scalar)
| Mouse (xOffset yOffset : scalar)
| Scroll (distance : scalar).

#[export] Instance glm : Glm := {|
  float := scalar;
  flit := Lit;
  fadd := Plus;
  mat4 := matrix;
  mat4_mul := Product;
  glm_radians := Radians;
  glm_cos := Cosine;
  glm_scale := Scale;
  glm_rotate := Rotate;
  glm_translate := Translate
|}.

Definition received (m : motion) (c : Camera scalar (list motion))
  : Camera scalar (list motion) :=
  mkCamera (Position c) (Front c) (Up c) (Zoom c) (MovementSpeed c) (camera_other c ++ [m]).

#[export] Instance lib : ViewLib := {|
  double := scalar;
  float_of_double := Narrow;
  double_of_float := Widen;
  float_of_int := OfInt;
  dsub := Minus;
  fsub := Minus;
  fmul := Times;
  fdiv := Over;
  fneg := Negate;
  glm_ortho := Ortho;
  glm_perspective := Perspective;
  camera_private := list motion;
  Camera_new := mkCamera (Vec3 (Lit 0) (Lit 0) (Lit 0)) (Vec3 (Lit 0) (Lit 0) (Lit 0))
                         (Vec3 (Lit 0) (Lit 0) (Lit 0)) (Lit 0) (Lit 0) [];
  ProcessKeyboard := fun direction dt => received (Key direction dt);
  ProcessMouseMovement := fun xOffset yOffset => received (Mouse xOffset yOffset);
  ProcessMouseScroll := fun distance => received (Scroll distance);
  GetViewMatrix := fun c => LookAt (Position c) (Front c) (Up c);
  glfwCreateWindow := fun _ _ _ => Some 1%positive
|}.

(** The camera the constructor leaves. *)
Definition first_camera : Camera scalar (list motion) :=
  mkCamera (glm_vec3 0.0 5.0 12.0) (Vec3 (Lit 0.0) (Negate (Lit 0.5)) (Negate (Lit 2.0)))
           (glm_vec3 0.0 1.0 0.0) (OfInt 80) (OfInt 20) [].

(** A view manager with a shader manager, after its window was created. *)
Definition opened : ViewManager :=
  match CreateDisplayWindow "scene" (ViewManager_new (Some 1%positive) program_start) with
  | Ok _ v => v
  | Crash _ => program_start
  end.

(** Frames in which O and P are pressed, O and W are pressed, and no key
    is pressed, at the time [t]. *)
Definition press_O_P (t : Q) : frame_input :=
  mkInput (fun k => match k with
                    | GLFW_KEY_O | GLFW_KEY_P => GLFW_PRESS
                    | _ => GLFW_RELEASE
                    end) (Lit t).

Definition press_O_W (t : Q) : frame_input :=
  mkInput (fun k => match k with
                    | GLFW_KEY_O | GLFW_KEY_W => GLFW_PRESS
                    | _ => GLFW_RELEASE
                    end) (Lit t).

(** A position of the mouse pointer. *)
Definition pointer_x : double := Lit 10.
Definition pointer_y : double := Lit 20.

End Desk.

(** * Properties *)

(** ** Views of a state and of a trace *)

Section Views.

Context `{Glm}.

Lemma draws_app tr1 tr2 : draws (tr1 ++ tr2) = draws tr1 ++ draws tr2.
Proof.
  induction tr1 as [|e tr1 IH]; [reflexivity|].
  destruct e; simpl; rewrite IH; reflexivity.
Qed.

Lemma with_effects_nil s : with_effects s [] [] = s.
Proof. destruct s; unfold with_effects; simpl. rewrite !app_nil_r. reflexivity. Qed.

Lemma with_effects_twice s evs1 idx1 evs2 idx2 :
  with_effects (with_effects s evs1 idx1) evs2 idx2
  = with_effects s (evs1 ++ evs2) (idx1 ++ idx2).
Proof. unfold with_effects; simpl. rewrite !app_assoc. reflexivity. Qed.

Lemma registry_inv_with_effects s evs idx :
  registry_inv s -> registry_inv (with_effects s evs idx).
Proof. intros Hs; exact Hs. Qed.

(** Running [k] after [m], when [m] only adds calls and accesses. *)
Lemma bind_effects {A B} (m : M A) (k : A -> M B) s a evs idx :
  m s = Ok a (with_effects s evs idx) ->
  bind m k s = k a (with_effects s evs idx).
Proof. intros Hm. unfold bind. rewrite Hm. reflexivity. Qed.

Lemma bind_get {A B} (f : SceneManager -> A) (k : A -> M B) s :
  bind (get f) k s = k (f s) s.
Proof. reflexivity. Qed.

Lemma emit_effects e s : emit e s = Ok tt (with_effects s [e] []).
Proof. unfold emit, with_effects. rewrite app_nil_r. reflexivity. Qed.

Lemma texture_at_effects s i t :
  0 <= i < MAX_TEXTURES ->
  m_textureIDs s !! Z.to_nat i = Some t ->
  texture_at i s = Ok t (with_effects s [] [i]).
Proof.
  intros Hi Ht. unfold texture_at, with_effects.
  replace ((0 <=? i) && (i <? MAX_TEXTURES)) with true
    by (symmetry; apply andb_true_intro; split; [apply Z.leb_le | apply Z.ltb_lt]; lia).
  rewrite Ht, app_nil_r. reflexivity.
Qed.

End Views.

(** ** Material Catalog *)

Section MaterialCatalog.

Context `{Glm}.

Lemma FindMaterial_loop_miss mats tag material :
  Forall (fun m => mat_tag m <> tag) mats ->
  FindMaterial_loop mats tag material = material.
Proof.
  induction 1 as [|m mats Hm _ IH]; simpl; [reflexivity|].
  apply String.eqb_neq in Hm. rewrite Hm. exact IH.
Qed.

Lemma FindMaterial_nonempty m mats tag material s :
  m_objectMaterials s = m :: mats ->
  FindMaterial tag material s
  = Ok (true, FindMaterial_loop (m :: mats) tag material) s.
Proof.
  intros Hs. unfold FindMaterial, bind, get, ret. rewrite Hs. reflexivity.
Qed.

(** C3. On a non-empty catalog in which no record carries [tag],
    [FindMaterial] returns [true] and the output parameter keeps the
    content it had on entry; the object state is not changed either. *)
Theorem FindMaterial_miss_reports_found tag material s :
  m_objectMaterials s <> [] ->
  Forall (fun m => mat_tag m <> tag) (m_objectMaterials s) ->
  FindMaterial tag material s = Ok (true, material) s.
Proof.
  intros Hne Hmiss.
  destruct (m_objectMaterials s) as [|m mats] eqn:Hs; [congruence|].
  rewrite (FindMaterial_nonempty m mats) by exact Hs.
  rewrite FindMaterial_loop_miss by exact Hmiss. reflexivity.
Qed.

Lemma DefineObjectMaterials_catalog s :
  DefineObjectMaterials s
  = Ok tt (mkScene (m_pShaderManager s) (m_loadedTextures s) (m_textureIDs s)
                   (catalog_of defined_materials) (calls s) (touched s)).
Proof. reflexivity. Qed.

(** C8. After [DefineObjectMaterials], whatever the state before, each of
    the twelve tags of the reference scene is found by [FindMaterial],
    which returns [true] and leaves in the output parameter exactly the
    diffuse colour, specular colour and shininess defined for that tag
    (the tag field of the output parameter is not assigned). *)
Theorem DefineObjectMaterials_round_trip s :
  map (fun r => r.1.1.1) defined_materials
  = ["plastic"; "wood"; "metal"; "glass"; "tile"; "stone"; "lampshade";
     "lampbase"; "bookcover"; "jar"; "tableSurface"; "windowFrame"] /\
  exists s',
    DefineObjectMaterials s = Ok tt s' /\
    Forall (fun r =>
              forall material,
                FindMaterial r.1.1.1 material s'
                = Ok (true, mkMaterial r.1.1.2 r.1.2 r.2 (mat_tag material)) s')
           defined_materials.
Proof.
  split; [reflexivity|].
  eexists. split; [apply DefineObjectMaterials_catalog|].
  repeat constructor.
Qed.

End MaterialCatalog.

(** ** Transform Builder and Shading State Publisher *)

Section Publisher.

Context `{Glm} `{!World}.

(** C4. [SetTransformations] builds
    [Translate(position + offset) * RotateZ * RotateY * RotateX * Scale],
    each rotation being [glm::rotate] of the angle converted by
    [glm::radians] about the X, Y or Z unit axis, and writes it to the
    uniform ["model"] when there is a shader manager; without one it does
    nothing. *)
Theorem SetTransformations_composition_order
        scaleXYZ rx ry rz positionXYZ offset s :
  SetTransformations scaleXYZ rx ry rz positionXYZ offset s
  = Ok tt (match m_pShaderManager s with
           | Some _ =>
               with_effects s
                 [shader_set "model"
                    (UMat4 (model_matrix scaleXYZ rx ry rz positionXYZ offset))] []
           | None => s
           end).
Proof.
  unfold SetTransformations, bind, get, shader_call.
  destruct (m_pShaderManager s) eqn:Hp; [|reflexivity].
  rewrite Hp. apply emit_effects.
Qed.

(** Read on column vectors, the product applies the scale first and the
    translation last, provided the matrix-vector product [apply] of the
    glm instance is compatible with the matrix product. *)

Section ColumnVectors.

Variable column : Type.

Variable apply : mat4 -> column -> column.

Hypothesis apply_mul : forall a b v, apply (mat4_mul a b) v = apply a (apply b v).

Lemma model_matrix_on_columns scaleXYZ rx ry rz positionXYZ offset v :
  apply (model_matrix scaleXYZ rx ry rz positionXYZ offset) v
  = apply (glm_translate (vec3_add positionXYZ offset))
      (apply (RotateZ rz)
         (apply (RotateY ry)
            (apply (RotateX rx)
               (apply (glm_scale scaleXYZ) v)))).
Proof. unfold model_matrix, compose; simpl. rewrite !apply_mul. reflexivity. Qed.

End ColumnVectors.

(** With a shader manager and a non-empty catalog, [SetShaderMaterial]
    writes the three material uniforms whatever the tag, and writes
    nothing else. *)
Lemma SetShaderMaterial_writes materialTag p m mats s :
  m_pShaderManager s = Some p ->
  m_objectMaterials s = m :: mats ->
  let local := mkMaterial (indeterminate (calls s)).1.1 (indeterminate (calls s)).1.2
                          (indeterminate (calls s)).2 "" in
  let found := FindMaterial_loop (m :: mats) materialTag local in
  SetShaderMaterial materialTag s
  = Ok tt (with_effects s
             [shader_set "material.diffuseColor" (UVec3 (diffuseColor found));
              shader_set "material.specularColor" (UVec3 (specularColor found));
              shader_set "material.shininess" (UFloat (shininess found))] []).
Proof.
  intros Hp Hm local found. subst local found.
  destruct s as [p' n texs mats' tr idx]; simpl in *; subst.
  unfold SetShaderMaterial, FindMaterial, bind, get, ret, shader_call, emit, with_effects.
  simpl. rewrite app_nil_r, <- !app_assoc. reflexivity.
Qed.

(** With an unknown tag the values written are those of the uninitialised
    local, and no warning is printed. *)
Lemma SetShaderMaterial_unknown_tag materialTag p s :
  m_pShaderManager s = Some p ->
  m_objectMaterials s <> [] ->
  Forall (fun m => mat_tag m <> materialTag) (m_objectMaterials s) ->
  SetShaderMaterial materialTag s
  = Ok tt (with_effects s
             [shader_set "material.diffuseColor" (UVec3 (indeterminate (calls s)).1.1);
              shader_set "material.specularColor" (UVec3 (indeterminate (calls s)).1.2);
              shader_set "material.shininess" (UFloat (indeterminate (calls s)).2)] []).
Proof.
  intros Hp Hne Hmiss.
  destruct (m_objectMaterials s) as [|m mats] eqn:Hm; [congruence|].
  rewrite (SetShaderMaterial_writes materialTag p m mats) by assumption.
  rewrite FindMaterial_loop_miss by exact Hmiss. reflexivity.
Qed.

(** C7. Without a shader manager ([m_pShaderManager] is [NULL]),
    [SetTransformations], [SetShaderColor], [SetShaderTexture] and
    [SetTextureUVScale] return at once and leave the state as it was.
    [SetShaderMaterial] has no such test: it does nothing when the catalog
    is empty, and on a non-empty catalog it calls through the null
    pointer. *)
Theorem publish_without_shader_manager
        n texs mats tr idx scaleXYZ rx ry rz pos off r g b a tag u v m :
  let s := mkScene None n texs mats tr idx in
  let s' := mkScene None n texs (m :: mats) tr idx in
  SetTransformations scaleXYZ rx ry rz pos off s = Ok tt s /\
  SetShaderColor r g b a s = Ok tt s /\
  SetShaderTexture tag s = Ok tt s /\
  SetTextureUVScale u v s = Ok tt s /\
  SetShaderMaterial tag (mkScene None n texs [] tr idx) = Ok tt (mkScene None n texs [] tr idx) /\
  SetShaderMaterial tag s' = Crash NullDereference.
Proof. repeat split. Qed.

End Publisher.

(** ** Texture Registry *)

Section TextureRegistry.

Context `{Glm} `{!World}.

Lemma registered_length s :
  registry_inv s -> length (registered s) = Z.to_nat (m_loadedTextures s).
Proof.
  intros [Hn Hlen]. unfold registered. rewrite length_take, Hlen.
  unfold MAX_TEXTURES in *. lia.
Qed.

Lemma registered_slice s : slice_at s 0 (registered s).
Proof.
  intros j t Hj. unfold registered in Hj.
  apply lookup_take_Some in Hj as [Hj _]. exact Hj.
Qed.

Lemma slice_at_tail s i t l : 0 <= i -> slice_at s i (t :: l) -> slice_at s (i + 1) l.
Proof.
  intros Hi Hs j u Hj.
  replace (Z.to_nat (i + 1) + j)%nat with (Z.to_nat i + S j)%nat by lia.
  apply Hs. exact Hj.
Qed.

Lemma slice_at_head s i t l : slice_at s i (t :: l) -> m_textureIDs s !! Z.to_nat i = Some t.
Proof.
  intros Hs. specialize (Hs O t eq_refl).
  rewrite Nat.add_0_r in Hs. exact Hs.
Qed.

Lemma for_loop_registry (ev : Z -> TEXTURE_INFO -> list event) (body : Z -> M unit) :
  (forall i t s, 0 <= i < MAX_TEXTURES -> m_textureIDs s !! Z.to_nat i = Some t ->
                 body i s = Ok tt (with_effects s (ev i t) [i])) ->
  forall l i s,
    0 <= i -> i + Z.of_nat (length l) <= MAX_TEXTURES -> slice_at s i l ->
    for_loop (length l) i body s
    = Ok tt (with_effects s (slot_events ev i l) (seqZ i (Z.of_nat (length l)))).
Proof.
  intros Hbody l. induction l as [|t l IH]; intros i s Hi Hlen Hslice.
  - simpl. unfold ret. rewrite with_effects_nil. reflexivity.
  - cbn [length for_loop slot_events].
    rewrite (bind_effects _ _ s tt (ev i t) [i]).
    2:{ apply Hbody; [cbn [length] in Hlen; lia | eapply slice_at_head; eassumption]. }
    rewrite IH.
    + rewrite with_effects_twice. rewrite (seqZ_cons i) by (cbn [length]; lia).
      replace (Z.pred (Z.of_nat (S (length l)))) with (Z.of_nat (length l)) by lia.
      reflexivity.
    + lia.
    + cbn [length] in Hlen. lia.
    + eapply slice_at_tail; eassumption.
Qed.

Lemma BindGLTextures_effects s :
  registry_inv s ->
  BindGLTextures s
  = Ok tt (with_effects s (slot_events bind_calls 0 (registered s))
                        (seqZ 0 (m_loadedTextures s))).
Proof.
  intros Hinv. pose proof (registered_length s Hinv) as Hlen.
  destruct Hinv as [Hn Harr].
  unfold BindGLTextures, for_upto. rewrite bind_get, <- Hlen.
  rewrite (for_loop_registry bind_calls).
  - rewrite Hlen, Z2Nat.id by lia. reflexivity.
  - intros i t s' Hi Ht. unfold bind_calls.
    rewrite (bind_effects _ _ s' tt [glActiveTexture (GL_TEXTURE0 + i)] [])
      by apply emit_effects.
    rewrite (bind_effects _ _ _ t [] [i]) by (apply texture_at_effects; assumption).
    rewrite emit_effects, !with_effects_twice. reflexivity.
  - lia.
  - rewrite Hlen. lia.
  - apply registered_slice.
Qed.

Lemma DestroyGLTextures_effects s :
  registry_inv s ->
  DestroyGLTextures s
  = Ok tt (mkScene (m_pShaderManager s) 0 (m_textureIDs s) (m_objectMaterials s)
                   (calls s ++ slot_events delete_calls 0 (registered s))
                   (touched s ++ seqZ 0 (m_loadedTextures s))).
Proof.
  intros Hinv. pose proof (registered_length s Hinv) as Hlen.
  destruct Hinv as [Hn Harr].
  unfold DestroyGLTextures, for_upto. rewrite bind_get, <- Hlen.
  erewrite bind_effects.
  2:{ apply (for_loop_registry delete_calls).
      - intros i t s' Hi Ht. unfold delete_calls.
        rewrite (bind_effects _ _ s' t [] [i]) by (apply texture_at_effects; assumption).
        rewrite emit_effects, !with_effects_twice. reflexivity.
      - lia.
      - rewrite Hlen. lia.
      - apply registered_slice. }
  rewrite Hlen, Z2Nat.id by lia. reflexivity.
Qed.

Lemma FindTextureSlot_loop_effects tag l :
  forall i s,
    0 <= i -> i + Z.of_nat (length l) <= MAX_TEXTURES -> slice_at s i l ->
    exists idx,
      FindTextureSlot_loop (length l) i tag s
      = Ok (match list_find (fun t => tex_tag t = tag) l with
            | Some (k, _) => i + Z.of_nat k
            | None => -1
            end) (with_effects s [] idx) /\
      Forall (fun j => i <= j < i + Z.of_nat (length l)) idx.
Proof.
  induction l as [|t l IH]; intros i s Hi Hlen Hslice.
  - exists []. split; [|constructor].
    simpl. unfold ret. rewrite with_effects_nil. reflexivity.
  - cbn [length FindTextureSlot_loop list_find] in *.
    rewrite (bind_effects _ _ s t [] [i]).
    2:{ apply texture_at_effects; [lia | eapply slice_at_head; eassumption]. }
    destruct (String.eqb_spec (tex_tag t) tag) as [Heq|Hne].
    + exists [i]. rewrite decide_True by exact Heq. split.
      * unfold ret. f_equal. simpl. lia.
      * repeat constructor; lia.
    + rewrite decide_False by exact Hne.
      destruct (IH (i + 1) (with_effects s [] [i])) as (idx & Hrun & Hidx).
      * lia.
      * lia.
      * eapply slice_at_tail; eassumption.
      * exists (i :: idx). split.
        -- rewrite Hrun, with_effects_twice.
           destruct (list_find _ l) as [[k u]|]; simpl; [|reflexivity].
           f_equal. lia.
        -- constructor; [lia|]. eapply Forall_impl; [exact Hidx|]. simpl; intros; lia.
Qed.

Lemma FindTextureID_loop_effects tag l :
  forall i s,
    0 <= i -> i + Z.of_nat (length l) <= MAX_TEXTURES -> slice_at s i l ->
    exists idx,
      FindTextureID_loop (length l) i tag s
      = Ok (handle_of tag l) (with_effects s [] idx) /\
      Forall (fun j => i <= j < i + Z.of_nat (length l)) idx.
Proof.
  unfold handle_of.
  induction l as [|t l IH]; intros i s Hi Hlen Hslice.
  - exists []. split; [|constructor].
    simpl. unfold ret. rewrite with_effects_nil. reflexivity.
  - cbn [length FindTextureID_loop list_find] in *.
    rewrite (bind_effects _ _ s t [] [i]).
    2:{ apply texture_at_effects; [lia | eapply slice_at_head; eassumption]. }
    destruct (String.eqb_spec (tex_tag t) tag) as [Heq|Hne].
    + exists [i; i]. rewrite decide_True by exact Heq. split.
      * rewrite (bind_effects _ _ _ t [] [i]).
        2:{ apply texture_at_effects; [lia | eapply slice_at_head; eassumption]. }
        unfold ret. rewrite with_effects_twice. reflexivity.
      * repeat constructor; lia.
    + rewrite decide_False by exact Hne.
      destruct (IH (i + 1) (with_effects s [] [i])) as (idx & Hrun & Hidx).
      * lia.
      * lia.
      * eapply slice_at_tail; eassumption.
      * exists (i :: idx). split.
        -- rewrite Hrun, with_effects_twice.
           destruct (list_find _ l) as [[k u]|]; reflexivity.
        -- constructor; [lia|]. eapply Forall_impl; [exact Hidx|]. simpl; intros; lia.
Qed.

Lemma FindTextureSlot_effects tag s :
  registry_inv s ->
  exists idx,
    FindTextureSlot tag s = Ok (slot_of tag (registered s)) (with_effects s [] idx) /\
    Forall (fun j => 0 <= j < m_loadedTextures s) idx.
Proof.
  intros Hinv. pose proof (registered_length s Hinv) as Hlen.
  destruct Hinv as [Hn Harr].
  destruct (FindTextureSlot_loop_effects tag (registered s) 0 s) as (idx & Hrun & Hidx).
  - lia.
  - rewrite Hlen. lia.
  - apply registered_slice.
  - exists idx. split.
    + unfold FindTextureSlot. rewrite bind_get, <- Hlen, Hrun. unfold slot_of.
      destruct (list_find _ _) as [[k u]|]; reflexivity.
    + eapply Forall_impl; [exact Hidx|]. simpl. intros j Hj. rewrite Hlen in Hj. lia.
Qed.

Lemma FindTextureID_effects tag s :
  registry_inv s ->
  exists idx,
    FindTextureID tag s = Ok (handle_of tag (registered s)) (with_effects s [] idx) /\
    Forall (fun j => 0 <= j < m_loadedTextures s) idx.
Proof.
  intros Hinv. pose proof (registered_length s Hinv) as Hlen.
  destruct Hinv as [Hn Harr].
  destruct (FindTextureID_loop_effects tag (registered s) 0 s) as (idx & Hrun & Hidx).
  - lia.
  - rewrite Hlen. lia.
  - apply registered_slice.
  - exists idx. split.
    + unfold FindTextureID. rewrite bind_get, <- Hlen, Hrun. reflexivity.
    + eapply Forall_impl; [exact Hidx|]. simpl. intros j Hj. rewrite Hlen in Hj. lia.
Qed.

Ltac run_load Hload :=
  unfold CreateGLTexture, new_texture, decode_calls, setup_calls, upload_calls,
    with_effects, bind, emit, get, ret, store_texture, set_loadedTextures;
  cbn [calls m_loadedTextures m_textureIDs m_pShaderManager m_objectMaterials touched];
  rewrite Hload;
  cbn [calls m_loadedTextures m_textureIDs m_pShaderManager m_objectMaterials touched
       width height colorChannels].

Ltac decide_channels :=
  change (3 =? 3) with true; change (4 =? 3) with false; change (4 =? 4) with true;
  cbv beta iota;
  cbn [calls m_loadedTextures m_textureIDs m_pShaderManager m_objectMaterials touched].

Lemma CreateGLTexture_no_image filename tag s :
  stbi_load filename = None ->
  CreateGLTexture filename tag s
  = Ok false (with_effects s [stbi_set_flip_vertically_on_load true;
                              stbi_load_call filename;
                              cout (CouldNotLoad filename)] []).
Proof.
  intros Hload. destruct s as [p n texs mats tr idx]. run_load Hload.
  rewrite app_nil_r, <- !app_assoc. reflexivity.
Qed.

Lemma CreateGLTexture_unsupported filename tag image s :
  stbi_load filename = Some image ->
  colorChannels image <> 3 -> colorChannels image <> 4 ->
  CreateGLTexture filename tag s
  = Ok false (with_effects s
                (decode_calls filename image
                 ++ setup_calls (new_texture s filename image)
                 ++ [cout (UnsupportedChannels (colorChannels image)); stbi_image_free])
                []).
Proof.
  intros Hload H3 H4. destruct s as [p n texs mats tr idx]. run_load Hload.
  apply Z.eqb_neq in H3, H4. rewrite H3, H4.
  cbn [calls m_loadedTextures m_textureIDs m_pShaderManager m_objectMaterials touched].
  rewrite app_nil_r, <- !app_assoc. reflexivity.
Qed.

Lemma CreateGLTexture_full filename tag image s :
  stbi_load filename = Some image ->
  colorChannels image = 3 \/ colorChannels image = 4 ->
  MAX_TEXTURES <= m_loadedTextures s ->
  CreateGLTexture filename tag s
  = Ok false (with_effects s
                (decode_calls filename image
                 ++ setup_calls (new_texture s filename image)
                 ++ upload_calls image
                 ++ [cout (MaxTexturesLoaded filename);
                     glDeleteTextures (new_texture s filename image)])
                []).
Proof.
  intros Hload Hch Hfull. destruct s as [p n texs mats tr idx]. run_load Hload.
  cbn [m_loadedTextures] in Hfull.
  assert (Hn : (n <? MAX_TEXTURES) = false) by (apply Z.ltb_ge; lia).
  destruct Hch as [Hch|Hch]; rewrite Hch; decide_channels;
    rewrite Hn;
    cbn [calls m_loadedTextures m_textureIDs m_pShaderManager m_objectMaterials touched];
    rewrite app_nil_r, <- !app_assoc; reflexivity.
Qed.

Lemma CreateGLTexture_registers filename tag image s :
  stbi_load filename = Some image ->
  colorChannels image = 3 \/ colorChannels image = 4 ->
  registry_inv s ->
  m_loadedTextures s < MAX_TEXTURES ->
  CreateGLTexture filename tag s
  = Ok true (mkScene (m_pShaderManager s) (m_loadedTextures s + 1)
                     (<[Z.to_nat (m_loadedTextures s)
                        := mkTexture tag (new_texture s filename image)]> (m_textureIDs s))
                     (m_objectMaterials s)
                     (calls s ++ decode_calls filename image
                              ++ setup_calls (new_texture s filename image)
                              ++ upload_calls image)
                     (touched s ++ [m_loadedTextures s])).
Proof.
  intros Hload Hch [Hn Hlen] Hroom. destruct s as [p n texs mats tr idx].
  run_load Hload. cbn [m_loadedTextures m_textureIDs] in *.
  assert (Hlt : (n <? MAX_TEXTURES) = true) by (apply Z.ltb_lt; lia).
  assert (Hge : (0 <=? n) = true) by (apply Z.leb_le; lia).
  assert (Hin : (Z.to_nat n <? length texs)%nat = true)
    by (apply Nat.ltb_lt; rewrite Hlen; unfold MAX_TEXTURES in *; lia).
  destruct Hch as [Hch|Hch]; rewrite Hch; decide_channels;
    rewrite Hlt; decide_channels; rewrite Hge, ?Hlt, Hin; cbn [andb]; decide_channels;
    rewrite <- !app_assoc; reflexivity.
Qed.

Lemma slot_events_delete i l :
  slot_events delete_calls i l = map (fun t => glDeleteTextures (tex_ID t)) l.
Proof.
  revert i. induction l as [|t l IH]; intros i; simpl; [reflexivity|].
  rewrite IH. reflexivity.
Qed.

Lemma slot_events_bind i l :
  slot_events bind_calls i l
  = concat (imap (fun k t => [glActiveTexture (GL_TEXTURE0 + (i + Z.of_nat k));
                              glBindTexture (tex_ID t)]) l).
Proof.
  revert i. induction l as [|t l IH]; intros i; [reflexivity|].
  cbn [slot_events imap concat]. rewrite IH. unfold bind_calls.
  rewrite Z.add_0_r. simpl. do 3 f_equal.
  apply imap_ext. intros k u _. simpl. do 3 f_equal. lia.
Qed.

(** Two states with the same count and the same array agree on what a
    lookup returns. *)
Lemma lookups_depend_on_registry tag s s' :
  registry_inv s ->
  m_loadedTextures s' = m_loadedTextures s ->
  m_textureIDs s' = m_textureIDs s ->
  value (FindTextureSlot tag s') = Some (slot_of tag (registered s)) /\
  value (FindTextureID tag s') = Some (handle_of tag (registered s)).
Proof.
  intros Hinv Hn Harr.
  assert (Hinv' : registry_inv s') by (unfold registry_inv; rewrite Hn, Harr; exact Hinv).
  assert (Hreg : registered s' = registered s) by (unfold registered; rewrite Hn, Harr; reflexivity).
  destruct (FindTextureSlot_effects tag s' Hinv') as (idx1 & H1 & _).
  destruct (FindTextureID_effects tag s' Hinv') as (idx2 & H2 & _).
  rewrite H1, H2, Hreg. split; reflexivity.
Qed.

(** The capacity test.  The registry holds [MAX_TEXTURES] textures and
    [filename] decodes to an image that the method accepts and uploads
    (three or four channels).  Then [CreateGLTexture] returns [false]; its
    last call deletes the very texture it generated; the count and the
    array are as before, and so is every [FindTextureSlot] and
    [FindTextureID] result. *)
Theorem CreateGLTexture_at_capacity filename tag image s :
  registry_inv s ->
  m_loadedTextures s = MAX_TEXTURES ->
  stbi_load filename = Some image ->
  colorChannels image = 3 \/ colorChannels image = 4 ->
  exists s' id before,
    CreateGLTexture filename tag s = Ok false s' /\
    calls s' = calls s ++ before ++ [glDeleteTextures id] /\
    In (glGenTextures_call id) before /\
    (forall e, In e before -> e <> glDeleteTextures id) /\
    m_loadedTextures s' = m_loadedTextures s /\
    m_textureIDs s' = m_textureIDs s /\
    forall t,
      value (FindTextureSlot t s') = value (FindTextureSlot t s) /\
      value (FindTextureID t s') = value (FindTextureID t s) /\
      value (FindTextureSlot t s') = Some (slot_of t (registered s)) /\
      value (FindTextureID t s') = Some (handle_of t (registered s)).
Proof.
  intros Hinv Hfull Hload Hch.
  eexists _, (new_texture s filename image),
    (decode_calls filename image ++ setup_calls (new_texture s filename image)
     ++ upload_calls image ++ [cout (MaxTexturesLoaded filename)]).
  split; [apply (CreateGLTexture_full filename tag image); [assumption..| lia]|].
  split.
  { cbn [calls with_effects]. rewrite <- !app_assoc. reflexivity. }
  split; [unfold decode_calls, setup_calls, upload_calls; simpl; tauto|].
  split.
  { intros e He. unfold decode_calls, setup_calls, upload_calls in He. simpl in He.
    repeat (destruct He as [<-|He]; [discriminate|]). destruct He. }
  split; [reflexivity|]. split; [reflexivity|].
  intros t.
  destruct (lookups_depend_on_registry t s s Hinv eq_refl eq_refl) as [Hs Hi].
  destruct (lookups_depend_on_registry t s
              (with_effects s
                 (decode_calls filename image
                  ++ setup_calls (new_texture s filename image)
                  ++ upload_calls image
                  ++ [cout (MaxTexturesLoaded filename);
                      glDeleteTextures (new_texture s filename image)]) [])
              Hinv eq_refl eq_refl) as [Hs' Hi'].
  rewrite Hs, Hi, Hs', Hi'. repeat split.
Qed.

(** C9. On a registry that satisfies its invariant, [DestroyGLTextures]
    calls [glDeleteTextures] once for each registered texture, in slot
    order, and sets the count to zero, so nothing is registered any more.
    Called again, it makes no call at all and returns the very same state:
    no texture is deleted a second time, and two calls in a row leave the
    state that one call leaves. *)
Theorem DestroyGLTextures_idempotent s :
  registry_inv s ->
  exists s1,
    DestroyGLTextures s = Ok tt s1 /\
    calls s1 = calls s ++ map (fun t => glDeleteTextures (tex_ID t)) (registered s) /\
    m_loadedTextures s1 = 0 /\
    registered s1 = [] /\
    DestroyGLTextures s1 = Ok tt s1 /\
    (DestroyGLTextures ;; DestroyGLTextures) s = DestroyGLTextures s.
Proof.
  intros Hinv.
  assert (Hinv1 : registry_inv
                    (mkScene (m_pShaderManager s) 0 (m_textureIDs s) (m_objectMaterials s)
                             (calls s ++ slot_events delete_calls 0 (registered s))
                             (touched s ++ seqZ 0 (m_loadedTextures s)))).
  { destruct Hinv as [Hn Hlen]. split; [cbn; unfold MAX_TEXTURES; lia | exact Hlen]. }
  assert (Hagain : DestroyGLTextures
                     (mkScene (m_pShaderManager s) 0 (m_textureIDs s) (m_objectMaterials s)
                              (calls s ++ slot_events delete_calls 0 (registered s))
                              (touched s ++ seqZ 0 (m_loadedTextures s)))
                   = Ok tt
                       (mkScene (m_pShaderManager s) 0 (m_textureIDs s) (m_objectMaterials s)
                                (calls s ++ slot_events delete_calls 0 (registered s))
                                (touched s ++ seqZ 0 (m_loadedTextures s)))).
  { rewrite (DestroyGLTextures_effects _ Hinv1).
    cbn [m_pShaderManager m_loadedTextures m_textureIDs m_objectMaterials calls touched].
    unfold registered at 2. cbn [m_loadedTextures]. simpl take. simpl slot_events.
    change (seqZ 0 0) with (@nil Z). rewrite !app_nil_r. reflexivity. }
  eexists. split; [apply (DestroyGLTextures_effects _ Hinv)|].
  split; [cbn [calls]; rewrite slot_events_delete; reflexivity|].
  split; [reflexivity|]. split; [reflexivity|].
  split; [exact Hagain|].
  unfold bind. rewrite (DestroyGLTextures_effects _ Hinv). exact Hagain.
Qed.

(** *** Sequences of registrations *)

Lemma generated_app tr1 tr2 : generated (tr1 ++ tr2) = generated tr1 ++ generated tr2.
Proof.
  induction tr1 as [|e tr1 IH]; [reflexivity|].
  destruct e; simpl; rewrite IH; reflexivity.
Qed.

Lemma bind_Ok_inv {A B} (m : M A) (k : A -> M B) s b s' :
  bind m k s = Ok b s' -> exists a s1, m s = Ok a s1 /\ k a s1 = Ok b s'.
Proof.
  unfold bind. destruct (m s) as [a s1|c]; [|discriminate].
  intros Hk. exists a, s1. split; [reflexivity | exact Hk].
Qed.

(** The two ways a load can end on a registry that satisfies its
    invariant: nothing is registered and [false] is returned, or the
    texture takes the next free slot and [true] is returned. *)
Lemma CreateGLTexture_outcome filename tag s :
  registry_inv s ->
  (exists evs, CreateGLTexture filename tag s = Ok false (with_effects s evs [])) \/
  (exists image,
      m_loadedTextures s < MAX_TEXTURES /\
      CreateGLTexture filename tag s
      = Ok true (mkScene (m_pShaderManager s) (m_loadedTextures s + 1)
                         (<[Z.to_nat (m_loadedTextures s)
                            := mkTexture tag (new_texture s filename image)]> (m_textureIDs s))
                         (m_objectMaterials s)
                         (calls s ++ decode_calls filename image
                                  ++ setup_calls (new_texture s filename image)
                                  ++ upload_calls image)
                         (touched s ++ [m_loadedTextures s]))).
Proof.
  intros Hinv.
  destruct (stbi_load filename) as [image|] eqn:Hload.
  - assert (Hch : (colorChannels image = 3 \/ colorChannels image = 4)
                  \/ (colorChannels image <> 3 /\ colorChannels image <> 4)) by lia.
    destruct Hch as [Hch|[H3 H4]].
    + destruct (Z_lt_dec (m_loadedTextures s) MAX_TEXTURES) as [Hroom|Hfull].
      * right. exists image. split; [exact Hroom|].
        apply CreateGLTexture_registers; assumption.
      * left. eexists. apply (CreateGLTexture_full filename tag image); [assumption..|lia].
    + left. eexists. apply CreateGLTexture_unsupported; eassumption.
  - left. eexists. apply CreateGLTexture_no_image. exact Hload.
Qed.

Lemma registered_after_store s n x p mats tr idx :
  registry_inv s -> n = m_loadedTextures s -> n < MAX_TEXTURES ->
  registered (mkScene p (n + 1) (<[Z.to_nat n := x]> (m_textureIDs s)) mats tr idx)
  = registered s ++ [x].
Proof.
  intros [Hn Hlen] -> Hroom. unfold registered. cbn [m_loadedTextures m_textureIDs].
  replace (Z.to_nat (m_loadedTextures s + 1)) with (S (Z.to_nat (m_loadedTextures s))) by lia.
  rewrite (take_S_r _ _ x).
  - rewrite take_insert_ge by lia. reflexivity.
  - apply list_lookup_insert_eq. rewrite Hlen. unfold MAX_TEXTURES in *. lia.
Qed.

Lemma registry_inv_after_store s x p mats tr idx :
  registry_inv s -> m_loadedTextures s < MAX_TEXTURES ->
  registry_inv (mkScene p (m_loadedTextures s + 1)
                        (<[Z.to_nat (m_loadedTextures s) := x]> (m_textureIDs s)) mats tr idx).
Proof.
  intros [Hn Hlen] Hroom. split; cbn [m_loadedTextures m_textureIDs].
  - lia.
  - rewrite length_insert. exact Hlen.
Qed.

Lemma load_all_registered regs :
  forall s oks s',
    registry_inv s ->
    load_all regs s = Ok oks s' ->
    Forall (fun ok => ok = true) oks ->
    registry_inv s' /\
    map tex_tag (registered s') = map tex_tag (registered s) ++ map snd regs /\
    exists evs,
      calls s' = calls s ++ evs /\
      map tex_ID (registered s') = map tex_ID (registered s) ++ generated evs.
Proof.
  induction regs as [|[filename tag] regs IH]; intros s oks s' Hinv Hrun Hall.
  - injection Hrun as <- <-. split; [exact Hinv|]. split; [rewrite app_nil_r; reflexivity|].
    exists []. rewrite !app_nil_r. split; reflexivity.
  - cbn [load_all fst snd] in Hrun.
    apply bind_Ok_inv in Hrun as (ok & s1 & Hload & Hrun).
    apply bind_Ok_inv in Hrun as (oks' & s2 & Hrest & Hret).
    injection Hret as <- <-.
    apply Forall_cons in Hall as [-> Hall].
    destruct (CreateGLTexture_outcome filename tag s Hinv)
      as [(evs & Hfalse)|(image & Hroom & Htrue)]; [congruence|].
    rewrite Htrue in Hload. injection Hload as <-.
    destruct (IH _ _ _ (registry_inv_after_store s _ _ _ _ _ Hinv Hroom) Hrest Hall)
      as (Hinv2 & Htags & evs & Hcalls & Hids).
    rewrite (registered_after_store s) in Htags, Hids by (auto || reflexivity).
    split; [exact Hinv2|]. split.
    + rewrite Htags, map_app, <- app_assoc. reflexivity.
    + eexists. split.
      * rewrite Hcalls. cbn [calls]. rewrite <- app_assoc. reflexivity.
      * rewrite Hids, map_app, !generated_app, <- app_assoc. reflexivity.
Qed.

Lemma registry_inv_new p junk : registry_inv (SceneManager_new p junk).
Proof. split; [cbn; unfold MAX_TEXTURES; lia | reflexivity]. Qed.

(** C5. Start from a new object and let every registration of the
    sequence [regs] succeed.  Then the registered entries carry the tags
    of [regs] in order and the texture names the driver generated, in
    order; [BindGLTextures] activates unit [GL_TEXTURE0 + k] and binds the
    texture of the [k]-th registration to it, for [k = 0, 1, ...] in
    turn; [FindTextureSlot] returns the position of the first
    registration with the given tag, and [-1] for a tag that was not
    registered. *)
Theorem slots_follow_registration_order p junk regs oks s :
  load_all regs (SceneManager_new p junk) = Ok oks s ->
  Forall (fun ok => ok = true) oks ->
  map tex_tag (registered s) = map snd regs /\
  map tex_ID (registered s) = generated (calls s) /\
  BindGLTextures s
  = Ok tt (with_effects s
             (concat (imap (fun k t => [glActiveTexture (GL_TEXTURE0 + Z.of_nat k);
                                        glBindTexture (tex_ID t)])
                           (registered s)))
             (seqZ 0 (Z.of_nat (length regs)))) /\
  (forall tag k,
      map snd regs !! k = Some tag ->
      (forall j, (j < k)%nat -> map snd regs !! j <> Some tag) ->
      value (FindTextureSlot tag s) = Some (Z.of_nat k)) /\
  (forall tag, ~ In tag (map snd regs) -> value (FindTextureSlot tag s) = Some (-1)).
Proof.
  intros Hrun Hall.
  destruct (load_all_registered regs _ _ _ (registry_inv_new p junk) Hrun Hall)
    as (Hinv & Htags & evs & Hcalls & Hids).
  change (registered (SceneManager_new p junk)) with (@nil TEXTURE_INFO) in Htags, Hids.
  change (calls (SceneManager_new p junk)) with (@nil event) in Hcalls.
  cbn [map app] in Htags, Hids, Hcalls.
  assert (Hcount : m_loadedTextures s = Z.of_nat (length regs)).
  { pose proof (registered_length s Hinv) as Hlen.
    apply (f_equal (@length string)) in Htags. rewrite !length_map in Htags.
    destruct Hinv as [Hn _]. lia. }
  split; [exact Htags|]. split; [rewrite Hcalls; exact Hids|]. split.
  { rewrite (BindGLTextures_effects s Hinv), slot_events_bind, Hcount. reflexivity. }
  split.
  - intros tag k Hk Hfirst.
    destruct (FindTextureSlot_effects tag s Hinv) as (idx & Hfind & _).
    rewrite Hfind. cbn [value]. f_equal. unfold slot_of.
    rewrite <- Htags in Hk, Hfirst.
    apply list_lookup_fmap_Some in Hk as (t & Htag & Ht).
    assert (Hf : list_find (fun t => tex_tag t = tag) (registered s) = Some (k, t)).
    { apply list_find_Some. split; [exact Ht|]. split; [congruence|].
      intros j u Hu Hj Hmatch. apply (Hfirst j Hj).
      rewrite list_lookup_fmap, Hu. simpl. congruence. }
    rewrite Hf. reflexivity.
  - intros tag Habsent.
    destruct (FindTextureSlot_effects tag s Hinv) as (idx & Hfind & _).
    rewrite Hfind. cbn [value]. f_equal. unfold slot_of.
    assert (Hf : list_find (fun t => tex_tag t = tag) (registered s) = None).
    { apply list_find_None, Forall_forall. intros t Ht Hmatch. apply Habsent.
      rewrite <- Htags, <- Hmatch. apply in_map, list_elem_of_In, Ht. }
    rewrite Hf. reflexivity.
Qed.

(** *** The invariant along any use of the registry *)

Lemma seqZ_below n : Forall (fun i => 0 <= i < n) (seqZ 0 n).
Proof. apply Forall_seqZ. intros i Hi. lia. Qed.

Lemma BindGLTextures_reads s :
  registry_inv s ->
  exists s', BindGLTextures s = Ok tt s' /\ registry_inv s' /\ reads_below_count s s'.
Proof.
  intros Hinv. eexists. split; [apply BindGLTextures_effects, Hinv|].
  split; [exact Hinv|]. split; [reflexivity|].
  eexists. split; [reflexivity | apply seqZ_below].
Qed.

Lemma DestroyGLTextures_reads s :
  registry_inv s ->
  exists s', DestroyGLTextures s = Ok tt s' /\ registry_inv s' /\ reads_below_count s s'.
Proof.
  intros Hinv. eexists. split; [apply DestroyGLTextures_effects, Hinv|].
  split; [|split; [reflexivity | eexists; split; [reflexivity | apply seqZ_below]]].
  destruct Hinv as [Hn Hlen]. split; [cbn; unfold MAX_TEXTURES; lia | exact Hlen].
Qed.

Lemma FindTextureID_reads tag s :
  registry_inv s ->
  exists v s', FindTextureID tag s = Ok v s' /\ registry_inv s' /\ reads_below_count s s'.
Proof.
  intros Hinv. destruct (FindTextureID_effects tag s Hinv) as (idx & Hrun & Hidx).
  eexists _, _. split; [exact Hrun|]. split; [exact Hinv|]. split; [reflexivity|].
  exists idx. split; [reflexivity | exact Hidx].
Qed.

Lemma FindTextureSlot_reads tag s :
  registry_inv s ->
  exists v s', FindTextureSlot tag s = Ok v s' /\ registry_inv s' /\ reads_below_count s s'.
Proof.
  intros Hinv. destruct (FindTextureSlot_effects tag s Hinv) as (idx & Hrun & Hidx).
  eexists _, _. split; [exact Hrun|]. split; [exact Hinv|]. split; [reflexivity|].
  exists idx. split; [reflexivity | exact Hidx].
Qed.

Lemma reads_below_in_array s s' :
  registry_inv s -> reads_below_count s s' ->
  Forall in_array (touched s) -> Forall in_array (touched s').
Proof.
  intros [Hn _] (_ & idx & -> & Hidx) Hs. apply Forall_app. split; [exact Hs|].
  eapply Forall_impl; [exact Hidx|]. unfold in_array. simpl. intros; lia.
Qed.

Lemma run_op_inv o s :
  registry_inv s -> Forall in_array (touched s) ->
  exists s', run_op o s = Ok tt s' /\ registry_inv s' /\ Forall in_array (touched s').
Proof.
  intros Hinv Hs. destruct o as [filename tag| | |tag|tag]; cbn [run_op].
  - destruct (CreateGLTexture_outcome filename tag s Hinv)
      as [(evs & Hfalse)|(image & Hroom & Htrue)].
    + eexists. unfold bind. rewrite Hfalse. split; [reflexivity|].
      split; [exact Hinv|]. cbn [touched with_effects]. rewrite app_nil_r. exact Hs.
    + eexists. unfold bind. rewrite Htrue. split; [reflexivity|].
      split; [apply registry_inv_after_store; assumption|].
      cbn [touched]. apply Forall_app. split; [exact Hs|].
      constructor; [|constructor]. destruct Hinv as [Hn _]. unfold in_array. lia.
  - destruct (BindGLTextures_reads s Hinv) as (s' & Hrun & Hinv' & Hreads).
    exists s'. eauto using reads_below_in_array.
  - destruct (DestroyGLTextures_reads s Hinv) as (s' & Hrun & Hinv' & Hreads).
    exists s'. eauto using reads_below_in_array.
  - destruct (FindTextureID_reads tag s Hinv) as (v & s' & Hrun & Hinv' & Hreads).
    exists s'. unfold bind. rewrite Hrun. eauto using reads_below_in_array.
  - destruct (FindTextureSlot_reads tag s Hinv) as (v & s' & Hrun & Hinv' & Hreads).
    exists s'. unfold bind. rewrite Hrun. eauto using reads_below_in_array.
Qed.

Lemma run_ops_inv ops :
  forall s,
    registry_inv s -> Forall in_array (touched s) ->
    exists s', run_ops ops s = Ok tt s' /\ registry_inv s' /\ Forall in_array (touched s').
Proof.
  induction ops as [|o ops IH]; intros s Hinv Hs.
  - exists s. auto.
  - destruct (run_op_inv o s Hinv Hs) as (s1 & Hrun1 & Hinv1 & Hs1).
    destruct (IH s1 Hinv1 Hs1) as (s2 & Hrun2 & Hinv2 & Hs2).
    exists s2. cbn [run_ops]. unfold bind. rewrite Hrun1. auto.
Qed.

(** C10. Whatever sequence of [CreateGLTexture], [BindGLTextures],
    [DestroyGLTextures], [FindTextureID] and [FindTextureSlot] calls is
    made on a new object, none of them leaves the array: the sequence
    runs to its end, and in the state [s] it reaches
    [0 <= m_loadedTextures <= MAX_TEXTURES] holds, every index of
    [m_textureIDs] used so far lies in [0, MAX_TEXTURES), and a bind, a
    destroy or a scan made from [s] reads only indices below
    [m_loadedTextures s] and writes none. *)
Theorem registry_count_in_bounds p junk ops :
  exists s,
    run_ops ops (SceneManager_new p junk) = Ok tt s /\
    0 <= m_loadedTextures s <= MAX_TEXTURES /\
    length (m_textureIDs s) = Z.to_nat MAX_TEXTURES /\
    Forall (fun i => 0 <= i < MAX_TEXTURES) (touched s) /\
    (exists s', BindGLTextures s = Ok tt s' /\ reads_below_count s s') /\
    (exists s', DestroyGLTextures s = Ok tt s' /\ reads_below_count s s') /\
    (forall tag, exists v s', FindTextureID tag s = Ok v s' /\ reads_below_count s s') /\
    (forall tag, exists v s', FindTextureSlot tag s = Ok v s' /\ reads_below_count s s').
Proof.
  destruct (run_ops_inv ops (SceneManager_new p junk) (registry_inv_new p junk))
    as (s & Hrun & Hinv & Hs); [constructor|].
  exists s. split; [exact Hrun|]. split; [apply Hinv|]. split; [apply Hinv|].
  split; [exact Hs|]. split; [|split; [|split]].
  - destruct (BindGLTextures_reads s Hinv) as (s' & ? & _ & ?). eauto.
  - destruct (DestroyGLTextures_reads s Hinv) as (s' & ? & _ & ?). eauto.
  - intros tag. destruct (FindTextureID_reads tag s Hinv) as (v & s' & ? & _ & ?). eauto.
  - intros tag. destruct (FindTextureSlot_reads tag s Hinv) as (v & s' & ? & _ & ?). eauto.
Qed.

End TextureRegistry.

(** ** Scene Composer *)

Section Frame.

Context `{Glm} `{!World}.

Lemma issues_seq m1 m2 d1 d2 :
  issues m1 d1 -> issues m2 d2 -> issues (m1 ;; m2) (d1 ++ d2).
Proof.
  intros H1 H2 s Hs.
  destruct (H1 s Hs) as (evs1 & idx1 & Hrun1 & Hd1).
  destruct (H2 (with_effects s evs1 idx1) Hs) as (evs2 & idx2 & Hrun2 & Hd2).
  exists (evs1 ++ evs2), (idx1 ++ idx2). split.
  - unfold bind. rewrite Hrun1, Hrun2, with_effects_twice. reflexivity.
  - rewrite draws_app, Hd1, Hd2. reflexivity.
Qed.

Lemma issues_draws m d d' : issues m d' -> d' = d -> issues m d.
Proof. intros Hm <-. exact Hm. Qed.

Lemma shader_call_effects name v p s :
  m_pShaderManager s = Some p ->
  shader_call name v s = Ok tt (with_effects s [shader_set name v] []).
Proof. intros Hp. unfold shader_call. rewrite Hp. apply emit_effects. Qed.

Lemma issues_draw p : issues (emit (DrawMesh p)) [p].
Proof. intros s _. exists [DrawMesh p], []. split; [apply emit_effects | reflexivity]. Qed.

Lemma issues_SetTransformations scaleXYZ rx ry rz pos off :
  issues (SetTransformations scaleXYZ rx ry rz pos off) [].
Proof.
  intros s [[p Hp] _]. eexists _, []. split.
  - unfold SetTransformations. rewrite bind_get, Hp.
    apply (shader_call_effects _ _ p _ Hp).
  - reflexivity.
Qed.

Lemma issues_SetTextureUVScale u v : issues (SetTextureUVScale u v) [].
Proof.
  intros s [[p Hp] _]. eexists _, []. split.
  - unfold SetTextureUVScale. rewrite bind_get, Hp.
    apply (shader_call_effects _ _ p _ Hp).
  - reflexivity.
Qed.

Lemma issues_SetShaderMaterial tag : issues (SetShaderMaterial tag) [].
Proof.
  intros s [[p Hp] _].
  destruct (m_objectMaterials s) as [|m mats] eqn:Hm.
  - exists [], []. split; [|reflexivity].
    unfold SetShaderMaterial. rewrite bind_get, Hm, with_effects_nil. reflexivity.
  - eexists _, []. split; [apply (SetShaderMaterial_writes tag p m mats s Hp Hm)|].
    reflexivity.
Qed.

Lemma issues_SetShaderTexture tag : issues (SetShaderTexture tag) [].
Proof.
  intros s [[p Hp] Hinv].
  unfold SetShaderTexture. rewrite bind_get, Hp.
  rewrite (bind_effects _ _ s tt [shader_set g_UseTextureName (UInt 1)] [])
    by apply (shader_call_effects _ _ p _ Hp).
  destruct (FindTextureSlot_effects tag (with_effects s [shader_set g_UseTextureName (UInt 1)] [])
                                    Hinv) as (idx & Hfind & _).
  unfold bind at 1. rewrite Hfind, with_effects_twice.
  destruct (slot_of tag _ =? -1).
  - cbn [negb]. eexists _, _. split.
    + rewrite (bind_effects _ _ _ tt [cout (TextureNotFound tag)] []) by apply emit_effects.
      rewrite (shader_call_effects _ _ p) by exact Hp.
      rewrite !with_effects_twice. reflexivity.
    + reflexivity.
  - cbn [negb]. eexists _, _. split.
    + rewrite (shader_call_effects _ _ p) by exact Hp.
      rewrite !with_effects_twice. reflexivity.
    + reflexivity.
Qed.

Ltac publish_or_draw :=
  first [ apply issues_SetTransformations
        | apply issues_SetShaderTexture
        | apply issues_SetShaderMaterial
        | apply issues_SetTextureUVScale
        | apply issues_draw ].

Ltac sequence_of step :=
  repeat (eapply issues_seq; [step|]); step.

Lemma RenderLamp_issues basePos : issues (RenderLamp basePos) lamp_draws.
Proof.
  eapply issues_draws;
    [ unfold RenderLamp, DrawBoxMesh, DrawCylinderMesh, DrawConeMesh, DrawSphereMesh;
      cbv zeta; sequence_of publish_or_draw
    | reflexivity ].
Qed.

Lemma RenderScene_issues : issues RenderScene frame_draws.
Proof.
  eapply issues_draws;
    [ unfold RenderScene, DrawPlaneMesh, DrawBoxMesh, DrawCylinderMesh, DrawSphereMesh;
      cbv zeta;
      sequence_of ltac:(first [apply RenderLamp_issues | publish_or_draw])
    | reflexivity ].
Qed.

(** *** Scene setup *)

Lemma keeps_ready_seq {A B} (m1 : M A) (m2 : M B) :
  keeps_ready m1 -> keeps_ready m2 -> keeps_ready (m1 ;; m2).
Proof.
  intros H1 H2 s Hs.
  destruct (H1 s Hs) as (a & s1 & Hrun1 & Hs1).
  destruct (H2 s1 Hs1) as (b & s2 & Hrun2 & Hs2).
  exists b, s2. unfold bind. rewrite Hrun1. auto.
Qed.

Lemma issues_keeps_ready m d : issues m d -> keeps_ready m.
Proof.
  intros Hm s Hs. destruct (Hm s Hs) as (evs & idx & Hrun & _).
  eexists _, _. split; [exact Hrun | exact Hs].
Qed.

Lemma issues_shader_call name v : issues (shader_call name v) [].
Proof.
  intros s [[p Hp] _]. eexists _, []. split; [apply (shader_call_effects _ _ p _ Hp)|].
  reflexivity.
Qed.

Lemma issues_load p : issues (emit (LoadMesh p)) [].
Proof. intros s _. exists [LoadMesh p], []. split; [apply emit_effects | reflexivity]. Qed.

Lemma CreateGLTexture_keeps_ready filename tag : keeps_ready (CreateGLTexture filename tag).
Proof.
  intros s [Hp Hinv].
  destruct (CreateGLTexture_outcome filename tag s Hinv)
    as [(evs & Hfalse)|(image & Hroom & Htrue)].
  - eexists _, _. split; [exact Hfalse|]. split; assumption.
  - eexists _, _. split; [exact Htrue|]. split; [exact Hp|].
    apply registry_inv_after_store; assumption.
Qed.

Lemma BindGLTextures_keeps_ready : keeps_ready BindGLTextures.
Proof.
  intros s [Hp Hinv]. eexists _, _.
  split; [apply BindGLTextures_effects, Hinv|]. split; assumption.
Qed.

Lemma DefineObjectMaterials_keeps_ready : keeps_ready DefineObjectMaterials.
Proof.
  intros s Hs. eexists _, _. split; [apply DefineObjectMaterials_catalog|]. exact Hs.
Qed.

Lemma SetupSceneLights_issues : issues SetupSceneLights [].
Proof.
  eapply issues_draws;
    [ unfold SetupSceneLights, setVec3Value, setFloatValue, setBoolValue;
      sequence_of ltac:(apply issues_shader_call)
    | reflexivity ].
Qed.

Lemma PrepareScene_keeps_ready : keeps_ready PrepareScene.
Proof.
  unfold PrepareScene, LoadSceneTextures.
  repeat first
         [ apply CreateGLTexture_keeps_ready
         | apply BindGLTextures_keeps_ready
         | apply DefineObjectMaterials_keeps_ready
         | apply (issues_keeps_ready _ _ SetupSceneLights_issues)
         | apply (issues_keeps_ready _ _ (issues_load _))
         | apply keeps_ready_seq ].
Qed.

Lemma new_scene_ready p junk : shading_ready (SceneManager_new (Some p) junk).
Proof. split; [exists p; reflexivity | apply registry_inv_new]. Qed.

(** C1, as the code has it.  On every platform, [PrepareScene] on a new
    object with a shader manager completes, and one [RenderScene] from the
    state it leaves completes, changes no field of the object, and issues
    36 draw commands in this order: the floor plane; lamp 1 and then lamp
    2, ten primitives each (box, cylinder, cone, cylinder, sphere,
    cylinder, sphere, cylinder, cone, sphere), 20 lamp draws in all; the
    two book boxes; the five jar parts (cylinder, sphere, cylinder,
    sphere, sphere); the eight window parts (plane, five boxes, two
    planes). *)
Theorem RenderScene_draw_sequence p junk :
  exists s,
    PrepareScene (SceneManager_new (Some p) junk) = Ok tt s /\
    exists evs idx,
      RenderScene s = Ok tt (with_effects s evs idx) /\
      draws evs
      = [Plane]
        ++ [Box; Cylinder; Cone; Cylinder; Sphere; Cylinder; Sphere; Cylinder; Cone; Sphere]
        ++ [Box; Cylinder; Cone; Cylinder; Sphere; Cylinder; Sphere; Cylinder; Cone; Sphere]
        ++ [Box; Box]
        ++ [Cylinder; Sphere; Cylinder; Sphere; Sphere]
        ++ [Plane; Box; Box; Box; Box; Box; Plane; Plane] /\
      length (draws evs) = 36%nat.
Proof.
  destruct (PrepareScene_keeps_ready _ (new_scene_ready p junk)) as ([] & s & Hrun & Hs).
  exists s. split; [exact Hrun|].
  destruct (RenderScene_issues s Hs) as (evs & idx & Hframe & Hdraws).
  exists evs, idx. split; [exact Hframe|]. rewrite Hdraws. split; reflexivity.
Qed.

End Frame.

(** ** Resources and lookups of the texture registry *)

Section RegistryResources.
Context `{Glm} `{!World}.

Lemma deleted_app tr1 tr2 : deleted (tr1 ++ tr2) = deleted tr1 ++ deleted tr2.
Proof.
  induction tr1 as [|e tr1 IH]; [reflexivity|].
  destruct e; simpl; rewrite IH; reflexivity.
Qed.

Lemma frees_app tr1 tr2 : frees (tr1 ++ tr2) = (frees tr1 + frees tr2)%nat.
Proof.
  induction tr1 as [|e tr1 IH]; [reflexivity|].
  destruct e; simpl; rewrite IH; reflexivity.
Qed.

(** X1. On a registry within its invariant the two lookups make no call
    and change no field; both answer for the first registered entry that
    carries the tag, [FindTextureSlot] with its index and [FindTextureID]
    with its [ID] converted to [int]; both answer [-1] when no registered
    entry carries the tag, whatever the slots beyond the count hold. *)
Theorem lookups_first_match tag s :
  registry_inv s ->
  (exists idx, FindTextureSlot tag s = Ok (slot_of tag (registered s)) (with_effects s [] idx)) /\
  (exists idx, FindTextureID tag s = Ok (handle_of tag (registered s)) (with_effects s [] idx)) /\
  (forall k t,
      registered s !! k = Some t -> tex_tag t = tag ->
      (forall j u, (j < k)%nat -> registered s !! j = Some u -> tex_tag u <> tag) ->
      slot_of tag (registered s) = Z.of_nat k /\
      handle_of tag (registered s) = int_of_uint32 (tex_ID t)) /\
  (Forall (fun t => tex_tag t <> tag) (registered s) ->
   slot_of tag (registered s) = -1 /\ handle_of tag (registered s) = -1).
Proof.
  intros Hinv.
  destruct (FindTextureSlot_effects tag s Hinv) as (idx1 & H1 & _).
  destruct (FindTextureID_effects tag s Hinv) as (idx2 & H2 & _).
  split; [eauto|]. split; [eauto|]. split.
  - intros k t Hk Htag Hfirst.
    assert (Hf : list_find (fun t => tex_tag t = tag) (registered s) = Some (k, t)).
    { apply list_find_Some. split; [exact Hk|]. split; [exact Htag|].
      intros j u Hu Hj. exact (Hfirst j u Hj Hu). }
    unfold slot_of, handle_of. rewrite Hf. split; reflexivity.
  - intros Hnone.
    assert (Hf : list_find (fun t => tex_tag t = tag) (registered s) = None)
      by (apply list_find_None; exact Hnone).
    unfold slot_of, handle_of. rewrite Hf. split; reflexivity.
Qed.

Lemma uploads_dec filename :
  uploads filename \/
  stbi_load filename = None \/
  (exists image, stbi_load filename = Some image /\
                 colorChannels image <> 3 /\ colorChannels image <> 4).
Proof.
  unfold uploads. destruct (stbi_load filename) as [image|]; [|auto].
  assert (Hch : (colorChannels image = 3 \/ colorChannels image = 4)
                \/ (colorChannels image <> 3 /\ colorChannels image <> 4)) by lia.
  destruct Hch as [Hch|Hch]; [left | right; right]; eauto.
Qed.

Lemma CreateGLTexture_keeps filename tag s b s' :
  registry_inv s ->
  CreateGLTexture filename tag s = Ok b s' ->
  registry_inv s' /\
  m_pShaderManager s' = m_pShaderManager s /\
  m_objectMaterials s' = m_objectMaterials s /\
  draws (calls s') = draws (calls s).
Proof.
  intros Hinv Hrun.
  destruct (CreateGLTexture_outcome filename tag s Hinv)
    as [(evs & Hfalse)|(image & Hroom & Htrue)].
  - assert (Hdraws : draws evs = []).
    { destruct (uploads_dec filename)
        as [(image & Hload & Hch)|[Hnone|(image & Hload & H3 & H4)]].
      - destruct (Z_lt_dec (m_loadedTextures s) MAX_TEXTURES) as [Hroom|Hfull].
        + rewrite (CreateGLTexture_registers filename tag image s Hload Hch Hinv Hroom)
            in Hfalse. discriminate Hfalse.
        + rewrite (CreateGLTexture_full filename tag image s Hload Hch) in Hfalse by lia.
          injection Hfalse as Hevs. apply app_inv_head in Hevs. subst evs. reflexivity.
      - rewrite (CreateGLTexture_no_image filename tag s Hnone) in Hfalse.
        injection Hfalse as Hevs. apply app_inv_head in Hevs. subst evs. reflexivity.
      - rewrite (CreateGLTexture_unsupported filename tag image s Hload H3 H4) in Hfalse.
        injection Hfalse as Hevs. apply app_inv_head in Hevs. subst evs. reflexivity. }
    rewrite Hfalse in Hrun. injection Hrun as _ <-.
    split; [exact Hinv|]. split; [reflexivity|]. split; [reflexivity|].
    cbn [calls with_effects]. rewrite draws_app, Hdraws, app_nil_r. reflexivity.
  - rewrite Htrue in Hrun. injection Hrun as _ <-.
    split; [apply registry_inv_after_store; assumption|].
    split; [reflexivity|]. split; [reflexivity|].
    cbn [calls]. rewrite !draws_app, app_nil_r. reflexivity.
Qed.

Lemma CreateGLTexture_returns filename tag s :
  registry_inv s -> exists b s', CreateGLTexture filename tag s = Ok b s'.
Proof.
  intros Hinv.
  destruct (CreateGLTexture_outcome filename tag s Hinv)
    as [(evs & Hfalse)|(image & Hroom & Htrue)]; eauto.
Qed.

Lemma CreateGLTexture_appends filename tag image s :
  registry_inv s ->
  stbi_load filename = Some image ->
  colorChannels image = 3 \/ colorChannels image = 4 ->
  m_loadedTextures s < MAX_TEXTURES ->
  exists s',
    CreateGLTexture filename tag s = Ok true s' /\
    registry_inv s' /\
    m_loadedTextures s' = m_loadedTextures s + 1 /\
    calls s' = calls s ++ decode_calls filename image
                       ++ setup_calls (new_texture s filename image)
                       ++ upload_calls image /\
    registered s' = registered s ++ [mkTexture tag (new_texture s filename image)].
Proof.
  intros Hinv Hload Hch Hroom.
  eexists. split; [apply (CreateGLTexture_registers filename tag image); assumption|].
  split; [apply registry_inv_after_store; assumption|].
  split; [reflexivity|]. split; [reflexivity|].
  apply (registered_after_store s); [exact Hinv | reflexivity | exact Hroom].
Qed.

(** X2. On a registry within its invariant [CreateGLTexture] always
    returns, keeps the invariant and never touches the shader manager
    pointer or the material catalog.  It returns [true] exactly when the
    file decodes to an image of three or four channels and fewer than
    [MAX_TEXTURES] textures are registered; then the count grows by one.
    When it returns [false] the count and the array are as before. *)
Theorem CreateGLTexture_succeeds_iff filename tag s :
  registry_inv s ->
  exists b s',
    CreateGLTexture filename tag s = Ok b s' /\
    registry_inv s' /\
    m_pShaderManager s' = m_pShaderManager s /\
    m_objectMaterials s' = m_objectMaterials s /\
    (b = true <-> uploads filename /\ m_loadedTextures s < MAX_TEXTURES) /\
    (b = true -> m_loadedTextures s' = m_loadedTextures s + 1) /\
    (b = false -> m_loadedTextures s' = m_loadedTextures s /\
                  m_textureIDs s' = m_textureIDs s).
Proof.
  intros Hinv.
  destruct (uploads_dec filename) as [(image & Hload & Hch)|[Hnone|(image & Hload & H3 & H4)]].
  - destruct (Z_lt_dec (m_loadedTextures s) MAX_TEXTURES) as [Hroom|Hfull].
    + eexists _, _. split; [apply (CreateGLTexture_registers filename tag image); assumption|].
      split; [apply registry_inv_after_store; assumption|].
      split; [reflexivity|]. split; [reflexivity|]. split.
      * split; [intros _; split; [exists image; auto | exact Hroom] | reflexivity].
      * split; [reflexivity | discriminate].
    + eexists _, _. split; [apply (CreateGLTexture_full filename tag image); [assumption..|lia]|].
      split; [exact Hinv|]. split; [reflexivity|]. split; [reflexivity|]. split.
      * split; [discriminate | intros [_ Hroom]; contradiction].
      * split; [discriminate | intros _; split; reflexivity].
  - eexists _, _. split; [apply CreateGLTexture_no_image; exact Hnone|].
    split; [exact Hinv|]. split; [reflexivity|]. split; [reflexivity|]. split.
    + split; [discriminate | intros [(image & Hload & _) _]; congruence].
    + split; [discriminate | intros _; split; reflexivity].
  - eexists _, _. split; [apply (CreateGLTexture_unsupported filename tag image); assumption|].
    split; [exact Hinv|]. split; [reflexivity|]. split; [reflexivity|]. split.
    + split; [discriminate|]. intros [(image' & Hload' & Hch) _].
      rewrite Hload in Hload'. injection Hload' as <-. lia.
    + split; [discriminate | intros _; split; reflexivity].
Qed.

(** X3. What a load on a registry within its invariant acquires and
    releases.  When the file does not decode, no OpenGL call is made and
    nothing is freed.  When it decodes, the image is freed exactly once and
    exactly one texture is generated; that texture is registered when the
    load returns [true], deleted when the registry is full, and neither
    registered nor deleted when the image has a channel count other than
    three or four. *)
Theorem CreateGLTexture_resources filename tag s :
  registry_inv s ->
  exists b s' evs,
    CreateGLTexture filename tag s = Ok b s' /\
    calls s' = calls s ++ evs /\
    match stbi_load filename with
    | None =>
        b = false /\ frees evs = O /\ Forall (fun e => is_gl_call e = false) evs
    | Some image =>
        let id := new_texture s filename image in
        frees evs = 1%nat /\
        generated evs = [id] /\
        if (colorChannels image =? 3) || (colorChannels image =? 4) then
          if b then deleted evs = [] /\ registered s' = registered s ++ [mkTexture tag id]
          else deleted evs = [id] /\ registered s' = registered s
        else b = false /\ deleted evs = [] /\ registered s' = registered s
    end.
Proof.
  intros Hinv.
  destruct (uploads_dec filename) as [(image & Hload & Hch)|[Hnone|(image & Hload & H3 & H4)]].
  - rewrite Hload.
    assert (Hok : (colorChannels image =? 3) || (colorChannels image =? 4) = true)
      by (destruct Hch as [-> | ->]; reflexivity).
    rewrite Hok.
    destruct (Z_lt_dec (m_loadedTextures s) MAX_TEXTURES) as [Hroom|Hfull].
    + eexists _, _, _.
      split; [apply (CreateGLTexture_registers filename tag image); assumption|].
      split; [reflexivity|]. cbv zeta. split; [reflexivity|]. split; [reflexivity|].
      split; [reflexivity|].
      apply (registered_after_store s); [exact Hinv | reflexivity | exact Hroom].
    + eexists _, _, _.
      split; [apply (CreateGLTexture_full filename tag image); [assumption..|lia]|].
      split; [reflexivity|]. cbv zeta. split; [reflexivity|]. split; [reflexivity|].
      split; reflexivity.
  - rewrite Hnone. eexists _, _, _.
    split; [apply CreateGLTexture_no_image; exact Hnone|].
    split; [reflexivity|]. split; [reflexivity|]. split; [reflexivity|].
    repeat constructor.
  - rewrite Hload.
    assert (Hbad : (colorChannels image =? 3) || (colorChannels image =? 4) = false).
    { apply Z.eqb_neq in H3, H4. rewrite H3, H4. reflexivity. }
    rewrite Hbad. eexists _, _, _.
    split; [apply (CreateGLTexture_unsupported filename tag image); assumption|].
    split; [reflexivity|]. cbv zeta. split; [reflexivity|]. split; [reflexivity|].
    split; [reflexivity|]. split; reflexivity.
Qed.

Lemma slot_of_app_found tag l x :
  slot_of tag l <> -1 ->
  slot_of tag (l ++ [x]) = slot_of tag l /\ handle_of tag (l ++ [x]) = handle_of tag l.
Proof.
  unfold slot_of, handle_of. intros Hfound.
  destruct (list_find (fun t => tex_tag t = tag) l) as [[k t]|] eqn:Hf; [|contradiction].
  rewrite (list_find_app_l _ l [x] k t Hf). split; reflexivity.
Qed.

Lemma slot_of_app_new tag l x :
  slot_of tag l = -1 ->
  slot_of tag (l ++ [x])
  = (if String.eqb (tex_tag x) tag then Z.of_nat (length l) else -1) /\
  handle_of tag (l ++ [x])
  = (if String.eqb (tex_tag x) tag then int_of_uint32 (tex_ID x) else -1).
Proof.
  unfold slot_of, handle_of. intros Hnone.
  destruct (list_find (fun t => tex_tag t = tag) l) as [[k t]|] eqn:Hf; [lia|].
  rewrite (list_find_app_r _ l [x] Hf). cbn [list_find].
  destruct (String.eqb_spec (tex_tag x) tag) as [Heq|Hne].
  - rewrite decide_True by exact Heq. simpl. split; reflexivity.
  - rewrite decide_False by exact Hne. simpl. split; reflexivity.
Qed.

(** X4. Registration and lookup.  A load of a three- or four-channel
    image into a registry with room returns [true] and appends the new
    entry.  Afterwards a tag that was already registered resolves to the
    slot and handle it had before (a second registration of a tag is never
    found); a tag that was not registered resolves to the new slot, which
    is the old count, and to the new texture, when it is the tag just
    given, and to [-1] otherwise. *)
Theorem register_then_lookup filename tag image s :
  registry_inv s ->
  stbi_load filename = Some image ->
  colorChannels image = 3 \/ colorChannels image = 4 ->
  m_loadedTextures s < MAX_TEXTURES ->
  exists s',
    CreateGLTexture filename tag s = Ok true s' /\
    registered s' = registered s ++ [mkTexture tag (new_texture s filename image)] /\
    forall t,
      (slot_of t (registered s) <> -1 ->
       value (FindTextureSlot t s') = Some (slot_of t (registered s)) /\
       value (FindTextureID t s') = Some (handle_of t (registered s))) /\
      (slot_of t (registered s) = -1 -> t = tag ->
       value (FindTextureSlot t s') = Some (m_loadedTextures s) /\
       value (FindTextureID t s')
       = Some (int_of_uint32 (new_texture s filename image))) /\
      (slot_of t (registered s) = -1 -> t <> tag ->
       value (FindTextureSlot t s') = Some (-1) /\
       value (FindTextureID t s') = Some (-1)).
Proof.
  intros Hinv Hload Hch Hroom.
  destruct (CreateGLTexture_appends filename tag image s Hinv Hload Hch Hroom)
    as (s' & Hrun & Hinv' & _ & _ & Hreg).
  exists s'. split; [exact Hrun|]. split; [exact Hreg|].
  intros t.
  destruct (lookups_depend_on_registry t s' s' Hinv' eq_refl eq_refl) as [Hslot Hid].
  rewrite Hslot, Hid, Hreg.
  pose proof (registered_length s Hinv) as Hlen. destruct Hinv as [Hn _].
  split; [|split].
  - intros Hfound.
    destruct (slot_of_app_found t (registered s)
                (mkTexture tag (new_texture s filename image)) Hfound) as [-> ->].
    split; reflexivity.
  - intros Hnew ->.
    destruct (slot_of_app_new tag (registered s)
                (mkTexture tag (new_texture s filename image)) Hnew) as [-> ->].
    cbn [tex_tag tex_ID]. rewrite String.eqb_refl, Hlen, Z2Nat.id by lia.
    split; reflexivity.
  - intros Hnew Hne.
    destruct (slot_of_app_new t (registered s)
                (mkTexture tag (new_texture s filename image)) Hnew) as [-> ->].
    cbn [tex_tag tex_ID].
    assert (Hneq : String.eqb tag t = false) by (apply String.eqb_neq; congruence).
    rewrite Hneq. split; reflexivity.
Qed.

Lemma generated_slot_events_bind i l : generated (slot_events bind_calls i l) = [].
Proof. revert i. induction l as [|t l IH]; intros i; [reflexivity | simpl; apply IH]. Qed.

Lemma deleted_slot_events_bind i l : deleted (slot_events bind_calls i l) = [].
Proof. revert i. induction l as [|t l IH]; intros i; [reflexivity | simpl; apply IH]. Qed.

Lemma generated_slot_events_delete i l : generated (slot_events delete_calls i l) = [].
Proof. revert i. induction l as [|t l IH]; intros i; [reflexivity | simpl; apply IH]. Qed.

Lemma deleted_slot_events_delete i l :
  deleted (slot_events delete_calls i l) = map tex_ID l.
Proof.
  revert i. induction l as [|t l IH]; intros i; [reflexivity|].
  simpl. rewrite IH. reflexivity.
Qed.

(** X5. After [DestroyGLTextures] nothing is registered although the array
    still holds the old entries: every lookup answers [-1],
    [BindGLTextures] makes no call, and the next load that can be uploaded
    takes slot 0. *)
Theorem DestroyGLTextures_forgets filename tag image s :
  registry_inv s ->
  stbi_load filename = Some image ->
  colorChannels image = 3 \/ colorChannels image = 4 ->
  exists s1,
    DestroyGLTextures s = Ok tt s1 /\
    m_textureIDs s1 = m_textureIDs s /\
    (forall t, value (FindTextureSlot t s1) = Some (-1) /\
               value (FindTextureID t s1) = Some (-1)) /\
    BindGLTextures s1 = Ok tt s1 /\
    exists s2,
      CreateGLTexture filename tag s1 = Ok true s2 /\
      registered s2 = [mkTexture tag (new_texture s1 filename image)] /\
      value (FindTextureSlot tag s2) = Some 0.
Proof.
  intros Hinv Hload Hch.
  eexists. split; [apply DestroyGLTextures_effects, Hinv|].
  match goal with |- m_textureIDs ?x = _ /\ _ => set (s1 := x) end.
  assert (Hinv1 : registry_inv s1)
    by (destruct Hinv as [Hn Hlen]; split; [cbn; unfold MAX_TEXTURES; lia | exact Hlen]).
  assert (Hreg1 : registered s1 = []) by reflexivity.
  split; [reflexivity|]. split.
  { intros t. destruct (lookups_depend_on_registry t s1 s1 Hinv1 eq_refl eq_refl) as [-> ->].
    rewrite Hreg1. split; reflexivity. }
  split.
  { rewrite (BindGLTextures_effects s1 Hinv1), Hreg1.
    change (m_loadedTextures s1) with 0. change (seqZ 0 0) with (@nil Z).
    simpl slot_events. rewrite with_effects_nil. reflexivity. }
  destruct (CreateGLTexture_appends filename tag image s1 Hinv1 Hload Hch)
    as (s2 & Hrun & Hinv2 & _ & _ & Hreg2); [cbn; unfold MAX_TEXTURES; lia|].
  exists s2. split; [exact Hrun|]. rewrite Hreg1 in Hreg2. split; [exact Hreg2|].
  destruct (lookups_depend_on_registry tag s2 s2 Hinv2 eq_refl eq_refl) as [-> _].
  rewrite Hreg2. unfold slot_of. cbn [app list_find tex_tag].
  rewrite decide_True by reflexivity. reflexivity.
Qed.

Lemma balanced_with_effects s evs idx :
  generated evs = [] -> deleted evs = [] -> balanced s -> balanced (with_effects s evs idx).
Proof.
  unfold balanced. intros Hg Hd Hs. cbn [calls with_effects].
  rewrite generated_app, deleted_app, Hg, Hd, !app_nil_r. exact Hs.
Qed.

Lemma CreateGLTexture_balanced filename tag s :
  decodes_uploadable ->
  registry_inv s -> balanced s ->
  exists b s', CreateGLTexture filename tag s = Ok b s' /\ registry_inv s' /\ balanced s'.
Proof.
  intros Hup Hinv Hbal.
  destruct (stbi_load filename) as [image|] eqn:Hload.
  - pose proof (Hup filename image Hload) as Hch.
    destruct (Z_lt_dec (m_loadedTextures s) MAX_TEXTURES) as [Hroom|Hfull].
    + destruct (CreateGLTexture_appends filename tag image s Hinv Hload Hch Hroom)
        as (s' & Hrun & Hinv' & _ & Hcalls & Hreg).
      exists true, s'. split; [exact Hrun|]. split; [exact Hinv'|].
      unfold balanced in *. rewrite Hcalls, Hreg, !generated_app, !deleted_app, map_app.
      cbn [decode_calls setup_calls upload_calls generated deleted map tex_ID app].
      rewrite ?app_nil_r, Hbal, <- ?app_assoc. reflexivity.
    + eexists _, _.
      split; [apply (CreateGLTexture_full filename tag image); [assumption..|lia]|].
      split; [exact Hinv|].
      unfold balanced in *. cbn [calls with_effects].
      change (registered (with_effects s ?evs ?idx)) with (registered s).
      rewrite !generated_app, !deleted_app.
      cbn [decode_calls setup_calls upload_calls generated deleted app].
      rewrite ?app_nil_r, Hbal, <- ?app_assoc.
      apply Permutation_app_head, Permutation_app_comm.
  - eexists _, _. split; [apply CreateGLTexture_no_image; exact Hload|].
    split; [exact Hinv|]. apply balanced_with_effects; [reflexivity..|exact Hbal].
Qed.

Lemma run_op_balanced o s :
  decodes_uploadable ->
  registry_inv s -> balanced s ->
  exists s', run_op o s = Ok tt s' /\ registry_inv s' /\ balanced s'.
Proof.
  intros Hup Hinv Hbal. destruct o as [filename tag| | |tag|tag]; cbn [run_op].
  - destruct (CreateGLTexture_balanced filename tag s Hup Hinv Hbal)
      as (b & s' & Hrun & Hinv' & Hbal').
    exists s'. unfold bind. rewrite Hrun. auto.
  - eexists. split; [apply BindGLTextures_effects, Hinv|]. split; [exact Hinv|].
    apply balanced_with_effects;
      [apply generated_slot_events_bind | apply deleted_slot_events_bind | exact Hbal].
  - eexists. split; [apply DestroyGLTextures_effects, Hinv|]. split.
    + destruct Hinv as [Hn Hlen]. split; [cbn; unfold MAX_TEXTURES; lia | exact Hlen].
    + unfold balanced in *. cbn [calls]. unfold registered at 2. cbn [m_loadedTextures].
      simpl take. cbn [map]. rewrite generated_app, deleted_app,
        generated_slot_events_delete, deleted_slot_events_delete, !app_nil_r. exact Hbal.
  - destruct (FindTextureID_effects tag s Hinv) as (idx & Hrun & _).
    eexists. unfold bind. rewrite Hrun. split; [reflexivity|]. split; [exact Hinv|].
    apply balanced_with_effects; [reflexivity..|exact Hbal].
  - destruct (FindTextureSlot_effects tag s Hinv) as (idx & Hrun & _).
    eexists. unfold bind. rewrite Hrun. split; [reflexivity|]. split; [exact Hinv|].
    apply balanced_with_effects; [reflexivity..|exact Hbal].
Qed.

Lemma run_ops_balanced ops :
  decodes_uploadable ->
  forall s, registry_inv s -> balanced s ->
            exists s', run_ops ops s = Ok tt s' /\ registry_inv s' /\ balanced s'.
Proof.
  intros Hup. induction ops as [|o ops IH]; intros s Hinv Hbal.
  - exists s. auto.
  - destruct (run_op_balanced o s Hup Hinv Hbal) as (s1 & Hrun1 & Hinv1 & Hbal1).
    destruct (IH s1 Hinv1 Hbal1) as (s2 & Hrun2 & Hinv2 & Hbal2).
    exists s2. cbn [run_ops]. unfold bind. rewrite Hrun1. auto.
Qed.

(** X6. No texture is lost when every image that decodes has three or four
    channels.  After any sequence of registry operations on a new object,
    the textures generated so far are, counted with multiplicity, those
    deleted so far together with those registered; after a final
    [DestroyGLTextures] every generated texture has been deleted exactly
    as often as it was generated. *)
Theorem textures_never_leak p junk ops :
  decodes_uploadable ->
  exists s,
    run_ops ops (SceneManager_new p junk) = Ok tt s /\
    generated (calls s) ≡ₚ deleted (calls s) ++ map tex_ID (registered s) /\
    exists s',
      DestroyGLTextures s = Ok tt s' /\
      generated (calls s') ≡ₚ deleted (calls s').
Proof.
  intros Hup.
  destruct (run_ops_balanced ops Hup (SceneManager_new p junk) (registry_inv_new p junk))
    as (s & Hrun & Hinv & Hbal); [unfold balanced; simpl; reflexivity|].
  exists s. split; [exact Hrun|]. split; [exact Hbal|].
  destruct (run_op_balanced OpDestroy s Hup Hinv Hbal) as (s' & Hrun' & _ & Hbal').
  exists s'. split; [exact Hrun'|].
  unfold balanced in Hbal'.
  assert (Hreg : registered s' = []).
  { cbn [run_op] in Hrun'. rewrite (DestroyGLTextures_effects s Hinv) in Hrun'.
    injection Hrun' as <-. reflexivity. }
  rewrite Hreg, app_nil_r in Hbal'. exact Hbal'.
Qed.
End RegistryResources.

(** ** Materials and textures as published *)

Section PublishedState.
Context `{Glm} `{!World}.

Lemma published_app tr1 tr2 name :
  published (tr1 ++ tr2) name
  = match published tr2 name with
    | Some v => Some v
    | None => published tr1 name
    end.
Proof.
  induction tr1 as [|e tr1 IH]; simpl.
  - destruct (published tr2 name); reflexivity.
  - rewrite IH. destruct (published tr2 name); reflexivity.
Qed.

Lemma FindMaterial_loop_find mats tag material :
  FindMaterial_loop mats tag material
  = match catalog_find tag mats with
    | Some m => mkMaterial (diffuseColor m) (specularColor m) (shininess m) (mat_tag material)
    | None => material
    end.
Proof.
  unfold catalog_find. induction mats as [|m mats IH]; simpl; [reflexivity|].
  destruct (String.eqb (mat_tag m) tag); [reflexivity | exact IH].
Qed.

Lemma catalog_find_first tag before m rest :
  Forall (fun r => mat_tag r <> tag) before -> mat_tag m = tag ->
  catalog_find tag (before ++ m :: rest) = Some m.
Proof.
  unfold catalog_find. intros Hbefore Hm.
  induction Hbefore as [|r before Hr _ IH]; simpl.
  - apply String.eqb_eq in Hm. rewrite Hm. reflexivity.
  - apply String.eqb_neq in Hr. rewrite Hr. exact IH.
Qed.

(** X7. [FindMaterial] resolves a tag to the first record that carries it:
    records behind it with the same tag are never returned.  It copies the
    diffuse colour, the specular colour and the shininess of that record
    into the output parameter, leaves the tag of the output parameter as
    it was, and changes nothing in the object. *)
Theorem FindMaterial_first_match tag material before m rest s :
  m_objectMaterials s = before ++ m :: rest ->
  Forall (fun r => mat_tag r <> tag) before ->
  mat_tag m = tag ->
  FindMaterial tag material s
  = Ok (true, mkMaterial (diffuseColor m) (specularColor m) (shininess m)
                         (mat_tag material)) s.
Proof.
  intros Hs Hbefore Hm.
  destruct (before ++ m :: rest) as [|m0 mats] eqn:Hcat;
    [destruct before; discriminate|].
  rewrite (FindMaterial_nonempty m0 mats) by exact Hs.
  rewrite FindMaterial_loop_find, <- Hcat, (catalog_find_first tag before m rest) by assumption.
  reflexivity.
Qed.

(** X8. The three ways [SetShaderMaterial] can end.  On an empty catalog
    it does nothing, with or without a shader manager.  On a non-empty
    catalog without a shader manager it calls through the null pointer.
    On a non-empty catalog with a shader manager it writes the three
    material uniforms, from the first record carrying the tag or, when
    there is none, from its uninitialised local.  It never prints a
    warning. *)
Theorem SetShaderMaterial_outcomes tag s :
  match SetShaderMaterial tag s with
  | Ok _ s' =>
      (m_objectMaterials s = [] /\ s' = s) \/
      (m_objectMaterials s <> [] /\ has_shader s /\
       exists m,
         s' = with_effects s (material_calls m) [] /\
         match catalog_find tag (m_objectMaterials s) with
         | Some r => diffuseColor m = diffuseColor r /\ specularColor m = specularColor r /\
                     shininess m = shininess r
         | None => (diffuseColor m, specularColor m, shininess m) = indeterminate (calls s)
         end)
  | Crash c =>
      c = NullDereference /\ m_pShaderManager s = None /\ m_objectMaterials s <> []
  end.
Proof.
  destruct (m_objectMaterials s) as [|m0 mats] eqn:Hm.
  - assert (Hrun : SetShaderMaterial tag s = Ok tt s)
      by (unfold SetShaderMaterial; rewrite bind_get, Hm; reflexivity).
    rewrite Hrun. left. split; reflexivity.
  - destruct (m_pShaderManager s) as [p|] eqn:Hp.
    + rewrite (SetShaderMaterial_writes tag p m0 mats s Hp Hm). right.
      split; [discriminate|]. split; [exists p; exact Hp|].
      eexists. split; [reflexivity|].
      rewrite FindMaterial_loop_find.
      destruct (catalog_find tag (m0 :: mats)) as [r|]; cbn.
      * repeat split.
      * destruct (indeterminate (calls s)) as [[d sp] sh]. reflexivity.
    + assert (Hrun : SetShaderMaterial tag s = Crash NullDereference).
      { destruct s as [p' n texs mats' tr idx]; simpl in *; subst. reflexivity. }
      rewrite Hrun. split; [reflexivity|]. split; [reflexivity | discriminate].
Qed.

Lemma SetShaderMaterial_found tag p r s :
  m_pShaderManager s = Some p ->
  catalog_find tag (m_objectMaterials s) = Some r ->
  SetShaderMaterial tag s = Ok tt (with_effects s (material_calls r) []).
Proof.
  intros Hp Hfind.
  destruct (m_objectMaterials s) as [|m0 mats] eqn:Hm; [discriminate Hfind|].
  rewrite (SetShaderMaterial_writes tag p m0 mats s Hp Hm).
  rewrite FindMaterial_loop_find, Hfind. reflexivity.
Qed.

(** X9. Publishing a material that the catalog holds: the published
    diffuse colour, specular colour and shininess become those of the first
    record with the tag, and no other uniform changes. *)
Theorem SetShaderMaterial_publishes tag p r s :
  m_pShaderManager s = Some p ->
  catalog_find tag (m_objectMaterials s) = Some r ->
  exists s',
    SetShaderMaterial tag s = Ok tt s' /\
    published (calls s') "material.diffuseColor" = Some (UVec3 (diffuseColor r)) /\
    published (calls s') "material.specularColor" = Some (UVec3 (specularColor r)) /\
    published (calls s') "material.shininess" = Some (UFloat (shininess r)) /\
    forall name,
      name <> "material.diffuseColor" -> name <> "material.specularColor" ->
      name <> "material.shininess" ->
      published (calls s') name = published (calls s) name.
Proof.
  intros Hp Hfind. eexists. split; [apply (SetShaderMaterial_found tag p r s Hp Hfind)|].
  cbn [calls with_effects]. rewrite !published_app.
  split; [reflexivity|]. split; [reflexivity|]. split; [reflexivity|].
  intros name H1 H2 H3. rewrite published_app. unfold material_calls. cbn [published].
  apply not_eq_sym, String.eqb_neq in H1, H2, H3. rewrite H1, H2, H3. reflexivity.
Qed.

(** X10. [DefineObjectMaterials] discards the catalog it finds and builds
    the same twelve records from every state; it makes no call and changes
    no other field.  The twelve tags are pairwise distinct, so no record is
    hidden behind another, and a second call changes nothing. *)
Theorem DefineObjectMaterials_resets s :
  exists s',
    DefineObjectMaterials s = Ok tt s' /\
    s' = mkScene (m_pShaderManager s) (m_loadedTextures s) (m_textureIDs s)
                 (m_objectMaterials s') (calls s) (touched s) /\
    length (m_objectMaterials s') = 12%nat /\
    NoDup (map mat_tag (m_objectMaterials s')) /\
    DefineObjectMaterials s' = Ok tt s' /\
    forall s0,
      exists s0', DefineObjectMaterials s0 = Ok tt s0' /\
                  m_objectMaterials s0' = m_objectMaterials s'.
Proof.
  eexists. split; [apply DefineObjectMaterials_catalog|].
  split; [reflexivity|]. split; [reflexivity|]. split.
  { cbn. repeat (apply NoDup_cons_2;
                 [rewrite ?elem_of_cons, elem_of_nil; intros Hin;
                  repeat (destruct Hin as [Hin|Hin]; [discriminate Hin|]); exact Hin|]).
    apply NoDup_nil_2. }
  split; [reflexivity|].
  intros s0. eexists. split; [apply DefineObjectMaterials_catalog | reflexivity].
Qed.

Lemma tag_index_nonneg tag tags k : tag_index tag tags = Some k -> 0 <= k.
Proof.
  revert k. induction tags as [|t tags IH]; intros k; simpl; [discriminate|].
  destruct (String.eqb t tag); [intros [= <-]; lia|].
  destruct (tag_index tag tags) as [k'|]; [|discriminate].
  intros [= <-]. specialize (IH k' eq_refl). lia.
Qed.

Lemma slot_of_tags tag l :
  slot_of tag l = match tag_index tag (map tex_tag l) with Some k => k | None => -1 end.
Proof.
  unfold slot_of. induction l as [|t l IH]; [reflexivity|].
  cbn [list_find map tag_index].
  destruct (String.eqb_spec (tex_tag t) tag) as [Heq|Hne].
  - rewrite decide_True by exact Heq. reflexivity.
  - rewrite decide_False by exact Hne.
    destruct (tag_index tag (map tex_tag l)) as [k'|] eqn:Hk';
      [pose proof (tag_index_nonneg _ _ _ Hk')|];
      destruct (list_find _ l) as [[k u]|];
      cbn [fmap option_fmap option_map prod_map fst snd id] in *; lia.
Qed.

Lemma SetShaderTexture_calls tag p s :
  m_pShaderManager s = Some p ->
  registry_inv s ->
  exists idx,
    SetShaderTexture tag s
    = Ok tt (with_effects s (texture_calls (map tex_tag (registered s)) tag) idx).
Proof.
  intros Hp Hinv.
  unfold SetShaderTexture. rewrite bind_get, Hp.
  rewrite (bind_effects _ _ s tt [shader_set g_UseTextureName (UInt 1)] [])
    by apply (shader_call_effects _ _ p _ Hp).
  destruct (FindTextureSlot_effects tag (with_effects s [shader_set g_UseTextureName (UInt 1)] [])
                                    Hinv) as (idx & Hfind & _).
  unfold bind at 1. rewrite Hfind, with_effects_twice.
  change (registered (with_effects s [shader_set g_UseTextureName (UInt 1)] []))
    with (registered s).
  rewrite slot_of_tags. unfold texture_calls.
  destruct (tag_index tag (map tex_tag (registered s))) as [k|] eqn:Hk.
  - pose proof (tag_index_nonneg _ _ _ Hk) as Hk0.
    replace (k =? -1) with false by (symmetry; apply Z.eqb_neq; lia). cbn [negb].
    eexists. rewrite (shader_call_effects _ _ p) by exact Hp.
    rewrite !with_effects_twice. reflexivity.
  - change (-1 =? -1) with true. cbn [negb]. eexists.
    rewrite (bind_effects _ _ _ tt [cout (TextureNotFound tag)] []) by apply emit_effects.
    rewrite (shader_call_effects _ _ p) by exact Hp.
    rewrite !with_effects_twice. reflexivity.
Qed.

(** X11. Publishing a texture by tag, with a shader manager and a registry
    within its invariant.  A registered tag: texturing is on and the
    sampler holds the slot of the first entry with the tag; nothing is
    printed.  An unregistered tag: one warning is printed, texturing ends
    up off and the sampler keeps the value published before.  In both
    cases no field of the object changes. *)
Theorem SetShaderTexture_publishes tag p s :
  m_pShaderManager s = Some p ->
  registry_inv s ->
  exists evs idx,
    SetShaderTexture tag s = Ok tt (with_effects s evs idx) /\
    if slot_of tag (registered s) =? -1 then
      published (calls s ++ evs) "bUseTexture" = Some (UInt 0) /\
      published (calls s ++ evs) "objectTexture" = published (calls s) "objectTexture" /\
      filter is_cout evs = [cout (TextureNotFound tag)]
    else
      published (calls s ++ evs) "bUseTexture" = Some (UInt 1) /\
      published (calls s ++ evs) "objectTexture"
      = Some (USampler2D (slot_of tag (registered s))) /\
      filter is_cout evs = [].
Proof.
  intros Hp Hinv.
  destruct (SetShaderTexture_calls tag p s Hp Hinv) as (idx & Hrun).
  eexists _, idx. split; [exact Hrun|].
  rewrite slot_of_tags, !published_app. unfold texture_calls.
  destruct (tag_index tag (map tex_tag (registered s))) as [k|] eqn:Hk.
  - pose proof (tag_index_nonneg _ _ _ Hk) as Hk0.
    replace (k =? -1) with false by (symmetry; apply Z.eqb_neq; lia).
    repeat split.
  - change (-1 =? -1) with true. repeat split.
Qed.
End PublishedState.

(** ** Preparation and shading of the scene *)

Section SceneShading.
Context `{Glm} `{!World}.

Lemma emits_seq m1 m2 e1 e2 : emits m1 e1 -> emits m2 e2 -> emits (m1 ;; m2) (e1 ++ e2).
Proof.
  intros H1 H2 s Hs. unfold bind. rewrite (H1 s Hs).
  rewrite (H2 (with_effects s e1 []) Hs), with_effects_twice. reflexivity.
Qed.

Lemma emits_shader_call name v : emits (shader_call name v) [shader_set name v].
Proof. intros s [p Hp]. apply (shader_call_effects _ _ p _ Hp). Qed.

Lemma SetupSceneLights_emits :
  exists evs, emits SetupSceneLights evs /\ length evs = 32%nat /\
              published evs "bUseLighting" = Some (UBool true) /\
              draws evs = [] /\ generated evs = [] /\ deleted evs = [].
Proof.
  eexists. split.
  - unfold SetupSceneLights, setVec3Value, setFloatValue, setBoolValue.
    repeat (eapply emits_seq; [apply emits_shader_call|]). apply emits_shader_call.
  - repeat split.
Qed.

(** X12. [SetupSceneLights] has no test for a missing shader manager:
    without one it calls through the null pointer.  With one it makes 32
    uniform writes, after which lighting is on, and changes no field; made
    a second time, it makes the same writes and leaves every published
    uniform as the first call left it. *)
Theorem SetupSceneLights_idempotent s :
  match m_pShaderManager s with
  | None => SetupSceneLights s = Crash NullDereference
  | Some _ =>
      exists evs,
        SetupSceneLights s = Ok tt (with_effects s evs []) /\
        SetupSceneLights (with_effects s evs []) = Ok tt (with_effects s (evs ++ evs) []) /\
        length evs = 32%nat /\
        published (calls s ++ evs) "bUseLighting" = Some (UBool true) /\
        forall name,
          published (calls s ++ evs ++ evs) name = published (calls s ++ evs) name
  end.
Proof.
  destruct (m_pShaderManager s) as [p|] eqn:Hp.
  - destruct SetupSceneLights_emits as (evs & Hemits & Hlen & Hon & _).
    exists evs. split; [apply Hemits; exists p; exact Hp|]. split.
    + rewrite (Hemits (with_effects s evs [])) by (exists p; exact Hp).
      rewrite with_effects_twice. reflexivity.
    + split; [exact Hlen|]. split; [rewrite published_app, Hon; reflexivity|].
      intros name. rewrite !published_app.
      destruct (published evs name); reflexivity.
  - destruct s as [p' n texs mats tr idx]; simpl in Hp; subst. reflexivity.
Qed.

Lemma SetupSceneLights_null s :
  m_pShaderManager s = None -> SetupSceneLights s = Crash NullDereference.
Proof. intros Hp. destruct s as [p' n texs mats tr idx]; simpl in Hp; subst. reflexivity. Qed.

(** Whatever the files decode to, the loads and the bind of
    [LoadSceneTextures] complete and keep the registry consistent. *)
Lemma LoadSceneTextures_returns s :
  registry_inv s ->
  exists s', LoadSceneTextures s = Ok tt s' /\ registry_inv s' /\
             m_pShaderManager s' = m_pShaderManager s.
Proof.
  intros Hinv. unfold LoadSceneTextures.
  repeat match goal with
         | Hi : registry_inv ?s0 |- context [bind (CreateGLTexture ?f ?t) _ ?s0] =>
             let b := fresh "b" in
             let s1 := fresh "s" in
             let Hrun := fresh "Hrun" in
             let Hinv1 := fresh "Hinv" in
             let Hp := fresh "Hp" in
             destruct (CreateGLTexture_returns f t s0 Hi) as (b & s1 & Hrun);
             destruct (CreateGLTexture_keeps f t s0 b s1 Hi Hrun) as (Hinv1 & Hp & _);
             unfold bind at 1; rewrite Hrun; clear Hrun Hi
         end.
  eexists. split; [apply BindGLTextures_effects; assumption|].
  split; [assumption|]. cbn [m_pShaderManager with_effects]. congruence.
Qed.

(** X13. [PrepareScene] on an object constructed without a shader manager
    never completes, on any platform: after the textures and the materials
    it reaches [SetupSceneLights], which calls through the null pointer. *)
Theorem PrepareScene_without_shader_manager junk :
  (exists s1 s2,
      LoadSceneTextures (SceneManager_new None junk) = Ok tt s1 /\
      DefineObjectMaterials s1 = Ok tt s2 /\
      SetupSceneLights s2 = Crash NullDereference) /\
  PrepareScene (SceneManager_new None junk) = Crash NullDereference.
Proof.
  destruct (LoadSceneTextures_returns _ (registry_inv_new None junk))
    as (s1 & Hload & Hinv1 & Hp1).
  assert (Hlights : SetupSceneLights
                      (mkScene (m_pShaderManager s1) (m_loadedTextures s1) (m_textureIDs s1)
                               (catalog_of defined_materials) (calls s1) (touched s1))
                    = Crash NullDereference)
    by (apply SetupSceneLights_null; exact Hp1).
  split.
  - exists s1. eexists. split; [exact Hload|].
    split; [apply DefineObjectMaterials_catalog | exact Hlights].
  - unfold PrepareScene. unfold bind at 1. rewrite Hload.
    unfold bind at 1. rewrite DefineObjectMaterials_catalog.
    unfold bind at 1. rewrite Hlights. reflexivity.
Qed.

Lemma draws_without_shader_seq m1 m2 d1 d2 :
  draws_without_shader m1 d1 -> draws_without_shader m2 d2 ->
  draws_without_shader (m1 ;; m2) (d1 ++ d2).
Proof.
  intros H1 H2 n texs tr idx. unfold bind. rewrite H1, H2, map_app, app_assoc. reflexivity.
Qed.

Lemma draws_without_shader_publish m :
  (forall s, m_pShaderManager s = None -> m_objectMaterials s = [] -> m s = Ok tt s) ->
  draws_without_shader m [].
Proof. intros Hm n texs tr idx. rewrite Hm by reflexivity. rewrite app_nil_r. reflexivity. Qed.

Lemma draws_without_shader_draw p : draws_without_shader (emit (DrawMesh p)) [p].
Proof. intros n texs tr idx. reflexivity. Qed.

Ltac idle_frame :=
  lazymatch goal with
  | |- draws_without_shader (bind _ (fun _ => _)) _ =>
      eapply draws_without_shader_seq; [idle_frame | idle_frame]
  | |- draws_without_shader (emit (DrawMesh _)) _ => apply draws_without_shader_draw
  | |- _ => apply draws_without_shader_publish; intros s Hp Hm;
            destruct s; simpl in Hp, Hm; subst; reflexivity
  end.

(** X14. [RenderScene] without a shader manager.  With a non-empty catalog
    the frame does not complete: [SetShaderMaterial] calls through the null
    pointer.  With an empty catalog the frame completes: nothing is
    published and the 36 primitives are drawn all the same. *)
Theorem RenderScene_without_shader_manager n texs m mats tr idx :
  RenderScene (mkScene None n texs (m :: mats) tr idx) = Crash NullDereference /\
  RenderScene (mkScene None n texs [] tr idx)
  = Ok tt (mkScene None n texs [] (tr ++ map DrawMesh frame_draws) idx).
Proof.
  split; [reflexivity|].
  assert (Hframe : draws_without_shader RenderScene frame_draws).
  { assert (Hd : exists ds, draws_without_shader RenderScene ds /\ ds = frame_draws).
    { eexists. split.
      - unfold RenderScene, RenderLamp, DrawPlaneMesh, DrawBoxMesh, DrawConeMesh,
          DrawCylinderMesh, DrawSphereMesh.
        cbv zeta.
        idle_frame.
      - reflexivity. }
    destruct Hd as (ds & Hds & ->). exact Hds. }
  apply Hframe.
Qed.

Lemma published_after past e :
  map (published (past ++ [e])) shading_names
  = match e with
    | shader_set n v =>
        zip_with (fun name old => if String.eqb n name then Some v else old)
                 shading_names (map (published past) shading_names)
    | _ => map (published past) shading_names
    end.
Proof.
  unfold shading_names. cbn [map zip_with]. rewrite !published_app.
  destruct e; cbn [published]; try reflexivity.
  repeat match goal with
         | |- context [String.eqb ?a ?b] => destruct (String.eqb a b)
         end; reflexivity.
Qed.

Lemma shading_run_correct rest :
  forall past,
    shading_at_draws past rest = shading_run (map (published past) shading_names) rest.
Proof.
  induction rest as [|e rest IH]; intros past; [reflexivity|].
  cbn [shading_at_draws]. rewrite IH, published_after.
  destruct e; reflexivity.
Qed.

Lemma renders_seq tags m1 m2 e1 e2 :
  renders tags m1 e1 -> renders tags m2 e2 -> renders tags (m1 ;; m2) (e1 ++ e2).
Proof.
  intros H1 H2 s Hs.
  destruct (H1 s Hs) as (idx1 & Hrun1).
  destruct (H2 (with_effects s e1 idx1) Hs) as (idx2 & Hrun2).
  exists (idx1 ++ idx2). unfold bind. rewrite Hrun1, Hrun2, with_effects_twice. reflexivity.
Qed.

Lemma renders_emits tags m evs : emits m evs -> renders tags m evs.
Proof. intros Hm s (Hp & _). exists []. apply Hm, Hp. Qed.

Lemma emits_SetTransformations scaleXYZ rx ry rz pos off :
  emits (SetTransformations scaleXYZ rx ry rz pos off)
        [shader_set "model" (UMat4 (model_matrix scaleXYZ rx ry rz pos off))].
Proof.
  intros s [p Hp]. unfold SetTransformations. rewrite bind_get, Hp.
  apply (shader_call_effects _ _ p _ Hp).
Qed.

Lemma emits_SetTextureUVScale u v :
  emits (SetTextureUVScale u v) [shader_set "UVscale" (UVec2 (Vec2 u v))].
Proof.
  intros s [p Hp]. unfold SetTextureUVScale. rewrite bind_get, Hp.
  apply (shader_call_effects _ _ p _ Hp).
Qed.

Lemma emits_emit e : emits (emit e) [e].
Proof. intros s _. apply emit_effects. Qed.

Lemma renders_SetShaderTexture tags tag :
  renders tags (SetShaderTexture tag) (texture_calls tags tag).
Proof.
  intros s ([p Hp] & Hinv & Htags & _).
  destruct (SetShaderTexture_calls tag p s Hp Hinv) as (idx & Hrun).
  exists idx. rewrite Hrun, Htags. reflexivity.
Qed.

Lemma renders_SetShaderMaterial tags tag r :
  catalog_find tag (catalog_of defined_materials) = Some r ->
  renders tags (SetShaderMaterial tag) (material_calls r).
Proof.
  intros Hfind s ([p Hp] & _ & _ & Hcat). exists [].
  apply (SetShaderMaterial_found tag p r s Hp). rewrite Hcat. exact Hfind.
Qed.

Ltac render_frame :=
  lazymatch goal with
  | |- renders _ (bind _ (fun _ => _)) _ =>
      eapply renders_seq; [render_frame | render_frame]
  | |- renders _ (SetTransformations _ _ _ _ _ _) _ =>
      apply renders_emits, emits_SetTransformations
  | |- renders _ (SetTextureUVScale _ _) _ =>
      apply renders_emits, emits_SetTextureUVScale
  | |- renders _ (SetShaderTexture _) _ => apply renders_SetShaderTexture
  | |- renders _ (SetShaderMaterial _) _ =>
      eapply renders_SetShaderMaterial; reflexivity
  | |- renders _ (emit _) _ => apply renders_emits, emits_emit
  end.

Lemma RenderScene_textured :
  exists evs,
    renders scene_textures RenderScene evs /\
    filter is_cout evs = [] /\
    forall past,
      shading_run (map (published past) shading_names) evs = frame_shading textured.
Proof.
  eexists. split; [|split].
  - unfold RenderScene, RenderLamp, DrawPlaneMesh, DrawBoxMesh, DrawConeMesh,
      DrawCylinderMesh, DrawSphereMesh.
    cbv zeta. render_frame.
  - vm_compute. reflexivity.
  - intros past. vm_compute. reflexivity.
Qed.

Lemma RenderScene_untextured :
  exists evs,
    renders [] RenderScene evs /\
    length (filter is_cout evs) = 14%nat /\
    forall past,
      shading_run (map (published past) shading_names) evs
      = frame_shading (fun p _ => untextured (published past "objectTexture") p).
Proof.
  eexists. split; [|split].
  - unfold RenderScene, RenderLamp, DrawPlaneMesh, DrawBoxMesh, DrawConeMesh,
      DrawCylinderMesh, DrawSphereMesh.
    cbv zeta. render_frame.
  - vm_compute. reflexivity.
  - intros past. vm_compute. reflexivity.
Qed.

(** X15. The shading of a frame when the seven textures are registered.
    From a state whose registry holds the scene's tags in loading order and
    whose catalog is the defined one, [RenderScene] completes, prints
    nothing, and draws every primitive textured.  The texture slot, UV
    scale and material in force at each draw are those of [frame_shading],
    whatever was published before the frame.  In particular both lamps are
    drawn with the UV scale (2, 1) set for the floor; the shade and the
    finial with the texture of the upper body; the neck, lid and handle of
    the jar and the outside plane with the jar's texture; and the window
    panes with the texture and material of the frame. *)
Theorem frame_shading_with_textures s :
  scene_with scene_textures s ->
  exists evs idx,
    RenderScene s = Ok tt (with_effects s evs idx) /\
    filter is_cout evs = [] /\
    shading_at_draws (calls s) evs = frame_shading textured.
Proof.
  intros Hs. destruct RenderScene_textured as (evs & Hrenders & Hquiet & Hshading).
  destruct (Hrenders s Hs) as (idx & Hrun).
  exists evs, idx. split; [exact Hrun|]. split; [exact Hquiet|].
  rewrite shading_run_correct. apply Hshading.
Qed.

(** X16. The shading of a frame when no texture is registered.  From a
    state with an empty registry and the defined catalog, [RenderScene]
    completes and prints one warning for each of its 14 texture
    selections; every primitive is drawn with texturing off and the sampler
    uniform as it was before the frame, with the same UV scales and
    materials as in the textured frame. *)
Theorem frame_shading_without_textures s :
  scene_with [] s ->
  exists evs idx,
    RenderScene s = Ok tt (with_effects s evs idx) /\
    length (filter is_cout evs) = 14%nat /\
    shading_at_draws (calls s) evs
    = frame_shading (fun p _ => untextured (published (calls s) "objectTexture") p).
Proof.
  intros Hs. destruct RenderScene_untextured as (evs & Hrenders & Hwarn & Hshading).
  destruct (Hrenders s Hs) as (idx & Hrun).
  exists evs, idx. split; [exact Hrun|]. split; [exact Hwarn|].
  rewrite shading_run_correct. apply Hshading.
Qed.

Lemma uploadsb_spec filename : uploadsb filename = true <-> uploads filename.
Proof.
  unfold uploadsb, uploads. destruct (stbi_load filename) as [image|].
  - rewrite orb_true_iff, !Z.eqb_eq. split.
    + intros Hch. exists image. auto.
    + intros (image' & [= <-] & Hch). exact Hch.
  - split; [discriminate | intros (image & Himg & _); discriminate].
Qed.

Lemma draws_slot_events_bind i l : draws (slot_events bind_calls i l) = [].
Proof. revert i. induction l as [|t l IH]; intros i; [reflexivity | simpl; apply IH]. Qed.

Lemma CreateGLTexture_step filename tag s :
  registry_inv s ->
  m_loadedTextures s < MAX_TEXTURES ->
  exists b s',
    CreateGLTexture filename tag s = Ok b s' /\
    registry_inv s' /\
    m_pShaderManager s' = m_pShaderManager s /\
    m_objectMaterials s' = m_objectMaterials s /\
    m_loadedTextures s' <= m_loadedTextures s + 1 /\
    draws (calls s') = draws (calls s) /\
    map tex_tag (registered s')
    = map tex_tag (registered s) ++ (if uploadsb filename then [tag] else []).
Proof.
  intros Hinv Hroom.
  destruct (CreateGLTexture_returns filename tag s Hinv) as (b & s' & Hrun).
  destruct (CreateGLTexture_keeps filename tag s b s' Hinv Hrun) as (Hinv' & Hp & Hm & Hd).
  exists b, s'. split; [exact Hrun|]. split; [exact Hinv'|]. split; [exact Hp|].
  split; [exact Hm|].
  cut (m_loadedTextures s' <= m_loadedTextures s + 1 /\
       map tex_tag (registered s')
       = map tex_tag (registered s) ++ (if uploadsb filename then [tag] else []));
    [tauto|].
  destruct (uploadsb filename) eqn:Hup.
  - apply uploadsb_spec in Hup. destruct Hup as (image & Hload & Hch).
    destruct (CreateGLTexture_appends filename tag image s Hinv Hload Hch Hroom)
      as (s2 & Hrun2 & _ & Hn & _ & Hreg).
    rewrite Hrun in Hrun2. injection Hrun2 as _ <-.
    split; [lia|]. rewrite Hreg, map_app. reflexivity.
  - assert (Hsame : exists evs, s' = with_effects s evs []).
    { destruct (CreateGLTexture_outcome filename tag s Hinv)
        as [(evs & Hfalse)|(image & _ & Htrue)].
      - rewrite Hrun in Hfalse. injection Hfalse as _ ->. eauto.
      - assert (Hu : uploads filename).
        { destruct (uploads_dec filename) as [Hu|[Hnone|(img & Hload & H3 & H4)]];
            [exact Hu| |].
          - rewrite (CreateGLTexture_no_image filename tag s Hnone) in Htrue.
            discriminate Htrue.
          - rewrite (CreateGLTexture_unsupported filename tag img s Hload H3 H4) in Htrue.
            discriminate Htrue. }
        apply uploadsb_spec in Hu. congruence. }
    destruct Hsame as (evs & ->).
    change (registered (with_effects s evs [])) with (registered s).
    cbn [m_loadedTextures with_effects]. rewrite app_nil_r. split; [lia | reflexivity].
Qed.

Lemma loads_then_registers regs k :
  forall s,
    registry_inv s ->
    m_loadedTextures s + Z.of_nat (length regs) <= MAX_TEXTURES ->
    exists s',
      loads_then regs k s = k s' /\
      registry_inv s' /\
      m_pShaderManager s' = m_pShaderManager s /\
      m_objectMaterials s' = m_objectMaterials s /\
      draws (calls s') = draws (calls s) /\
      map tex_tag (registered s') = map tex_tag (registered s) ++ uploaded_tags regs.
Proof.
  induction regs as [|[filename tag] regs IH]; intros s Hinv Hroom.
  - exists s. rewrite app_nil_r. auto 6.
  - cbn [length] in Hroom.
    destruct (CreateGLTexture_step filename tag s Hinv)
      as (b & s1 & Hrun & Hinv1 & Hp1 & Hm1 & Hn1 & Hd1 & Htags1); [lia|].
    destruct (IH s1 Hinv1) as (s2 & Hrun2 & Hinv2 & Hp2 & Hm2 & Hd2 & Htags2); [lia|].
    exists s2. split.
    { cbn [loads_then fold_right fst snd]. unfold bind at 1. rewrite Hrun. exact Hrun2. }
    split; [exact Hinv2|]. split; [congruence|]. split; [congruence|].
    split; [congruence|].
    rewrite Htags2, Htags1, <- app_assoc. f_equal.
    unfold uploaded_tags. cbn [List.filter fst].
    destruct (uploadsb filename); reflexivity.
Qed.

Lemma emits_meshes :
  emits (emit (LoadMesh Plane) ;; emit (LoadMesh Box) ;; emit (LoadMesh Cone) ;;
         emit (LoadMesh Sphere) ;; emit (LoadMesh Cylinder))
        (map LoadMesh [Plane; Box; Cone; Sphere; Cylinder]).
Proof.
  repeat (eapply (emits_seq _ _ [_]); [apply emits_emit|]). apply emits_emit.
Qed.

(** X17. [PrepareScene] on a new object with a shader manager completes on
    every platform, whatever the image files decode to.  The registry then
    holds, in loading order, the tags of exactly those of the seven files
    that decode to three or four channels; the catalog is the defined one;
    lighting is on; the five meshes are loaded last; nothing is drawn. *)
Theorem PrepareScene_registers p junk :
  exists s before,
    PrepareScene (SceneManager_new (Some p) junk) = Ok tt s /\
    scene_with (uploaded_tags scene_loads) s /\
    calls s = before ++ map LoadMesh [Plane; Box; Cone; Sphere; Cylinder] /\
    published (calls s) "bUseLighting" = Some (UBool true) /\
    draws (calls s) = [].
Proof.
  destruct (loads_then_registers scene_loads BindGLTextures
              (SceneManager_new (Some p) junk) (registry_inv_new (Some p) junk))
    as (s1 & Hloads & Hinv1 & Hp1 & Hm1 & Hd1 & Htags1); [cbn; unfold MAX_TEXTURES; lia|].
  change (loads_then scene_loads BindGLTextures) with LoadSceneTextures in Hloads.
  rewrite (BindGLTextures_effects s1 Hinv1) in Hloads.
  destruct SetupSceneLights_emits as (lights & Hlights & _ & Hon & Hplain & _).
  pose proof (emits_seq _ _ _ _ Hlights emits_meshes) as Hrest.
  set (s2 := with_effects s1 (slot_events bind_calls 0 (registered s1))
                          (seqZ 0 (m_loadedTextures s1))) in *.
  set (s3 := mkScene (m_pShaderManager s2) (m_loadedTextures s2) (m_textureIDs s2)
                     (catalog_of defined_materials) (calls s2) (touched s2)).
  assert (Hs3 : has_shader s3) by (exists p; exact Hp1).
  eexists _, _. split.
  { unfold PrepareScene. unfold bind at 1. rewrite Hloads.
    unfold bind at 1. rewrite (DefineObjectMaterials_catalog s2).
    apply (Hrest s3 Hs3). }
  split.
  { split; [exact Hs3|]. split; [exact Hinv1|]. split; [exact Htags1 | reflexivity]. }
  split; [cbn [calls with_effects]; rewrite app_assoc; reflexivity|].
  split.
  - cbn [calls with_effects]. rewrite app_assoc, published_app. cbn [published map].
    rewrite published_app, Hon. reflexivity.
  - subst s3 s2. cbn [calls with_effects].
    rewrite !draws_app, Hd1, draws_slot_events_bind, Hplain. reflexivity.
Qed.
End SceneShading.

(** ** The life of a scene manager *)

Section Lifetime.
Context `{Glm} `{!World}.

Lemma frame_calls_seq m1 m2 : frame_calls m1 -> frame_calls m2 -> frame_calls (m1 ;; m2).
Proof.
  intros H1 H2 s Hs.
  destruct (H1 s Hs) as (evs1 & idx1 & Hrun1 & Hf1).
  destruct (H2 (with_effects s evs1 idx1) Hs) as (evs2 & idx2 & Hrun2 & Hf2).
  exists (evs1 ++ evs2), (idx1 ++ idx2). split.
  - unfold bind. rewrite Hrun1, Hrun2, with_effects_twice. reflexivity.
  - apply Forall_app. split; assumption.
Qed.

Lemma frame_calls_emits m evs :
  emits m evs -> Forall (fun e => is_frame_call e = true) evs -> frame_calls m.
Proof.
  intros Hm Hevs s [Hp _]. exists evs, []. split; [apply Hm, Hp | exact Hevs].
Qed.

Lemma frame_calls_SetShaderTexture tag : frame_calls (SetShaderTexture tag).
Proof.
  intros s [[p Hp] Hinv].
  destruct (SetShaderTexture_calls tag p s Hp Hinv) as (idx & Hrun).
  eexists _, idx. split; [exact Hrun|].
  unfold texture_calls. destruct (tag_index tag _); repeat constructor.
Qed.

Lemma frame_calls_SetShaderMaterial tag : frame_calls (SetShaderMaterial tag).
Proof.
  intros s [[p Hp] _].
  destruct (m_objectMaterials s) as [|m mats] eqn:Hm.
  - exists [], []. split; [|constructor].
    unfold SetShaderMaterial. rewrite bind_get, Hm, with_effects_nil. reflexivity.
  - eexists _, []. split; [apply (SetShaderMaterial_writes tag p m mats s Hp Hm)|].
    repeat constructor.
Qed.

Ltac frame_of_calls :=
  lazymatch goal with
  | |- frame_calls (bind _ (fun _ => _)) =>
      apply frame_calls_seq; [frame_of_calls | frame_of_calls]
  | |- frame_calls (SetTransformations _ _ _ _ _ _) =>
      eapply frame_calls_emits; [apply emits_SetTransformations | repeat constructor]
  | |- frame_calls (SetTextureUVScale _ _) =>
      eapply frame_calls_emits; [apply emits_SetTextureUVScale | repeat constructor]
  | |- frame_calls (SetShaderTexture _) => apply frame_calls_SetShaderTexture
  | |- frame_calls (SetShaderMaterial _) => apply frame_calls_SetShaderMaterial
  | |- frame_calls (emit (DrawMesh _)) =>
      eapply frame_calls_emits; [apply emits_emit | repeat constructor]
  end.

Lemma RenderScene_frame_calls : frame_calls RenderScene.
Proof.
  unfold RenderScene, RenderLamp, DrawPlaneMesh, DrawBoxMesh, DrawConeMesh,
    DrawCylinderMesh, DrawSphereMesh.
  cbv zeta. frame_of_calls.
Qed.

Lemma frame_calls_texture_free evs :
  Forall (fun e => is_frame_call e = true) evs -> generated evs = [] /\ deleted evs = [].
Proof.
  induction 1 as [|e evs He _ IH]; [split; reflexivity|].
  destruct e; try discriminate He; exact IH.
Qed.

Lemma RenderScene_frame s :
  shading_ready s ->
  exists evs idx,
    RenderScene s = Ok tt (with_effects s evs idx) /\
    draws evs = frame_draws /\ generated evs = [] /\ deleted evs = [].
Proof.
  intros Hs.
  destruct (RenderScene_issues s Hs) as (evs & idx & Hrun & Hdraws).
  destruct (RenderScene_frame_calls s Hs) as (evs' & idx' & Hrun' & Hcalls).
  rewrite Hrun in Hrun'. injection Hrun' as Hevs _. apply app_inv_head in Hevs. subst evs'.
  exists evs, idx. split; [exact Hrun|]. split; [exact Hdraws|].
  apply frame_calls_texture_free, Hcalls.
Qed.

Lemma render_frames_effects n :
  forall s,
    shading_ready s ->
    exists evs idx,
      render_frames n s = Ok tt (with_effects s evs idx) /\
      draws evs = concat (replicate n frame_draws) /\
      generated evs = [] /\ deleted evs = [].
Proof.
  induction n as [|n IH]; intros s Hs.
  - exists [], []. rewrite with_effects_nil. repeat split.
  - destruct (RenderScene_frame s Hs) as (evs1 & idx1 & Hrun1 & Hd1 & Hg1 & Hx1).
    destruct (IH (with_effects s evs1 idx1) Hs) as (evs2 & idx2 & Hrun2 & Hd2 & Hg2 & Hx2).
    exists (evs1 ++ evs2), (idx1 ++ idx2). split.
    + cbn [render_frames]. unfold bind. rewrite Hrun1, Hrun2, with_effects_twice.
      reflexivity.
    + rewrite draws_app, generated_app, deleted_app, Hd1, Hd2, Hg1, Hg2, Hx1, Hx2.
      repeat split.
Qed.

Lemma SceneManager_delete_effects s :
  registry_inv s ->
  SceneManager_delete s
  = Ok tt (mkScene None 0 (m_textureIDs s) (m_objectMaterials s)
                   (calls s ++ slot_events delete_calls 0 (registered s))
                   (touched s ++ seqZ 0 (m_loadedTextures s))).
Proof.
  intros Hinv. unfold SceneManager_delete, bind, set_pShaderManager.
  rewrite DestroyGLTextures_effects by exact Hinv. reflexivity.
Qed.

Lemma loads_then_balanced regs k :
  decodes_uploadable ->
  forall s,
    registry_inv s -> balanced s ->
    exists s', loads_then regs k s = k s' /\ registry_inv s' /\ balanced s' /\
               m_pShaderManager s' = m_pShaderManager s.
Proof.
  intros Hup. induction regs as [|[filename tag] regs IH]; intros s Hinv Hbal.
  - exists s. auto.
  - destruct (CreateGLTexture_balanced filename tag s Hup Hinv Hbal)
      as (b & s1 & Hrun & Hinv1 & Hbal1).
    destruct (CreateGLTexture_keeps filename tag s b s1 Hinv Hrun) as (_ & Hp1 & _).
    destruct (IH s1 Hinv1 Hbal1) as (s2 & Hrun2 & Hinv2 & Hbal2 & Hp2).
    exists s2. split; [|split; [exact Hinv2|split; [exact Hbal2|congruence]]].
    cbn [loads_then fold_right fst snd]. unfold bind at 1. rewrite Hrun. exact Hrun2.
Qed.

Lemma PrepareScene_balanced p junk :
  decodes_uploadable ->
  exists s, PrepareScene (SceneManager_new (Some p) junk) = Ok tt s /\ balanced s.
Proof.
  intros Hup.
  destruct (loads_then_balanced scene_loads BindGLTextures Hup
              (SceneManager_new (Some p) junk) (registry_inv_new (Some p) junk))
    as (s1 & Hloads & Hinv1 & Hbal1 & Hp1); [unfold balanced; simpl; reflexivity|].
  change (loads_then scene_loads BindGLTextures) with LoadSceneTextures in Hloads.
  rewrite (BindGLTextures_effects s1 Hinv1) in Hloads.
  destruct SetupSceneLights_emits as (lights & Hlights & _ & _ & _ & Hg & Hx).
  pose proof (emits_seq _ _ _ _ Hlights emits_meshes) as Hrest.
  set (s2 := with_effects s1 (slot_events bind_calls 0 (registered s1))
                          (seqZ 0 (m_loadedTextures s1))) in *.
  set (s3 := mkScene (m_pShaderManager s2) (m_loadedTextures s2) (m_textureIDs s2)
                     (catalog_of defined_materials) (calls s2) (touched s2)).
  assert (Hs3 : has_shader s3) by (exists p; exact Hp1).
  eexists. split.
  { unfold PrepareScene. unfold bind at 1. rewrite Hloads.
    unfold bind at 1. rewrite (DefineObjectMaterials_catalog s2).
    apply (Hrest s3 Hs3). }
  apply balanced_with_effects.
  - rewrite generated_app, Hg. reflexivity.
  - rewrite deleted_app, Hx. reflexivity.
  - change (balanced s2). subst s2. apply balanced_with_effects;
      [apply generated_slot_events_bind | apply deleted_slot_events_bind | exact Hbal1].
Qed.

(** X24. The life of a scene manager with a shader manager, on every
    platform: [PrepareScene], any number of frames and the destructor all
    complete.  The frames draw 36 primitives each and neither generate nor
    delete a texture; the destructor clears the shader manager pointer,
    deletes exactly the textures registered by [PrepareScene], in slot
    order, and leaves the count at 0.  When every image that decodes has
    three or four channels, every texture generated during this life has
    been deleted, exactly as often as it was generated. *)
Theorem SceneManager_lifetime p junk n :
  exists s1 s2 s3,
    PrepareScene (SceneManager_new (Some p) junk) = Ok tt s1 /\
    render_frames n s1 = Ok tt s2 /\
    draws (calls s2) = draws (calls s1) ++ concat (replicate n frame_draws) /\
    SceneManager_delete s2 = Ok tt s3 /\
    m_pShaderManager s3 = None /\
    m_loadedTextures s3 = 0 /\
    generated (calls s3) = generated (calls s1) /\
    deleted (calls s3) = deleted (calls s1) ++ map tex_ID (registered s1) /\
    (decodes_uploadable -> generated (calls s3) ≡ₚ deleted (calls s3)).
Proof.
  destruct (PrepareScene_keeps_ready _ (new_scene_ready p junk)) as ([] & s1 & Hrun1 & Hs1).
  destruct (render_frames_effects n s1 Hs1) as (evs & idx & Hrun2 & Hdraws & Hgen & Hdel).
  assert (Hinv2 : registry_inv (with_effects s1 evs idx)) by apply Hs1.
  eexists s1, _, _. split; [exact Hrun1|]. split; [exact Hrun2|].
  split; [cbn [calls with_effects]; rewrite draws_app, Hdraws; reflexivity|].
  split; [apply (SceneManager_delete_effects _ Hinv2)|].
  split; [reflexivity|]. split; [reflexivity|].
  cbn [calls with_effects].
  change (registered (with_effects s1 evs idx)) with (registered s1).
  rewrite !generated_app, !deleted_app, Hgen, Hdel, generated_slot_events_delete,
    deleted_slot_events_delete, !app_nil_r.
  split; [reflexivity|]. split; [reflexivity|].
  intros Hup. destruct (PrepareScene_balanced p junk Hup) as (s1' & Hrun1' & Hbal).
  rewrite Hrun1 in Hrun1'. injection Hrun1' as <-. exact Hbal.
Qed.
End Lifetime.

(** ** The view manager *)

Section ViewProperties.
Import View.
Context `{ViewLib}.

Lemma bind_Ok {A B} (m : M A) (k : A -> M B) v a v' :
  m v = Ok a v' -> bind m k v = k a v'.
Proof. intros Hm. unfold bind. rewrite Hm. reflexivity. Qed.

Lemma glfwGetKey_effects input k v w :
  m_pWindow v = Some w -> glfwGetKey input k v = Ok (key_state input k) v.
Proof. intros Hw. unfold glfwGetKey, window, bind. rewrite Hw. reflexivity. Qed.

Lemma move_on_effects input k d v w c :
  m_pWindow v = Some w -> g_pCamera v = Some c ->
  move_on input k d v
  = Ok tt (mkView (m_pShaderManager v) (Some w)
                  (Some (if pressed input k then ProcessKeyboard d (gDeltaTime v) c else c))
                  (gLastX v) (gLastY v) (gFirstMouse v) (gDeltaTime v) (gLastFrame v)
                  (bOrthographicProjection v) (p_pressed v) (o_pressed v) (calls v)).
Proof.
  intros Hw Hc. destruct v; simpl in *; subst.
  unfold move_on, glfwGetKey, window, camera_call, camera, bind, pressed. cbn.
  destruct (key_state input k =? GLFW_PRESS); reflexivity.
Qed.

Ltac read_key w :=
  match goal with
  | |- bind (glfwGetKey ?input ?k) ?f ?v = _ =>
      rewrite (bind_Ok (glfwGetKey input k) f v _ v (glfwGetKey_effects input k v w eq_refl))
  end.

Ltac reread_key w :=
  match goal with
  | |- context [bind (glfwGetKey ?input ?k) ?f ?v] =>
      rewrite (bind_Ok (glfwGetKey input k) f v _ v (glfwGetKey_effects input k v w eq_refl))
  end.

Ltac move_camera w :=
  match goal with
  | |- bind (move_on ?input ?k ?d) ?f ?v = _ =>
      rewrite (bind_Ok (move_on input k d) f v _ _ (move_on_effects input k d v w _ eq_refl eq_refl));
      cbn [m_pShaderManager m_pWindow g_pCamera gLastX gLastY gFirstMouse gDeltaTime
           gLastFrame bOrthographicProjection p_pressed o_pressed calls]
  end.

Lemma ProcessKeyboardEvents_effects input v w c :
  m_pWindow v = Some w -> g_pCamera v = Some c ->
  ProcessKeyboardEvents input v
  = Ok tt (mkView (m_pShaderManager v) (Some w) (Some (moved input (gDeltaTime v) c))
                  (gLastX v) (gLastY v) (gFirstMouse v) (gDeltaTime v) (gLastFrame v)
                  (mode_after input v)
                  (latch_after input GLFW_KEY_P (p_pressed v))
                  (latch_after input GLFW_KEY_O (o_pressed v))
                  (calls v ++ close_request input w)).
Proof.
  intros Hw Hc. destruct v as [p w' c' x y first dt last mode lp lo tr]; simpl in *; subst.
  unfold ProcessKeyboardEvents. read_key w.
  assert (Hesc : forall k : unit -> M unit,
             bind (if key_state input GLFW_KEY_ESCAPE =? GLFW_PRESS
                   then w0 <- window ;; emit (glfwSetWindowShouldClose w0 true)
                   else ret tt) k
                  (mkView p (Some w) (Some c) x y first dt last mode lp lo tr)
             = k tt (mkView p (Some w) (Some c) x y first dt last mode lp lo
                            (tr ++ close_request input w))).
  { intros k. unfold close_request, pressed.
    destruct (key_state input GLFW_KEY_ESCAPE =? GLFW_PRESS); cbn;
      rewrite ?app_nil_r; reflexivity. }
  rewrite Hesc. clear Hesc.
  do 6 move_camera w.
  unfold moved, movement_keys. cbn [fold_left fst snd].
  match goal with
  | |- context [mkView _ _ (Some ?cam) _ _ _ _ _ _ _ _ (tr ++ _)] => generalize cam
  end.
  generalize (tr ++ close_request input w).
  intros tr' cam.
  unfold mode_after, latch_after, fresh_press, pressed.
  read_key w. unfold bind at 1, get at 1. cbn [p_pressed].
  destruct (key_state input GLFW_KEY_P =? GLFW_PRESS) eqn:Hpress, lp,
    (key_state input GLFW_KEY_P =? GLFW_RELEASE) eqn:Hrel; cbn [andb negb].
  all: try (apply Z.eqb_eq in Hpress, Hrel; unfold GLFW_PRESS, GLFW_RELEASE in *; lia).
  all: unfold bind at 1.
  all: try (reread_key w; rewrite Hrel).
  all: cbn [set_bOrthographicProjection set_p_pressed ret bind
         m_pShaderManager m_pWindow g_pCamera gLastX gLastY gFirstMouse gDeltaTime
         gLastFrame bOrthographicProjection p_pressed o_pressed calls].
  all: read_key w; unfold bind at 1, get at 1; cbn [o_pressed].
  all: destruct (key_state input GLFW_KEY_O =? GLFW_PRESS) eqn:Hpress', lo,
         (key_state input GLFW_KEY_O =? GLFW_RELEASE) eqn:Hrel'; cbn [andb negb].
  all: try (apply Z.eqb_eq in Hpress', Hrel'; unfold GLFW_PRESS, GLFW_RELEASE in *; lia).
  all: try (reread_key w; rewrite Hrel').
  all: reflexivity.
Qed.

Lemma PrepareSceneView_effects input v w c :
  m_pWindow v = Some w -> g_pCamera v = Some c ->
  let now := float_of_double (clock input) in
  let dt := fsub now (gLastFrame v) in
  PrepareSceneView input v
  = Ok tt (mkView (m_pShaderManager v) (Some w) (Some (moved input dt c))
                  (gLastX v) (gLastY v) (gFirstMouse v) dt now
                  (mode_after input v)
                  (latch_after input GLFW_KEY_P (p_pressed v))
                  (latch_after input GLFW_KEY_O (o_pressed v))
                  (calls v ++ close_request input w
                          ++ match m_pShaderManager v with
                             | Some _ => published_view (moved input dt c) (mode_after input v)
                             | None => []
                             end)).
Proof.
  intros Hw Hc now dt. destruct v as [p w' c' x y first dt0 last mode lp lo tr].
  simpl in Hw, Hc. subst w' c'.
  unfold PrepareSceneView. unfold bind at 1, get at 1.
  unfold bind at 1, set_gDeltaTime at 1. unfold bind at 1, set_gLastFrame at 1.
  cbn [m_pShaderManager m_pWindow g_pCamera gLastX gLastY gFirstMouse gDeltaTime
       gLastFrame bOrthographicProjection p_pressed o_pressed calls].
  match goal with
  | |- bind (ProcessKeyboardEvents input) ?f ?st = _ =>
      rewrite (bind_Ok (ProcessKeyboardEvents input) f st _ _
                 (ProcessKeyboardEvents_effects input st w c eq_refl eq_refl))
  end.
  cbn [m_pShaderManager m_pWindow g_pCamera gLastX gLastY gFirstMouse gDeltaTime
       gLastFrame bOrthographicProjection p_pressed o_pressed calls].
  unfold mode_after.
  cbn [m_pShaderManager m_pWindow g_pCamera gLastX gLastY gFirstMouse gDeltaTime
       gLastFrame bOrthographicProjection p_pressed o_pressed calls].
  subst now dt.
  cbn [m_pShaderManager m_pWindow g_pCamera gLastX gLastY gFirstMouse gDeltaTime
       gLastFrame bOrthographicProjection p_pressed o_pressed calls].
  generalize (if fresh_press input GLFW_KEY_O lo then true
              else if fresh_press input GLFW_KEY_P lp then false else mode).
  generalize (moved input (fsub (float_of_double (clock input)) last) c).
  generalize (close_request input w).
  intros closing cam mode'. unfold published_view.
  destruct mode', p; cbn; unfold emit, g_ViewName, g_ProjectionName; cbn;
    rewrite <- ?app_assoc, ?app_nil_r; reflexivity.
Qed.

Lemma Mouse_Position_Callback_effects x y v c :
  g_pCamera v = Some c ->
  let fx := float_of_double x in
  let fy := float_of_double y in
  let fromX := if gFirstMouse v then fx else gLastX v in
  let fromY := if gFirstMouse v then fy else gLastY v in
  Mouse_Position_Callback x y v
  = Ok tt (mkView (m_pShaderManager v) (m_pWindow v)
                  (Some (ProcessMouseMovement
                           (float_of_double (dsub x (double_of_float fromX)))
                           (float_of_double (dsub (double_of_float fromY) y)) c))
                  fx fy false (gDeltaTime v) (gLastFrame v)
                  (bOrthographicProjection v) (p_pressed v) (o_pressed v) (calls v)).
Proof.
  intros Hc. destruct v as [p w c' lx ly first dt last mode lp lo tr].
  simpl in Hc. subst c'. destruct first; reflexivity.
Qed.

Lemma Mouse_Wheel_Callback_effects x y v c :
  g_pCamera v = Some c ->
  Mouse_Wheel_Callback x y v
  = Ok tt (mkView (m_pShaderManager v) (m_pWindow v) (Some (ProcessMouseScroll y c))
                  (gLastX v) (gLastY v) (gFirstMouse v) (gDeltaTime v) (gLastFrame v)
                  (bOrthographicProjection v) (p_pressed v) (o_pressed v) (calls v)).
Proof.
  intros Hc. destruct v as [p w c' lx ly first dt last mode lp lo tr].
  simpl in Hc. subst c'. reflexivity.
Qed.

(** X18. The projection mode is switched by key presses, not by held
    keys.  With a window and a camera [ProcessKeyboardEvents] completes.
    A press of O whose latch is clear selects the orthographic
    projection, also when P is pressed in the same frame; a press of P
    whose latch is clear selects the perspective projection when O does
    not; without such a press the mode stays.  After the call the latch of
    a key is set when the key is pressed and clear when it is released.
    The members, the mouse position and the frame times are not touched. *)
Theorem projection_switches_on_fresh_press input v :
  ready v ->
  exists v',
    ProcessKeyboardEvents input v = Ok tt v' /\
    (fresh_press input GLFW_KEY_O (o_pressed v) = true ->
     bOrthographicProjection v' = true) /\
    (fresh_press input GLFW_KEY_O (o_pressed v) = false ->
     fresh_press input GLFW_KEY_P (p_pressed v) = true ->
     bOrthographicProjection v' = false) /\
    (fresh_press input GLFW_KEY_O (o_pressed v) = false ->
     fresh_press input GLFW_KEY_P (p_pressed v) = false ->
     bOrthographicProjection v' = bOrthographicProjection v) /\
    (forall k latch',
        (k, latch') = (GLFW_KEY_P, p_pressed v') \/ (k, latch') = (GLFW_KEY_O, o_pressed v') ->
        (key_state input k = GLFW_PRESS -> latch' = true) /\
        (key_state input k = GLFW_RELEASE -> latch' = false)) /\
    (m_pShaderManager v', m_pWindow v') = (m_pShaderManager v, m_pWindow v) /\
    (gLastX v', gLastY v', gFirstMouse v') = (gLastX v, gLastY v, gFirstMouse v) /\
    (gDeltaTime v', gLastFrame v') = (gDeltaTime v, gLastFrame v).
Proof.
  intros [[w Hw] [c Hc]]. eexists.
  split; [apply (ProcessKeyboardEvents_effects input v w c Hw Hc)|].
  cbn [m_pShaderManager m_pWindow g_pCamera gLastX gLastY gFirstMouse gDeltaTime
       gLastFrame bOrthographicProjection p_pressed o_pressed calls].
  unfold mode_after.
  split; [intros ->; reflexivity|]. split; [intros -> ->; reflexivity|].
  split; [intros -> ->; reflexivity|]. split.
  - intros k latch' [Hk|Hk]; injection Hk as -> ->; unfold latch_after; split; intros ->;
      reflexivity.
  - rewrite Hw. repeat split.
Qed.

Lemma latch_after_pressed input k latch :
  pressed input k = true -> latch_after input k latch = true.
Proof. unfold pressed, latch_after. intros ->. reflexivity. Qed.

Lemma run_frames_held input rest :
  Forall (fun i => forall k, key_state i k = key_state input k) rest ->
  forall v,
    ready v ->
    (pressed input GLFW_KEY_P = true -> p_pressed v = true) ->
    (pressed input GLFW_KEY_O = true -> o_pressed v = true) ->
    exists v',
      run_events (map Frame rest) v = Ok tt v' /\
      bOrthographicProjection v' = bOrthographicProjection v.
Proof.
  induction 1 as [|i rest Hi _ IH]; intros v Hready HP HO.
  - exists v. split; reflexivity.
  - destruct Hready as [[w Hw] [c Hc]].
    assert (HiP : pressed i GLFW_KEY_P = pressed input GLFW_KEY_P)
      by (unfold pressed; rewrite Hi; reflexivity).
    assert (HiO : pressed i GLFW_KEY_O = pressed input GLFW_KEY_O)
      by (unfold pressed; rewrite Hi; reflexivity).
    assert (Hmode : mode_after i v = bOrthographicProjection v).
    { unfold mode_after, fresh_press. rewrite HiP, HiO.
      destruct (pressed input GLFW_KEY_O); [rewrite HO by reflexivity|];
        (destruct (pressed input GLFW_KEY_P); [rewrite HP by reflexivity|]); reflexivity. }
    edestruct IH as (v' & Hrun & Hsame); cycle 3.
    + exists v'. cbn [map run_events run_event].
      rewrite (bind_Ok (PrepareSceneView i) _ _ _ _
                 (PrepareSceneView_effects i v w c Hw Hc)).
      split; [exact Hrun|]. rewrite Hsame. exact Hmode.
    + split; [exists w; reflexivity | eexists; reflexivity].
    + intros Hp. cbn [p_pressed]. apply latch_after_pressed. rewrite HiP. exact Hp.
    + intros Ho. cbn [o_pressed]. apply latch_after_pressed. rewrite HiO. exact Ho.
Qed.

(** X19. Holding keys switches the projection at most once.  Let a frame
    with some key states be followed by any number of frames in which
    every key is in the same state, whatever the clock shows.  All frames
    complete, and the projection mode after the last frame is the mode
    after the first. *)
Theorem held_keys_switch_once input rest v :
  ready v ->
  Forall (fun i => forall k, key_state i k = key_state input k) rest ->
  exists v1 v2,
    PrepareSceneView input v = Ok tt v1 /\
    run_events (map Frame rest) v1 = Ok tt v2 /\
    bOrthographicProjection v2 = bOrthographicProjection v1.
Proof.
  intros [[w Hw] [c Hc]] Hheld.
  eexists. 
  edestruct (run_frames_held input rest Hheld) as (v2 & Hrun & Hsame); cycle 3.
  - exists v2. split; [apply (PrepareSceneView_effects input v w c Hw Hc)|].
    split; [exact Hrun | exact Hsame].
  - split; [exists w; reflexivity | eexists; reflexivity].
  - intros Hp. cbn [p_pressed]. apply latch_after_pressed. exact Hp.
  - intros Ho. cbn [o_pressed]. apply latch_after_pressed. exact Ho.
Qed.

(** X20. What a frame publishes.  With a window and a camera
    [PrepareSceneView] completes.  The delta time becomes the clock, as a
    [float], minus the time of the last frame, and the camera movements
    of this frame already use it.  With a shader manager the frame writes
    the uniforms "view", "projection" and "viewPosition", in this order and
    after the request to close the window, from the camera as moved in
    this frame and the projection mode as switched in this frame: a press
    of O is visible in the same frame.  The orthographic matrix does not
    depend on the camera.  Without a shader manager the same state is
    reached and no uniform is written. *)
Theorem PrepareSceneView_publishes input v w c :
  m_pWindow v = Some w -> g_pCamera v = Some c ->
  let now := float_of_double (clock input) in
  let dt := fsub now (gLastFrame v) in
  let c' := moved input dt c in
  exists v',
    PrepareSceneView input v = Ok tt v' /\
    gDeltaTime v' = dt /\ gLastFrame v' = now /\
    g_pCamera v' = Some c' /\
    bOrthographicProjection v' = mode_after input v /\
    calls v'
    = calls v ++ close_request input w
              ++ match m_pShaderManager v with
                 | Some _ =>
                     [shader_set "view" (UMat4 (GetViewMatrix c'));
                      shader_set "projection"
                                 (UMat4 (if mode_after input v then orthographic
                                         else perspective (Zoom c')));
                      shader_set "viewPosition" (UVec3 (Position c'))]
                 | None => []
                 end /\
    (fresh_press input GLFW_KEY_O (o_pressed v) = true ->
     mode_after input v = true) /\
    (m_pShaderManager v', m_pWindow v') = (m_pShaderManager v, m_pWindow v).
Proof.
  intros Hw Hc now dt c'. eexists.
  split; [apply (PrepareSceneView_effects input v w c Hw Hc)|].
  cbn [m_pShaderManager m_pWindow g_pCamera gLastX gLastY gFirstMouse gDeltaTime
       gLastFrame bOrthographicProjection p_pressed o_pressed calls].
  split; [reflexivity|]. split; [reflexivity|]. split; [reflexivity|].
  split; [reflexivity|]. split; [reflexivity|]. split.
  - unfold mode_after. intros ->. reflexivity.
  - rewrite Hw. reflexivity.
Qed.

(** X21. The mouse position callback.  With a camera it completes,
    records the position, converted to [float], as the last one and clears
    the first-mouse flag.  The offsets handed to the camera are the
    distances, computed in [double] and converted to [float], from the
    last position, x forward and y reversed; on the first event they are
    taken from the event's own converted position, so the initial last
    position (the centre of the window) is never used. *)
Theorem Mouse_Position_Callback_offsets x y v c :
  g_pCamera v = Some c ->
  exists v' xOffset yOffset,
    Mouse_Position_Callback x y v = Ok tt v' /\
    g_pCamera v' = Some (ProcessMouseMovement xOffset yOffset c) /\
    (gLastX v', gLastY v') = (float_of_double x, float_of_double y) /\
    gFirstMouse v' = false /\
    (gFirstMouse v = false ->
     xOffset = float_of_double (dsub x (double_of_float (gLastX v))) /\
     yOffset = float_of_double (dsub (double_of_float (gLastY v)) y)) /\
    (gFirstMouse v = true ->
     xOffset = float_of_double (dsub x (double_of_float (float_of_double x))) /\
     yOffset = float_of_double (dsub (double_of_float (float_of_double y)) y)) /\
    (forall lastX lastY,
        gFirstMouse v = true ->
        Mouse_Position_Callback
          x y (mkView (m_pShaderManager v) (m_pWindow v) (g_pCamera v) lastX lastY
                      (gFirstMouse v) (gDeltaTime v) (gLastFrame v)
                      (bOrthographicProjection v) (p_pressed v) (o_pressed v) (calls v))
        = Ok tt v').
Proof.
  intros Hc. eexists _, _, _.
  split; [apply (Mouse_Position_Callback_effects x y v c Hc)|].
  cbn [m_pShaderManager m_pWindow g_pCamera gLastX gLastY gFirstMouse gDeltaTime
       gLastFrame bOrthographicProjection p_pressed o_pressed calls].
  split; [reflexivity|]. split; [reflexivity|]. split; [reflexivity|].
  split; [intros ->; split; reflexivity|]. split; [intros ->; split; reflexivity|].
  intros lastX lastY Hfirst.
  rewrite (Mouse_Position_Callback_effects x y _ c) by exact Hc.
  cbn [m_pShaderManager m_pWindow g_pCamera gLastX gLastY gFirstMouse gDeltaTime
       gLastFrame bOrthographicProjection p_pressed o_pressed calls].
  rewrite Hfirst. reflexivity.
Qed.

Lemma ProcessKeyboardEvents_without_camera input v :
  g_pCamera v = None ->
  match ProcessKeyboardEvents input v with
  | Ok _ v' => g_pCamera v' = None
  | Crash c => c = NullDereference
  end.
Proof.
  intros Hc. destruct v as [p w c' x y first dt last mode lp lo tr].
  simpl in Hc. subst c'.
  destruct w as [w|]; [|reflexivity].
  unfold ProcessKeyboardEvents. reread_key w.
  destruct (key_state input GLFW_KEY_ESCAPE =? GLFW_PRESS); unfold bind at 1;
    cbn [window emit ret bind m_pShaderManager m_pWindow g_pCamera gLastX gLastY
         gFirstMouse gDeltaTime gLastFrame bOrthographicProjection p_pressed o_pressed calls].
  all: repeat match goal with
         | |- match bind (move_on ?i ?k ?d) ?f ?st with _ => _ end =>
             unfold bind at 1, move_on at 1;
             rewrite (bind_Ok (glfwGetKey i k) _ st _ st (glfwGetKey_effects i k st w eq_refl));
             destruct (key_state i k =? GLFW_PRESS); [reflexivity|];
             cbn [ret]
         end.
  all: reread_key w; unfold bind at 1, get at 1; cbn [p_pressed].
  all: destruct (key_state input GLFW_KEY_P =? GLFW_PRESS), lp,
         (key_state input GLFW_KEY_P =? GLFW_RELEASE) eqn:Hrel; cbn [andb negb].
  all: unfold bind at 1.
  all: try (reread_key w; rewrite Hrel).
  all: cbn [set_bOrthographicProjection set_p_pressed ret bind
         m_pShaderManager m_pWindow g_pCamera gLastX gLastY gFirstMouse gDeltaTime
         gLastFrame bOrthographicProjection p_pressed o_pressed calls].
  all: reread_key w; unfold bind at 1, get at 1; cbn [o_pressed].
  all: destruct (key_state input GLFW_KEY_O =? GLFW_PRESS), lo,
         (key_state input GLFW_KEY_O =? GLFW_RELEASE) eqn:Hrel'; cbn [andb negb].
  all: try (reread_key w; rewrite Hrel').
  all: reflexivity.
Qed.

(** X22. Nothing works without a camera.  When [g_pCamera] is null, as
    before the first constructor call and after the destructor, a frame,
    a mouse move and a mouse wheel event each call through the null
    pointer, whatever the keys, the window and the other variables are. *)
Theorem view_needs_camera e v :
  g_pCamera v = None ->
  run_event e v = Crash NullDereference /\
  run_event e (ViewManager_delete v) = Crash NullDereference /\
  run_event e program_start = Crash NullDereference.
Proof.
  assert (Hcrash : forall v0, g_pCamera v0 = None -> run_event e v0 = Crash NullDereference).
  { intros v0 Hc. destruct e as [input|x y|x y]; cbn [run_event].
    - unfold PrepareSceneView. unfold bind at 1, get at 1.
      unfold bind at 1, set_gDeltaTime at 1. unfold bind at 1, set_gLastFrame at 1.
      unfold bind at 1.
      match goal with
      | |- match ProcessKeyboardEvents input ?st with _ => _ end = _ =>
          pose proof (ProcessKeyboardEvents_without_camera input st Hc) as Hkeys;
          destruct (ProcessKeyboardEvents input st) as [[] v1|c1]
      end.
      + unfold bind, camera. rewrite Hkeys. reflexivity.
      + rewrite Hkeys. reflexivity.
    - destruct v0 as [p w c' lx ly first dt last mode lp lo tr].
      simpl in Hc. subst c'. destruct first; reflexivity.
    - destruct v0 as [p w c' lx ly first dt last mode lp lo tr].
      simpl in Hc. subst c'. reflexivity. }
  intros Hc. split; [apply Hcrash, Hc|]. split; apply Hcrash; reflexivity.
Qed.

Lemma run_event_ready e v w c :
  m_pWindow v = Some w -> g_pCamera v = Some c ->
  exists v' c',
    run_event e v = Ok tt v' /\
    m_pWindow v' = Some w /\ g_pCamera v' = Some c' /\
    m_pShaderManager v' = m_pShaderManager v /\
    (m_pShaderManager v = None ->
     List.filter is_shader_set (calls v') = List.filter is_shader_set (calls v)).
Proof.
  intros Hw Hc. destruct e as [input|x y|x y]; cbn [run_event].
  - eexists _, _. split; [apply (PrepareSceneView_effects input v w c Hw Hc)|].
    cbn [m_pShaderManager m_pWindow g_pCamera calls].
    split; [reflexivity|]. split; [reflexivity|]. split; [reflexivity|].
    intros ->. rewrite app_nil_r, List.filter_app. unfold close_request.
    destruct (pressed input GLFW_KEY_ESCAPE); cbn; rewrite app_nil_r; reflexivity.
  - eexists _, _. split; [apply (Mouse_Position_Callback_effects x y v c Hc)|].
    cbn [m_pShaderManager m_pWindow g_pCamera calls]. auto.
  - eexists _, _. split; [apply (Mouse_Wheel_Callback_effects x y v c Hc)|].
    cbn [m_pShaderManager m_pWindow g_pCamera calls]. auto.
Qed.

Lemma run_events_ready es :
  forall v w c,
    m_pWindow v = Some w -> g_pCamera v = Some c ->
    exists v' c',
      run_events es v = Ok tt v' /\
      m_pWindow v' = Some w /\ g_pCamera v' = Some c' /\
      m_pShaderManager v' = m_pShaderManager v /\
      (m_pShaderManager v = None ->
       List.filter is_shader_set (calls v') = List.filter is_shader_set (calls v)).
Proof.
  induction es as [|e es IH]; intros v w c Hw Hc.
  - exists v, c. auto.
  - destruct (run_event_ready e v w c Hw Hc) as (v1 & c1 & Hrun1 & Hw1 & Hc1 & Hp1 & Hquiet1).
    destruct (IH v1 w c1 Hw1 Hc1) as (v2 & c2 & Hrun2 & Hw2 & Hc2 & Hp2 & Hquiet2).
    exists v2, c2. cbn [run_events]. rewrite (bind_Ok _ _ _ _ _ Hrun1).
    split; [exact Hrun2|]. split; [exact Hw2|]. split; [exact Hc2|].
    split; [congruence|]. intros Hnone. rewrite Hquiet2, Hquiet1; congruence.
Qed.

Lemma CreateDisplayWindow_effects windowTitle v :
  CreateDisplayWindow windowTitle v
  = match glfwCreateWindow WINDOW_WIDTH WINDOW_HEIGHT windowTitle with
    | Some w =>
        Ok (Some w)
           (mkView (m_pShaderManager v) (Some w) (g_pCamera v) (gLastX v) (gLastY v)
                   (gFirstMouse v) (gDeltaTime v) (gLastFrame v) (bOrthographicProjection v)
                   (p_pressed v) (o_pressed v)
                   (calls v ++ [glfwMakeContextCurrent w; glfwSetInputMode_cursor_disabled w;
                                glfwSetCursorPosCallback w; glfwSetScrollCallback w;
                                glEnable_blend; glBlendFunc_src_alpha_one_minus_src_alpha]))
    | None =>
        Ok None
           (mkView (m_pShaderManager v) (m_pWindow v) (g_pCamera v) (gLastX v) (gLastY v)
                   (gFirstMouse v) (gDeltaTime v) (gLastFrame v) (bOrthographicProjection v)
                   (p_pressed v) (o_pressed v)
                   (calls v ++ [cout_failed_to_create_window; glfwTerminate]))
    end.
Proof.
  unfold CreateDisplayWindow.
  destruct (glfwCreateWindow WINDOW_WIDTH WINDOW_HEIGHT windowTitle) as [w|];
    destruct v; cbn; rewrite <- !app_assoc; reflexivity.
Qed.

(** X23. The life of a view manager.  Construct one in any state of the
    file's variables and create the display window.  When GLFW returns no
    window, [CreateDisplayWindow] prints one line, terminates GLFW, returns
    [NULL] and leaves [m_pWindow] null; nothing of OpenGL is set up.  When
    GLFW returns a window, it is made current, the cursor is captured, the
    two callbacks are installed, blending is enabled, and the window is
    stored and returned.  The camera then stands at (0, 5, 12) with zoom 80
    and speed 20.  From there every sequence of frames, mouse moves and
    wheel events completes; the window and the shader manager never
    change, and without a shader manager no uniform is ever written. *)
Theorem ViewManager_lifecycle pShaderManager windowTitle v0 :
  let v := ViewManager_new pShaderManager v0 in
  match glfwCreateWindow WINDOW_WIDTH WINDOW_HEIGHT windowTitle with
  | None =>
      exists v1,
        CreateDisplayWindow windowTitle v = Ok None v1 /\
        m_pWindow v1 = None /\
        calls v1 = calls v0 ++ [cout_failed_to_create_window; glfwTerminate]
  | Some w =>
      exists v1 c,
        CreateDisplayWindow windowTitle v = Ok (Some w) v1 /\
        m_pWindow v1 = Some w /\
        calls v1 = calls v0 ++ [glfwMakeContextCurrent w; glfwSetInputMode_cursor_disabled w;
                                glfwSetCursorPosCallback w; glfwSetScrollCallback w;
                                glEnable_blend; glBlendFunc_src_alpha_one_minus_src_alpha] /\
        g_pCamera v1 = Some c /\
        Position c = glm_vec3 0.0 5.0 12.0 /\
        Zoom c = float_of_int 80 /\ MovementSpeed c = float_of_int 20 /\
        forall es,
          exists v2,
            run_events es v1 = Ok tt v2 /\
            m_pWindow v2 = Some w /\
            m_pShaderManager v2 = pShaderManager /\
            (pShaderManager = None ->
             List.filter is_shader_set (calls v2) = List.filter is_shader_set (calls v0))
  end.
Proof.
  intros v. rewrite CreateDisplayWindow_effects.
  destruct (glfwCreateWindow WINDOW_WIDTH WINDOW_HEIGHT windowTitle) as [w|].
  - eexists _, _. split; [reflexivity|].
    cbn [m_pShaderManager m_pWindow g_pCamera calls v ViewManager_new].
    split; [reflexivity|]. split; [reflexivity|].
    split; [reflexivity|]. split; [reflexivity|]. split; [reflexivity|].
    split; [reflexivity|].
    intros es.
    edestruct (run_events_ready es) as (v2 & c2 & Hrun & Hw2 & _ & Hp2 & Hquiet);
      [| |exists v2; split; [exact Hrun|]]; [reflexivity..|].
    split; [exact Hw2|]. split; [exact Hp2|].
    intros Hnone. rewrite Hquiet by exact Hnone.
    cbn [calls]. rewrite !List.filter_app, app_nil_r. reflexivity.
  - eexists. split; [reflexivity|]. split; reflexivity.
Qed.
End ViewProperties.

(** * The reference scene on the concrete platform *)

Module Reference.

Import Symbolic.
#[local] Existing Instance glm.
#[local] Existing Instance rgb.

(** The frame of the reference scene is not the documented one: it has 36
    draw commands, the documented frame 34, because each lamp is drawn
    from ten primitives. *)
Lemma RenderScene_not_documented_frame :
  exists evs idx,
    RenderScene reference_scene = Ok tt (with_effects reference_scene evs idx) /\
    length (draws evs) = 36%nat /\
    ~ documented_frame (draws evs).
Proof.
  assert (Hready : shading_ready reference_scene).
  { split; [exists 1%positive; vm_compute; reflexivity|].
    split; [vm_compute; split; discriminate | vm_compute; reflexivity]. }
  destruct (RenderScene_issues reference_scene Hready) as (evs & idx & Hrun & Hdraws).
  exists evs, idx. split; [exact Hrun|]. rewrite Hdraws. split; [reflexivity|].
  intros (lamp1 & lamp2 & jar & window & H1 & H2 & H3 & H4 & Heq).
  apply (f_equal (@length primitive)) in Heq.
  rewrite !length_app, H1, H2, H3, H4 in Heq. discriminate Heq.
Qed.

(** C2 fails on the code.  On the reference catalog, publish ["wood"] and
    then the unknown tag ["chrome"]: the second call prints no warning and
    writes the three material uniforms again, with the content of its
    uninitialised local (all zero on this platform), so the published
    diffuse colour is no longer that of ["wood"]. *)
Theorem SetShaderMaterial_unknown_tag_overwrites :
  exists s1 s2,
    SetShaderMaterial "wood" catalog_scene = Ok tt s1 /\
    SetShaderMaterial "chrome" s1 = Ok tt s2 /\
    calls s2
    = calls s1
      ++ [shader_set "material.diffuseColor" (UVec3 (glm_vec3 0 0 0));
          shader_set "material.specularColor" (UVec3 (glm_vec3 0 0 0));
          shader_set "material.shininess" (UFloat (flit 0))] /\
    ~ In (cout (MaterialNotFound "chrome")) (calls s2) /\
    published (calls s1) "material.diffuseColor" = Some (UVec3 (glm_vec3 0.6 0.5 0.2)) /\
    published (calls s2) "material.diffuseColor" = Some (UVec3 (glm_vec3 0 0 0)).
Proof.
  eexists _, _. split; [vm_compute; reflexivity|]. split; [vm_compute; reflexivity|].
  split; [reflexivity|]. split; [|split; reflexivity].
  cbn [calls]. intros Hin. simpl in Hin.
  repeat (destruct Hin as [Hin|Hin]; [discriminate Hin|]). exact Hin.
Qed.

(** C3 at the reference catalog and the tag ["chrome"]. *)
Lemma FindMaterial_miss_witness :
  FindMaterial "chrome" (mkMaterial (glm_vec3 1 2 3) (glm_vec3 4 5 6) (flit 7) "out")
               catalog_scene
  = Ok (true, mkMaterial (glm_vec3 1 2 3) (glm_vec3 4 5 6) (flit 7) "out") catalog_scene.
Proof.
  apply FindMaterial_miss_reports_found.
  - discriminate.
  - repeat (constructor; [discriminate|]). constructor.
Defined.

(** C5 on the registrations "a", "b", "c". *)
Lemma slots_follow_registration_order_witness :
  load_all abc new_scene = Ok [true; true; true] abc_scene /\
  map tex_tag (registered abc_scene) = ["a"; "b"; "c"] /\
  map tex_ID (registered abc_scene) = [1; 2; 3] /\
  BindGLTextures abc_scene
  = Ok tt (with_effects abc_scene
             [glActiveTexture (GL_TEXTURE0 + 0); glBindTexture 1;
              glActiveTexture (GL_TEXTURE0 + 1); glBindTexture 2;
              glActiveTexture (GL_TEXTURE0 + 2); glBindTexture 3]
             [0; 1; 2]) /\
  value (FindTextureSlot "b" abc_scene) = Some 1 /\
  value (FindTextureSlot "d" abc_scene) = Some (-1).
Proof.
  assert (Hrun : load_all abc new_scene = Ok [true; true; true] abc_scene)
    by (vm_compute; reflexivity).
  destruct (slots_follow_registration_order
              (Some 1%positive) (fun _ => 0) abc [true; true; true] abc_scene Hrun)
    as (Htags & Hids & Hbind & Hfirst & Habsent).
  { repeat constructor. }
  split; [exact Hrun|]. split; [exact Htags|].
  split; [rewrite Hids; reflexivity|]. split; [exact Hbind|]. split.
  - apply (Hfirst "b" 1%nat); [reflexivity|].
    intros [|j] Hj; [discriminate | lia].
  - apply (Habsent "d"). simpl. intros [Hd|[Hd|[Hd|[]]]]; discriminate Hd.
Defined.

Lemma full_scene_inv : registry_inv full_scene.
Proof. split; [vm_compute; split; discriminate | vm_compute; reflexivity]. Defined.

(** The capacity test on a registry filled by sixteen registrations. *)
Lemma CreateGLTexture_at_capacity_witness :
  m_loadedTextures full_scene = MAX_TEXTURES /\
  stbi_load "textures/extra.jpg" = Some (mkImage 1024 1024 3) /\
  exists s' id before,
    CreateGLTexture "textures/extra.jpg" "extra" full_scene = Ok false s' /\
    calls s' = calls full_scene ++ before ++ [glDeleteTextures id] /\
    In (glGenTextures_call id) before /\
    m_loadedTextures s' = 16 /\
    m_textureIDs s' = m_textureIDs full_scene /\
    value (FindTextureSlot "t7" s') = value (FindTextureSlot "t7" full_scene) /\
    value (FindTextureID "t7" s') = value (FindTextureID "t7" full_scene).
Proof.
  assert (Hfull : m_loadedTextures full_scene = MAX_TEXTURES) by (vm_compute; reflexivity).
  assert (Hload : stbi_load "textures/extra.jpg" = Some (mkImage 1024 1024 3))
    by reflexivity.
  split; [exact Hfull|]. split; [exact Hload|].
  destruct (CreateGLTexture_at_capacity
              "textures/extra.jpg" "extra" (mkImage 1024 1024 3) full_scene
              full_scene_inv Hfull Hload (or_introl eq_refl))
    as (s' & id & before & Hrun & Hcalls & Hgen & Hnodel & Hcount & Harr & Hfind).
  exists s', id, before. split; [exact Hrun|]. split; [exact Hcalls|].
  split; [exact Hgen|]. split; [rewrite Hcount; exact Hfull|]. split; [exact Harr|].
  destruct (Hfind "t7") as (Hslot & Hid & _ & _). split; [exact Hslot | exact Hid].
Defined.

(** The same load, evaluated: the seventeenth texture is generated and
    deleted again, and the lookups answer as before. *)
Example load_at_capacity :
  let s' := after (CreateGLTexture "textures/extra.jpg" "extra") full_scene in
  CreateGLTexture "textures/extra.jpg" "extra" full_scene = Ok false s' /\
  In (glGenTextures_call 17) (calls s') /\
  last (calls s') = Some (glDeleteTextures 17) /\
  m_loadedTextures s' = 16 /\
  value (FindTextureSlot "t7" s') = Some 7 /\
  value (FindTextureID "t7" s') = Some 8 /\
  value (FindTextureSlot "extra" s') = Some (-1).
Proof. vm_compute. intuition reflexivity. Qed.

(** C6 fails on the code.  On a platform where ["textures/extra.jpg"] is
    a greyscale image, sixteen registrations fill the registry and the file
    then decodes, to one channel.  [CreateGLTexture] returns [false] and
    leaves the count, the array and the lookups as they were, but it does
    not release the texture it created: texture 17 is generated, is not
    registered and is never deleted; the load ends with the console line
    and [stbi_image_free].  A three-channel file at the same state takes
    the capacity branch, whose last call deletes texture 17. *)
Theorem CreateGLTexture_unsupported_at_capacity_leaks :
  let s' := after (@CreateGLTexture glm grey_extra "textures/extra.jpg" "extra") full_scene in
  let s'' := after (@CreateGLTexture glm grey_extra "textures/other.jpg" "other") full_scene in
  @load_all glm grey_extra sixteen new_scene = Ok (replicate 16 true) full_scene /\
  m_loadedTextures full_scene = MAX_TEXTURES /\
  @stbi_load glm grey_extra "textures/extra.jpg" = Some (mkImage 1024 1024 1) /\
  @CreateGLTexture glm grey_extra "textures/extra.jpg" "extra" full_scene = Ok false s' /\
  In (glGenTextures_call 17) (calls s') /\
  (forall id, ~ In (glDeleteTextures id) (calls s')) /\
  ~ In 17 (map tex_ID (registered s')) /\
  last (calls s') = Some stbi_image_free /\
  m_loadedTextures s' = 16 /\
  m_textureIDs s' = m_textureIDs full_scene /\
  value (FindTextureSlot "t7" s') = value (FindTextureSlot "t7" full_scene) /\
  value (FindTextureID "t7" s') = value (FindTextureID "t7" full_scene) /\
  @CreateGLTexture glm grey_extra "textures/other.jpg" "other" full_scene = Ok false s'' /\
  last (calls s'') = Some (glDeleteTextures 17).
Proof.
  vm_compute.
  split; [reflexivity|]. split; [reflexivity|]. split; [reflexivity|].
  split; [reflexivity|]. split; [tauto|]. split.
  { intros id Hin. repeat (destruct Hin as [Hin|Hin]; [discriminate Hin|]). exact Hin. }
  split.
  { intros Hin. repeat (destruct Hin as [Hin|Hin]; [discriminate Hin|]). exact Hin. }
  repeat (split; [reflexivity|]). reflexivity.
Qed.

(** C9 on the reference scene, which holds seven textures. *)
Lemma reference_scene_inv : registry_inv reference_scene.
Proof. split; [vm_compute; split; discriminate | vm_compute; reflexivity]. Defined.

Lemma DestroyGLTextures_idempotent_witness :
  exists s1,
    DestroyGLTextures reference_scene = Ok tt s1 /\
    calls s1
    = calls reference_scene
      ++ [glDeleteTextures 1; glDeleteTextures 2; glDeleteTextures 3; glDeleteTextures 4;
          glDeleteTextures 5; glDeleteTextures 6; glDeleteTextures 7] /\
    m_loadedTextures s1 = 0 /\
    DestroyGLTextures s1 = Ok tt s1.
Proof.
  destruct (DestroyGLTextures_idempotent reference_scene reference_scene_inv)
    as (s1 & Hrun & Hcalls & Hcount & Hnone & Hagain & Htwice).
  exists s1. split; [exact Hrun|]. split.
  - rewrite Hcalls. apply (f_equal (app (calls reference_scene))).
    vm_compute. reflexivity.
  - split; [exact Hcount | exact Hagain].
Defined.

End Reference.

(** * Examples on the concrete platforms *)

Module Examples.

Import Symbolic.
#[local] Existing Instance glm.
#[local] Existing Instance rgb.

Lemma abc_scene_inv : registry_inv abc_scene.
Proof. split; [vm_compute; split; discriminate | vm_compute; reflexivity]. Defined.

Lemma catalog_scene_ready : scene_with [] catalog_scene.
Proof.
  split; [exists 1%positive; reflexivity|].
  split; [split; [vm_compute; split; discriminate | vm_compute; reflexivity]|].
  split; reflexivity.
Defined.

Lemma reference_scene_ready : scene_with scene_textures reference_scene.
Proof.
  split; [exists 1%positive; vm_compute; reflexivity|].
  split; [split; [vm_compute; split; discriminate | vm_compute; reflexivity]|].
  split; vm_compute; reflexivity.
Defined.

Lemma d_png_decodes : stbi_load "d.png" = Some (mkImage 1024 1024 3).
Proof. reflexivity. Defined.

(** X1 on the registrations "a", "b", "c": the tag "b" is at index 1 and
    has the texture 2; the tag "d" is not registered. *)
Lemma lookups_first_match_witness :
  (exists idx, FindTextureSlot "b" abc_scene = Ok 1 (with_effects abc_scene [] idx)) /\
  (exists idx, FindTextureID "b" abc_scene = Ok 2 (with_effects abc_scene [] idx)) /\
  (exists idx, FindTextureSlot "d" abc_scene = Ok (-1) (with_effects abc_scene [] idx)).
Proof.
  destruct (lookups_first_match "b" abc_scene abc_scene_inv)
    as ((idx1 & Hslot) & (idx2 & Hid) & Hfirst & _).
  destruct (Hfirst 1%nat (mkTexture "b" 2)) as [Hb1 Hb2].
  { vm_compute. reflexivity. }
  { reflexivity. }
  { intros [|j] u Hj Hu; [|lia]. vm_compute in Hu. injection Hu as <-. discriminate. }
  destruct (lookups_first_match "d" abc_scene abc_scene_inv)
    as ((idx3 & Hslot') & _ & _ & Hnone).
  destruct Hnone as [Hd _].
  { vm_compute. repeat (constructor; [discriminate|]). constructor. }
  rewrite Hb1 in Hslot. rewrite Hb2 in Hid. rewrite Hd in Hslot'.
  split; [exists idx1; exact Hslot|]. split; [exists idx2; exact Hid|].
  exists idx3. exact Hslot'.
Defined.

(** X2 on a full registry: the load returns [false]. *)
Lemma CreateGLTexture_succeeds_iff_witness :
  exists s',
    CreateGLTexture "textures/extra.jpg" "extra" full_scene = Ok false s' /\
    registry_inv s' /\
    m_loadedTextures s' = m_loadedTextures full_scene /\
    m_textureIDs s' = m_textureIDs full_scene.
Proof.
  destruct (CreateGLTexture_succeeds_iff "textures/extra.jpg" "extra" full_scene
              Reference.full_scene_inv)
    as (b & s' & Hrun & Hinv & _ & _ & Hiff & _ & Hfalse).
  destruct b.
  - destruct Hiff as [Hiff _]. destruct (Hiff eq_refl) as [_ Hroom].
    vm_compute in Hroom. discriminate Hroom.
  - exists s'. split; [exact Hrun|]. split; [exact Hinv|]. apply Hfalse. reflexivity.
Defined.

(** X3 on the registrations "a", "b", "c" and a fourth file: the image is
    freed once, the texture 4 is generated and registered, nothing is
    deleted. *)
Lemma CreateGLTexture_resources_witness :
  exists s' evs,
    CreateGLTexture "d.png" "d" abc_scene = Ok true s' /\
    calls s' = calls abc_scene ++ evs /\
    frees evs = 1%nat /\ generated evs = [4] /\ deleted evs = [] /\
    registered s' = registered abc_scene ++ [mkTexture "d" 4].
Proof.
  destruct (CreateGLTexture_resources "d.png" "d" abc_scene abc_scene_inv)
    as (b & s' & evs & Hrun & Hcalls & Hres).
  change (stbi_load "d.png") with (Some (mkImage 1024 1024 3)) in Hres.
  cbv beta iota zeta in Hres.
  assert (Hid : new_texture abc_scene "d.png" (mkImage 1024 1024 3) = 4)
    by (vm_compute; reflexivity).
  rewrite Hid in Hres. destruct Hres as (Hfrees & Hgen & Hres).
  change ((colorChannels (mkImage 1024 1024 3) =? 3)
          || (colorChannels (mkImage 1024 1024 3) =? 4)) with true in Hres.
  cbv iota in Hres.
  destruct b.
  - destruct Hres as [Hdel Hreg]. exists s', evs. auto 7.
  - destruct Hres as [_ Hreg].
    destruct (CreateGLTexture_appends "d.png" "d" (mkImage 1024 1024 3) abc_scene
                abc_scene_inv d_png_decodes (or_introl eq_refl))
      as (s2 & Hrun2 & _); [vm_compute; reflexivity|].
    rewrite Hrun in Hrun2. discriminate Hrun2.
Defined.

(** X4 on the registrations "a", "b", "c" and a fourth one, "d". *)
Lemma register_then_lookup_witness :
  exists s',
    CreateGLTexture "d.png" "d" abc_scene = Ok true s' /\
    value (FindTextureSlot "b" s') = Some 1 /\
    value (FindTextureSlot "d" s') = Some 3 /\
    value (FindTextureID "d" s') = Some 4 /\
    value (FindTextureSlot "e" s') = Some (-1).
Proof.
  destruct (register_then_lookup "d.png" "d" (mkImage 1024 1024 3) abc_scene
              abc_scene_inv d_png_decodes (or_introl eq_refl))
    as (s' & Hrun & _ & Hfind); [vm_compute; reflexivity|].
  exists s'. split; [exact Hrun|].
  destruct (Hfind "b") as ((Hb & _) & _); [vm_compute; discriminate|].
  destruct (Hfind "d") as (_ & (Hd1 & Hd2) & _); [vm_compute; reflexivity | reflexivity|].
  destruct (Hfind "e") as (_ & _ & (He & _)); [vm_compute; reflexivity | discriminate|].
  split; [rewrite Hb; vm_compute; reflexivity|].
  split; [rewrite Hd1; vm_compute; reflexivity|].
  split; [rewrite Hd2; vm_compute; reflexivity | exact He].
Defined.

(** X5 on the registrations "a", "b", "c". *)
Lemma DestroyGLTextures_forgets_witness :
  exists s1,
    DestroyGLTextures abc_scene = Ok tt s1 /\
    m_textureIDs s1 = m_textureIDs abc_scene /\
    (forall t, value (FindTextureSlot t s1) = Some (-1) /\
               value (FindTextureID t s1) = Some (-1)) /\
    BindGLTextures s1 = Ok tt s1 /\
    exists s2,
      CreateGLTexture "d.png" "d" s1 = Ok true s2 /\
      registered s2 = [mkTexture "d" (new_texture s1 "d.png" (mkImage 1024 1024 3))] /\
      value (FindTextureSlot "d" s2) = Some 0.
Proof.
  apply (DestroyGLTextures_forgets "d.png" "d" (mkImage 1024 1024 3) abc_scene
           abc_scene_inv d_png_decodes (or_introl eq_refl)).
Defined.

Lemma rgb_decodes_uploadable : decodes_uploadable.
Proof. intros filename image Hload. injection Hload as <-. left. reflexivity. Defined.

(** X6 on a platform where every image has three channels: two loads, a
    destroy, a third load and a bind. *)
Lemma textures_never_leak_witness :
  exists s,
    run_ops [OpCreate "a.png" "a"; OpCreate "b.png" "b"; OpDestroy;
             OpCreate "c.png" "c"; OpBind] new_scene = Ok tt s /\
    generated (calls s) ≡ₚ deleted (calls s) ++ map tex_ID (registered s) /\
    exists s',
      DestroyGLTextures s = Ok tt s' /\
      generated (calls s') ≡ₚ deleted (calls s').
Proof.
  apply (textures_never_leak (Some 1%positive) (fun _ => 0)
           [OpCreate "a.png" "a"; OpCreate "b.png" "b"; OpDestroy;
            OpCreate "c.png" "c"; OpBind]
           rgb_decodes_uploadable).
Defined.

(** X7 on a catalog that holds the tag "wood" twice: the first record is
    the one returned. *)
Lemma FindMaterial_first_match_witness :
  let oak := mkMaterial (glm_vec3 1 1 1) (glm_vec3 2 2 2) (flit 3) "wood" in
  let pine := mkMaterial (glm_vec3 4 4 4) (glm_vec3 5 5 5) (flit 6) "wood" in
  let iron := mkMaterial (glm_vec3 7 7 7) (glm_vec3 8 8 8) (flit 9) "metal" in
  let s := mkScene None 0 [] [iron; oak; pine] [] [] in
  FindMaterial "wood" (mkMaterial (glm_vec3 0 0 0) (glm_vec3 0 0 0) (flit 0) "out") s
  = Ok (true, mkMaterial (glm_vec3 1 1 1) (glm_vec3 2 2 2) (flit 3) "out") s.
Proof.
  intros oak pine iron s.
  assert (Hbefore : Forall (fun r => mat_tag r <> "wood") [iron])
    by (repeat constructor; discriminate).
  exact (FindMaterial_first_match
           "wood" (mkMaterial (glm_vec3 0 0 0) (glm_vec3 0 0 0) (flit 0) "out")
           [iron] oak [pine] s eq_refl Hbefore eq_refl).
Defined.

(** X9 on the defined catalog and the tag "wood". *)
Lemma SetShaderMaterial_publishes_witness :
  exists s',
    SetShaderMaterial "wood" catalog_scene = Ok tt s' /\
    published (calls s') "material.diffuseColor" = Some (UVec3 (glm_vec3 0.6 0.5 0.2)) /\
    published (calls s') "material.specularColor" = Some (UVec3 (glm_vec3 0.1 0.2 0.2)) /\
    published (calls s') "material.shininess" = Some (UFloat (flit 1.0)) /\
    forall name,
      name <> "material.diffuseColor" -> name <> "material.specularColor" ->
      name <> "material.shininess" ->
      published (calls s') name = published (calls catalog_scene) name.
Proof.
  apply (SetShaderMaterial_publishes
           "wood" 1%positive
           (mkMaterial (glm_vec3 0.6 0.5 0.2) (glm_vec3 0.1 0.2 0.2) (flit 1.0) "wood")
           catalog_scene); reflexivity.
Defined.

(** X11 on the reference scene: "table" is in slot 2, "marble" is not
    registered. *)
Lemma SetShaderTexture_publishes_witness :
  (exists evs idx,
      SetShaderTexture "table" reference_scene = Ok tt (with_effects reference_scene evs idx) /\
      published (calls reference_scene ++ evs) "bUseTexture" = Some (UInt 1) /\
      published (calls reference_scene ++ evs) "objectTexture" = Some (USampler2D 2) /\
      filter is_cout evs = []) /\
  (exists evs idx,
      SetShaderTexture "marble" reference_scene = Ok tt (with_effects reference_scene evs idx) /\
      published (calls reference_scene ++ evs) "bUseTexture" = Some (UInt 0) /\
      filter is_cout evs = [cout (TextureNotFound "marble")]).
Proof.
  assert (Hp : m_pShaderManager reference_scene = Some 1%positive) by (vm_compute; reflexivity).
  assert (Htable : slot_of "table" (registered reference_scene) = 2) by (vm_compute; reflexivity).
  assert (Hmarble : slot_of "marble" (registered reference_scene) = -1)
    by (vm_compute; reflexivity).
  split.
  - destruct (SetShaderTexture_publishes "table" 1%positive reference_scene Hp
                Reference.reference_scene_inv) as (evs & idx & Hrun & Hres).
    rewrite Htable in Hres. exists evs, idx. split; [exact Hrun | exact Hres].
  - destruct (SetShaderTexture_publishes "marble" 1%positive reference_scene Hp
                Reference.reference_scene_inv) as (evs & idx & Hrun & Hres).
    rewrite Hmarble in Hres. destruct Hres as (Hoff & _ & Hwarn).
    exists evs, idx. split; [exact Hrun|]. split; [exact Hoff | exact Hwarn].
Defined.

(** X15 on the reference scene. *)
Lemma frame_shading_with_textures_witness :
  exists evs idx,
    RenderScene reference_scene = Ok tt (with_effects reference_scene evs idx) /\
    filter is_cout evs = [] /\
    shading_at_draws (calls reference_scene) evs = frame_shading textured.
Proof. apply (frame_shading_with_textures reference_scene reference_scene_ready). Defined.

(** X16 on a new object with the catalog defined and no texture loaded;
    the sampler uniform was never written. *)
Lemma frame_shading_without_textures_witness :
  exists evs idx,
    RenderScene catalog_scene = Ok tt (with_effects catalog_scene evs idx) /\
    length (filter is_cout evs) = 14%nat /\
    shading_at_draws (calls catalog_scene) evs
    = frame_shading (fun p _ => untextured None p).
Proof. apply (frame_shading_without_textures catalog_scene catalog_scene_ready). Defined.

End Examples.

Module ViewExamples.

Import View.
Import Desk.
#[local] Existing Instance glm.
#[local] Existing Instance lib.

Lemma opened_ready : ready opened.
Proof. split; [exists 1%positive; reflexivity | exists first_camera; reflexivity]. Defined.

(** X18 on a frame in which O and P are both pressed for the first time:
    the orthographic projection is selected and both latches are set. *)
Lemma projection_switches_on_fresh_press_witness :
  exists v',
    ProcessKeyboardEvents (press_O_P 1) opened = Ok tt v' /\
    bOrthographicProjection v' = true /\
    p_pressed v' = true /\ o_pressed v' = true.
Proof.
  destruct (projection_switches_on_fresh_press (press_O_P 1) opened opened_ready)
    as (v' & Hrun & Hortho & _ & _ & Hlatch & _).
  exists v'. split; [exact Hrun|]. split; [apply Hortho; reflexivity|].
  split.
  - apply (Hlatch GLFW_KEY_P (p_pressed v')); [left; reflexivity | reflexivity].
  - apply (Hlatch GLFW_KEY_O (o_pressed v')); [right; reflexivity | reflexivity].
Defined.

(** X19 on three frames in which O and W are held. *)
Lemma held_keys_switch_once_witness :
  exists v1 v2,
    PrepareSceneView (press_O_W 1) opened = Ok tt v1 /\
    run_events [Frame (press_O_W 2); Frame (press_O_W 3)] v1 = Ok tt v2 /\
    bOrthographicProjection v2 = bOrthographicProjection v1.
Proof.
  apply (held_keys_switch_once (press_O_W 1) [press_O_W 2; press_O_W 3] opened opened_ready).
  repeat constructor.
Defined.

(** X20 on a frame at the time 1 in which O and W are pressed: the camera
    has moved forward with the delta time [1 - 0], and the projection
    written is the orthographic one. *)
Lemma PrepareSceneView_publishes_witness :
  exists v',
    PrepareSceneView (press_O_W 1) opened = Ok tt v' /\
    gDeltaTime v' = Minus (Narrow (Lit 1)) (Lit 0.0) /\
    g_pCamera v' = Some (received (Key FORWARD (Minus (Narrow (Lit 1)) (Lit 0.0)))
                                  first_camera) /\
    calls v'
    = calls opened
      ++ [shader_set "view" (UMat4 (LookAt (Position first_camera) (Front first_camera)
                                           (Up first_camera)));
          shader_set "projection" (UMat4 orthographic);
          shader_set "viewPosition" (UVec3 (Position first_camera))].
Proof.
  destruct (PrepareSceneView_publishes (press_O_W 1) opened 1%positive first_camera
              eq_refl eq_refl)
    as (v' & Hrun & Hdt & _ & Hcam & _ & Hcalls & _).
  exists v'. split; [exact Hrun|]. split; [exact Hdt|]. split; [exact Hcam | exact Hcalls].
Defined.

(** X21 on the first mouse event, at (10, 20). *)
Lemma Mouse_Position_Callback_offsets_witness :
  exists v',
    Mouse_Position_Callback pointer_x pointer_y opened = Ok tt v' /\
    g_pCamera v'
    = Some (received (Mouse (Narrow (Minus (Lit 10) (Widen (Narrow (Lit 10)))))
                            (Narrow (Minus (Widen (Narrow (Lit 20))) (Lit 20))))
                     first_camera) /\
    (gLastX v', gLastY v') = (Narrow (Lit 10), Narrow (Lit 20)) /\
    gFirstMouse v' = false.
Proof.
  destruct (Mouse_Position_Callback_offsets pointer_x pointer_y opened first_camera eq_refl)
    as (v' & xOffset & yOffset & Hrun & Hcam & Hlast & Hfirst & _ & Hoffsets & _).
  destruct (Hoffsets eq_refl) as [-> ->].
  exists v'. split; [exact Hrun|]. split; [exact Hcam|]. split; [exact Hlast | exact Hfirst].
Defined.

(** X22 on a frame before any view manager was constructed. *)
Lemma view_needs_camera_witness :
  run_event (Frame (press_O_W 1)) program_start = Crash NullDereference /\
  run_event (Frame (press_O_W 1)) (ViewManager_delete program_start)
  = Crash NullDereference.
Proof.
  destruct (view_needs_camera (Frame (press_O_W 1)) program_start eq_refl)
    as (Hstart & Hdeleted & _).
  split; [exact Hstart | exact Hdeleted].
Defined.

End ViewExamples.
